(** * Device transport, command dispatch and UDP discovery

    A shallow embedding of the Bose EX440 link integration
    (Bose_ex440_integration.py), of the Empire bridge discovery session
    (empire_bridge_discovery.py) and of the iTach discovery session and
    TCP link (integration.py), followed by the properties established
    about them.

    Conventions of the embedding.
    - A Python [str] is represented by its UTF-8 encoding, a Rocq [string]
      (a list of octets).  Every separator and pattern the code uses is
      ASCII, and UTF-8 is self-synchronising, so splitting, searching and
      replacing on octets agree with the same operations on code points.
      [bytes] values are raw octet strings.
    - Asynchronous methods run on a single cooperative loop and never yield
      between two steps that matter here; they are modelled as sequential
      state transformers over the instance.
    - Calls that leave the process (opening a port, writing, printing,
      publishing) are recorded, in order, in an event log carried by the
      state; the environment decides whether an open or a write succeeds. *)

From Stdlib Require Import ZArith NArith List String Ascii Bool Lia DecimalString.
Import ListNotations.
Local Open Scope list_scope.
Local Open Scope string_scope.

(* ------------------------------------------------------------------ *)
(** ** Exceptions and results *)

Inductive exn : Type :=
| KeyError (key : string)
| TypeError
| ValueError
| OverflowError
| AttributeError
| IndexError
| UnicodeDecodeError
| JSONDecodeError
| OSError (msg : string).

Inductive result (A : Type) : Type :=
| Ok (a : A)
| Raise (e : exn).
Arguments Ok {A} a.
Arguments Raise {A} e.

(* ------------------------------------------------------------------ *)
(** ** Python strings *)

Module PyStr.

(** The characters that cannot be written inside a literal. *)
Definition dquote : string := String "034"%char "".
Definition cr : string := String "013"%char "".

(** [pat in s]. *)
Fixpoint str_contains (pat s : string) {struct s} : bool :=
  prefix pat s
  || match s with
     | "" => false
     | String _ s' => str_contains pat s'
     end.

(** Adds a character in front of the first field of a split. *)
Definition cons_head (c : ascii) (parts : list string) : list string :=
  match parts with
  | [] => [String c ""]
  | p :: ps => String c p :: ps
  end.

(** [s.split(sep)] for a one-character separator. *)
Fixpoint str_split (sep : ascii) (s : string) : list string :=
  match s with
  | "" => [""]
  | String c s' =>
      if Ascii.eqb c sep then "" :: str_split sep s'
      else cons_head c (str_split sep s')
  end.

(** [s.split(sep, maxsplit)] for a one-character separator. *)
Fixpoint str_splitn (maxsplit : nat) (sep : ascii) (s : string) : list string :=
  match s with
  | "" => [""]
  | String c s' =>
      match maxsplit with
      | O => [s]
      | S k =>
          if Ascii.eqb c sep then "" :: str_splitn k sep s'
          else cons_head c (str_splitn maxsplit sep s')
      end
  end.

(** [s.replace(old, new)] for a non-empty [old]: occurrences are replaced
    from the left and do not overlap.  [skip] counts the characters of a
    matched occurrence still to be dropped. *)
Fixpoint replace_from (old new : string) (skip : nat) (s : string) : string :=
  match s with
  | "" => ""
  | String c s' =>
      match skip with
      | S k => replace_from old new k s'
      | O =>
          if prefix old s
          then new ++ replace_from old new (String.length old - 1) s'
          else String c (replace_from old new 0 s')
      end
  end.

Definition str_replace (old new s : string) : string :=
  replace_from old new 0 s.

(** [str(n)] for an [int]. *)
Definition str_of_int (n : Z) : string :=
  NilZero.string_of_int (Z.to_int n).

(** *** Strict UTF-8 *)

Definition in_range (lo hi : N) (c : ascii) : bool :=
  (lo <=? N_of_ascii c)%N && (N_of_ascii c <=? hi)%N.

Definition continuation : ascii -> bool := in_range 128 191.

(** Well-formed UTF-8 byte sequences (Unicode, table 3-7): no overlong
    forms, no surrogates, nothing above U+10FFFF. *)
Fixpoint utf8_valid (s : string) : bool :=
  match s with
  | "" => true
  | String b0 r0 =>
      let v := N_of_ascii b0 in
      if (v <=? 127)%N then utf8_valid r0
      else if in_range 194 223 b0 then
        match r0 with
        | String b1 r1 => continuation b1 && utf8_valid r1
        | _ => false
        end
      else if in_range 224 239 b0 then
        match r0 with
        | String b1 (String b2 r2) =>
            in_range (if (v =? 224)%N then 160 else 128)
                     (if (v =? 237)%N then 159 else 191) b1
            && continuation b2 && utf8_valid r2
        | _ => false
        end
      else if in_range 240 244 b0 then
        match r0 with
        | String b1 (String b2 (String b3 r3)) =>
            in_range (if (v =? 240)%N then 144 else 128)
                     (if (v =? 244)%N then 143 else 191) b1
            && continuation b2 && continuation b3 && utf8_valid r3
        | _ => false
        end
      else false
  end.

(** [data.decode('utf-8')]: the text keeps the octets of [data]. *)
Definition decode_utf8 (data : string) : result string :=
  if utf8_valid data then Ok data else Raise UnicodeDecodeError.

End PyStr.

(* ------------------------------------------------------------------ *)
(** ** Python numbers and the values a link command carries *)

Module PyNum.

(** A [float]: a finite value [(-1)^neg * m * 2^e] (every double is of this
    form; the sign is kept apart so that [-0.0] exists), an infinity or a
    NaN.  Comparisons, [min] and [max] are exact on doubles, so they are
    exact here. *)
Inductive pyfloat : Type :=
| FFin (neg : bool) (m : N) (e : Z)
| FInf (neg : bool)
| FNaN.

Definition signed (neg : bool) (z : Z) : Z := if neg then (- z)%Z else z.

(** The value of [m * 2^e] counted in units of [2^e0], for [e0 <= e]. *)
Definition scaled (neg : bool) (m : N) (e e0 : Z) : Z :=
  signed neg (Z.of_N m * 2 ^ (e - e0))%Z.

(** [x < y]. *)
Definition flt_lt (x y : pyfloat) : bool :=
  match x, y with
  | FNaN, _ | _, FNaN => false
  | FInf nx, FInf ny => nx && negb ny
  | FInf nx, FFin _ _ _ => nx
  | FFin _ _ _, FInf ny => negb ny
  | FFin nx mx ex, FFin ny my ey =>
      let e0 := Z.min ex ey in
      (scaled nx mx ex e0 <? scaled ny my ey e0)%Z
  end.

(** [x == y]. *)
Definition flt_eq (x y : pyfloat) : bool :=
  match x, y with
  | FNaN, _ | _, FNaN => false
  | FInf nx, FInf ny => Bool.eqb nx ny
  | FInf _, FFin _ _ _ | FFin _ _ _, FInf _ => false
  | FFin nx mx ex, FFin ny my ey =>
      let e0 := Z.min ex ey in
      (scaled nx mx ex e0 =? scaled ny my ey e0)%Z
  end.

(** [x <= y]. *)
Definition flt_le (x y : pyfloat) : bool := flt_lt x y || flt_eq x y.

(** The builtins [min(a, b)] and [max(a, b)]: the first argument is kept
    unless the second is strictly smaller (greater). *)
Definition py_min (a b : pyfloat) : pyfloat := if flt_lt b a then b else a.
Definition py_max (a b : pyfloat) : pyfloat := if flt_lt a b then b else a.

Definition float_of_Z (n : Z) : pyfloat := FFin (n <? 0)%Z (Z.abs_N n) 0.

(** *** Decimal expansion of a finite float *)

Definition digits (n : N) : string := NilZero.string_of_uint (N.to_uint n).

Fixpoint zeros (k : nat) : string :=
  match k with
  | O => ""
  | S k' => String "0" (zeros k')
  end.

Definition pad_left (k : nat) (s : string) : string :=
  zeros (k - String.length s) ++ s.

Fixpoint lstrip0 (s : string) : string :=
  match s with
  | String c s' => if Ascii.eqb c "0" then lstrip0 s' else s
  | "" => ""
  end.

Fixpoint rstrip0 (s : string) : string :=
  match s with
  | "" => ""
  | String c s' =>
      let r := rstrip0 s' in
      if Ascii.eqb c "0" && (r =? "") then "" else String c r
  end.

(** Integer part of [m * 2^e]. *)
Definition int_part (m : N) (e : Z) : N :=
  if (0 <=? e)%Z then (m * 2 ^ Z.to_N e)%N else (m / 2 ^ Z.to_N (- e))%N.

(** Digits after the point of [m * 2^e], without trailing zeros: a dyadic
    fraction [r / 2^k] is [r * 5^k / 10^k]. *)
Definition frac_digits (m : N) (e : Z) : string :=
  if (0 <=? e)%Z then ""
  else
    let k := Z.to_N (- e) in
    rstrip0 (pad_left (N.to_nat k) (digits ((m mod 2 ^ k) * 5 ^ k)%N)).

Definition significant (m : N) (e : Z) : nat :=
  String.length (rstrip0 (lstrip0 (digits (int_part m e) ++ frac_digits m e))).

Definition leading_zeros (s : string) : nat :=
  String.length s - String.length (lstrip0 s).

(** [repr] prints a double positionally, with exactly the digits of its
    value, when [1e-4 <= |x| < 1e16] and the value has at most 15
    significant digits: two decimals of at most 15 digits never round to
    the same double, so the shortest string that reads back as [x] is the
    expansion of [x] itself. *)
Definition positional (m : N) (e : Z) : bool :=
  (int_part m e <? 10 ^ 16)%N
  && ((0 <? int_part m e)%N || (leading_zeros (frac_digits m e) <=? 3)%nat)
  && (significant m e <=? 15)%nat.

(** *** Values *)

Inductive pyvalue : Type :=
| VNone
| VBool (b : bool)
| VInt (n : Z)
| VFloat (x : pyfloat)
| VStr (s : string).

(** What the interpreter does outside the fragment computed here: the
    shortest round-trip digits of a double whose expansion is long, the
    parsing of numbers written as text, and the rounding of an integer
    that no double holds exactly. *)
Record runtime : Type := {
  repr_long : bool -> N -> Z -> string;
  float_of_str : string -> result pyfloat;
  int_of_str : string -> result Z;
  float_of_long : Z -> result pyfloat
}.

Section WithRuntime.
Variable rt : runtime.

(** [repr(x)], which is also [str(x)] and the f-string rendering of [x]. *)
Definition float_repr (x : pyfloat) : string :=
  match x with
  | FNaN => "nan"
  | FInf neg => if neg then "-inf" else "inf"
  | FFin neg m e =>
      let sign := if neg then "-" else "" in
      if (m =? 0)%N then sign ++ "0.0"
      else if positional m e then
        let f := frac_digits m e in
        sign ++ digits (int_part m e) ++ "." ++ (if f =? "" then "0" else f)
      else repr_long rt neg m e
  end.

(** [float(v)]. *)
Definition py_float (v : pyvalue) : result pyfloat :=
  match v with
  | VNone => Raise TypeError
  | VBool b => Ok (float_of_Z (if b then 1 else 0))
  | VInt n => if (Z.abs n <=? 2 ^ 53)%Z then Ok (float_of_Z n) else float_of_long rt n
  | VFloat x => Ok x
  | VStr s => float_of_str rt s
  end.

(** [int(v)]: a float is truncated towards zero. *)
Definition py_int (v : pyvalue) : result Z :=
  match v with
  | VNone => Raise TypeError
  | VBool b => Ok (if b then 1 else 0)%Z
  | VInt n => Ok n
  | VFloat FNaN => Raise ValueError
  | VFloat (FInf _) => Raise OverflowError
  | VFloat (FFin neg m e) => Ok (signed neg (Z.of_N (int_part m e)))
  | VStr s => int_of_str rt s
  end.

(** [bool(v)]. *)
Definition py_bool (v : pyvalue) : bool :=
  match v with
  | VNone => false
  | VBool b => b
  | VInt n => negb (n =? 0)%Z
  | VFloat (FFin _ m _) => negb (m =? 0)%N
  | VFloat _ => true
  | VStr s => negb (s =? "")
  end.

(** [str(v)], as an f-string renders a value. *)
Definition py_str (v : pyvalue) : string :=
  match v with
  | VNone => "None"
  | VBool b => if b then "True" else "False"
  | VInt n => PyStr.str_of_int n
  | VFloat x => float_repr x
  | VStr s => s
  end.

End WithRuntime.

End PyNum.

(* ------------------------------------------------------------------ *)
(** ** The Bose EX440 link integration (Bose_ex440_integration.py) *)

Module Bose.
Import PyStr PyNum.

(** *** Configuration *)

(** [config['connection']]: every key may be missing. *)
Record connection : Type := {
  conn_type : option string;
  conn_port : option pyvalue;
  conn_host : option string;
  conn_baudrate : option Z;
  conn_bridge_id : option string
}.

(** One entry of [config['zones']]. *)
Record zone : Type := {
  zone_id : option string;
  zone_name : option string;
  volume_module : option string;
  mute_module : option string;
  source_module : option string
}.

Record configuration : Type := {
  cfg_connection : option connection;
  cfg_zones : option (list zone)
}.

(** [d.get(key, default)] and [d[key]] on an optional entry. *)
Definition dict_get {A : Type} (entry : option A) (default : A) : A :=
  match entry with
  | Some a => a
  | None => default
  end.

Definition dict_item {A : Type} (key : string) (entry : option A) : result A :=
  match entry with
  | Some a => Ok a
  | None => Raise (KeyError key)
  end.

(** *** The instance and its environment *)

Definition handle : Type := nat.

(** An instance attribute: [None] when the attribute is not set at all. *)
Definition attr (A : Type) : Type := option A.

Definition hasattr {A : Type} (a : attr A) : bool :=
  match a with
  | Some _ => true
  | None => false
  end.

(** The attribute read in a boolean context ([self.serial_conn] after the
    [hasattr] test): a stored [None] is false, an open object is true. *)
Definition truthy (a : attr (option handle)) : option handle :=
  match a with
  | Some (Some h) => Some h
  | _ => None
  end.

Inductive event : Type :=
| EvPrint (msg : string)
| EvPrintExn (msg : string) (e : exn)
| EvSerialOpen (port : pyvalue) (baudrate : Z)
| EvTcpOpen (host : string) (port : pyvalue)
| EvSerialWrite (h : handle) (data : string)
| EvTcpWrite (h : handle) (data : string)
| EvTcpDrain (h : handle)
| EvSerialClose (h : handle)
| EvTcpClose (h : handle)
| EvMqttPublish (topic payload : string)
| EvPublishState (zone_id param : string) (value : pyvalue).

(** The object's fields, then the environment: the next fresh handle, the
    outcomes of the coming opens and writes ([Some e] is a failure that
    raises [e], whatever its class; an exhausted script means success)
    and the event log. *)
Record instance : Type := {
  config : configuration;
  serial_conn : attr (option handle);
  reader : attr (option handle);
  writer : attr (option handle);
  mqtt_client : bool;
  next_handle : handle;
  io_script : list (option exn);
  log : list event
}.

Definition set_serial_conn (v : attr (option handle)) (st : instance) : instance :=
  {| config := config st; serial_conn := v; reader := reader st;
     writer := writer st; mqtt_client := mqtt_client st;
     next_handle := next_handle st; io_script := io_script st; log := log st |}.

Definition set_stream (r w : attr (option handle)) (st : instance) : instance :=
  {| config := config st; serial_conn := serial_conn st; reader := r;
     writer := w; mqtt_client := mqtt_client st;
     next_handle := next_handle st; io_script := io_script st; log := log st |}.

Definition set_env (h : handle) (script : list (option exn)) (st : instance)
  : instance :=
  {| config := config st; serial_conn := serial_conn st; reader := reader st;
     writer := writer st; mqtt_client := mqtt_client st;
     next_handle := h; io_script := script; log := log st |}.

Definition add_event (e : event) (st : instance) : instance :=
  {| config := config st; serial_conn := serial_conn st; reader := reader st;
     writer := writer st; mqtt_client := mqtt_client st;
     next_handle := next_handle st; io_script := io_script st;
     log := (log st ++ [e])%list |}.

(** *** A state and exception monad over the instance *)

Definition M (A : Type) : Type := instance -> result A * instance.

Definition ret {A : Type} (a : A) : M A := fun st => (Ok a, st).

Definition raise {A : Type} (e : exn) : M A := fun st => (Raise e, st).

Definition bind {A B : Type} (m : M A) (k : A -> M B) : M B :=
  fun st =>
    match m st with
    | (Ok a, st') => k a st'
    | (Raise e, st') => (Raise e, st')
    end.

Definition lift {A : Type} (r : result A) : M A := fun st => (r, st).

Definition get : M instance := fun st => (Ok st, st).

Definition modify (f : instance -> instance) : M unit :=
  fun st => (Ok tt, f st).

(** [try: body  except Exception as e: handler e]. *)
Definition try_except {A : Type} (body : M A) (handler : exn -> M A) : M A :=
  fun st =>
    match body st with
    | (Ok a, st') => (Ok a, st')
    | (Raise e, st') => handler e st'
    end.

Notation "x <- m ;; k" := (bind m (fun x => k))
  (at level 61, m at next level, right associativity).
Notation "m ;;; k" := (bind m (fun _ => k))
  (at level 61, right associativity).

Definition emit (e : event) : M unit := modify (add_event e).

Definition print (msg : string) : M unit := emit (EvPrint msg).

(** The environment's verdict on the next open or write. *)
Definition next_outcome : M unit :=
  fun st =>
    match io_script st with
    | [] => (Ok tt, st)
    | None :: rest => (Ok tt, set_env (next_handle st) rest st)
    | Some e :: rest => (Raise e, set_env (next_handle st) rest st)
    end.

Definition fresh_handle : M handle :=
  fun st => (Ok (next_handle st), set_env (S (next_handle st)) (io_script st) st).

(** [serial.Serial(port=..., baudrate=..., timeout=1, write_timeout=1)]. *)
Definition serial_Serial (port : pyvalue) (baudrate : Z) : M handle :=
  emit (EvSerialOpen port baudrate) ;;; next_outcome ;;; fresh_handle.

(** [asyncio.open_connection(host, port)]: the reader and the writer of one
    connection share its handle. *)
Definition open_connection (host : string) (port : pyvalue) : M handle :=
  emit (EvTcpOpen host port) ;;; next_outcome ;;; fresh_handle.

Definition serial_write (h : handle) (data : string) : M unit :=
  emit (EvSerialWrite h data) ;;; next_outcome.

(** [writer.write(data)] only buffers; [await writer.drain()] may fail. *)
Definition stream_write (h : handle) (data : string) : M unit :=
  emit (EvTcpWrite h data).

Definition stream_drain (h : handle) : M unit :=
  emit (EvTcpDrain h) ;;; next_outcome.

(** [mqtt_client.publish(topic, payload)]: a black-box sink. *)
Definition mqtt_publish (topic payload : string) : M unit :=
  emit (EvMqttPublish topic payload).

(** Modelled from the spec: [publish_state] belongs to BaseIntegration,
    which is not among the sources; the specification describes it as a
    state-publication sink [publish(zoneId, parameter, value)], modelled
    here as one more recorded event. *)
Definition publish_state (zone_id param : string) (value : pyvalue) : M unit :=
  emit (EvPublishState zone_id param value).

Section WithRuntime.
Variable rt : runtime.

(** [__init__]: the three transport attributes are assigned [None].
    Whether the base class attached an MQTT client is a parameter. *)
Definition init (cfg : configuration) (mqtt : bool)
    (script : list (option exn)) : instance :=
  {| config := cfg; serial_conn := Some None; reader := Some None;
     writer := Some None; mqtt_client := mqtt; next_handle := 0;
     io_script := script; log := [] |}.

(** [self.config.get('connection', {}).get('type', 'serial')]. *)
Definition connection_type (st : instance) : string :=
  match cfg_connection (config st) with
  | Some c => dict_get (conn_type c) "serial"
  | None => "serial"
  end.

(** [self.config['connection']]. *)
Definition config_connection : M connection :=
  st <- get ;; lift (dict_item "connection" (cfg_connection (config st))).

(** *** Connection management *)

Definition _connect_serial : M unit :=
  c <- config_connection ;;
  port <- lift (dict_item "port" (conn_port c)) ;;
  let baudrate := dict_get (conn_baudrate c) 9600%Z in
  try_except
    (h <- serial_Serial port baudrate ;;
     modify (set_serial_conn (Some (Some h))) ;;;
     print ("Connected to Bose EX440 on " ++ py_str rt port))
    (fun e => emit (EvPrintExn "Serial connection failed: " e) ;;; raise e).

Definition _connect_tcp : M unit :=
  c <- config_connection ;;
  host <- lift (dict_item "host" (conn_host c)) ;;
  c' <- config_connection ;;
  port <- lift (dict_item "port" (conn_port c')) ;;
  try_except
    (h <- open_connection host port ;;
     modify (set_stream (Some (Some h)) (Some (Some h))) ;;;
     print ("Connected to Bose EX440 at " ++ host ++ ":" ++ py_str rt port))
    (fun e => emit (EvPrintExn "TCP connection failed: " e) ;;; raise e).

Definition connect : M unit :=
  st <- get ;;
  let conn_type := connection_type st in
  if conn_type =? "serial" then _connect_serial
  else if conn_type =? "tcp" then _connect_tcp
  else if conn_type =? "bridge" then ret tt
  else ret tt.

Definition disconnect : M unit :=
  st <- get ;;
  match (if hasattr (serial_conn st) then truthy (serial_conn st) else None) with
  | Some h => emit (EvSerialClose h) ;;; modify (set_serial_conn (Some None))
  | None => ret tt
  end ;;;
  st <- get ;;
  match (if hasattr (writer st) then truthy (writer st) else None) with
  | Some h => emit (EvTcpClose h) ;;; modify (set_stream (Some None) (Some None))
  | None => ret tt
  end.

(** *** Zone lookup *)

Fixpoint find_zone (zones : list zone) (zid : string) : option zone :=
  match zones with
  | [] => None
  | z :: rest =>
      match zone_id z with
      | Some i => if i =? zid then Some z else find_zone rest zid
      | None => find_zone rest zid
      end
  end.

Definition get_zone_config (st : instance) (zid : string) : option zone :=
  find_zone (dict_get (cfg_zones (config st)) []) zid.

(** *** Low-level send *)

Definition send_command (command : string) : M unit :=
  let command := str_replace "<CR>" cr command in
  st <- get ;;
  let conn_type := connection_type st in
  (if negb (hasattr (serial_conn st)) && negb (hasattr (writer st))
   then connect else ret tt) ;;;
  st <- get ;;
  match (if (conn_type =? "serial") && hasattr (serial_conn st)
         then truthy (serial_conn st) else None) with
  | Some h => serial_write h command
  | None =>
      match (if (conn_type =? "tcp") && hasattr (writer st)
             then truthy (writer st) else None) with
      | Some h => stream_write h command ;;; stream_drain h
      | None =>
          if conn_type =? "bridge" then
            if mqtt_client st then
              c <- config_connection ;;
              bridge_id <- lift (dict_item "bridge_id" (conn_bridge_id c)) ;;
              mqtt_publish ("bridges/" ++ bridge_id ++ "/command") command
            else ret tt
          else ret tt
      end
  end.

(** *** Device commands *)

(** The literals [-60.5] and [12.0]. *)
Definition volume_min : pyfloat := FFin true 121 (-1).
Definition volume_max : pyfloat := FFin false 12 0.

(** [max(-60.5, min(12.0, level_db))]. *)
Definition clamp_volume (level_db : pyfloat) : pyfloat :=
  py_max volume_min (py_min volume_max level_db).

(** [max(1, min(16, source_num))]. *)
Definition clamp_source (source_num : Z) : Z :=
  Z.max 1 (Z.min 16 source_num).

(** The f-string that frames a command: SA, the quoted module name, then
    the parameter index and the value, each after a [>], and the [<CR>]
    placeholder. *)
Definition sa_command (module_name index value : string) : string :=
  "SA" ++ dquote ++ module_name ++ dquote ++ ">" ++ index ++ ">" ++ value ++ "<CR>".

Definition _cmd_set_volume (zid module_name : string) (level_db : pyfloat) : M unit :=
  let level_db := clamp_volume level_db in
  let cmd := sa_command module_name "1" (float_repr rt level_db) in
  send_command cmd ;;;
  publish_state zid "volume" (VFloat level_db).

Definition _cmd_toggle_mute (zid module_name : string) (mute : bool) : M unit :=
  let mute_value := if mute then "O" else "F" in
  let cmd := sa_command module_name "2" mute_value in
  send_command cmd ;;;
  publish_state zid "mute" (VBool mute).

Definition _cmd_set_source (zid module_name : string) (source_num : Z) : M unit :=
  let source_num := clamp_source source_num in
  let cmd := sa_command module_name "1" (str_of_int source_num) in
  send_command cmd ;;;
  publish_state zid "source" (VInt source_num).

(** *** Command handling *)

Definition handle_link_command (link_id : string) (value : pyvalue) : M unit :=
  match str_splitn 1 "_" link_id with
  | [zid; command] =>
      st <- get ;;
      match get_zone_config st zid with
      | None => print ("Zone not found: " ++ zid)
      | Some zone_config =>
          let volume_module := dict_get (volume_module zone_config) "Main Volume" in
          let mute_module := dict_get (mute_module zone_config) "Main Volume" in
          let source_module := dict_get (source_module zone_config) "Selector 1" in
          if (command =? "volume") || (command =? "set_volume") then
            level <- lift (py_float rt value) ;;
            _cmd_set_volume zid volume_module level
          else if (command =? "mute") || (command =? "toggle_mute") then
            _cmd_toggle_mute zid mute_module (py_bool value)
          else if (command =? "source") || (command =? "set_source") then
            n <- lift (py_int rt value) ;;
            _cmd_set_source zid source_module n
          else ret tt
      end
  | _ => print ("Invalid link_id format: " ++ link_id)
  end.

(** The legacy three-argument entry point. *)
Definition handle_command (command zone_name : string) (value : pyvalue) : M unit :=
  let link_id := zone_name ++ "_" ++ command in
  handle_link_command link_id value.

(** The states an instance can be in: the one [__init__] leaves, and
    those any public operation leaves, whatever its outcome. *)
Inductive reachable : instance -> Prop :=
| reach_init cfg mqtt script : reachable (init cfg mqtt script)
| reach_connect st : reachable st -> reachable (snd (connect st))
| reach_disconnect st : reachable st -> reachable (snd (disconnect st))
| reach_send st command :
    reachable st -> reachable (snd (send_command command st))
| reach_link st link_id value :
    reachable st -> reachable (snd (handle_link_command link_id value st))
| reach_command st command zone_name value :
    reachable st -> reachable (snd (handle_command command zone_name value st)).

End WithRuntime.

(** *** Links *)

(** The [Link] dataclass. *)
Record link : Type := {
  link_id : string;
  link_name : string;
  link_type : string;
  link_command : string;
  link_min : option Z;
  link_max : option Z;
  link_step : option pyfloat;
  link_options : option (list (string * Z))
}.

(** The zone [get_links] falls back on when none is configured. *)
Definition default_zone : zone :=
  {| zone_id := Some "master"; zone_name := Some "Master";
     volume_module := Some "Main Volume"; mute_module := Some "Main Volume";
     source_module := Some "Selector 1" |}.

(** The three links of one zone; [zone['id']] and [zone['name']] must be
    present. *)
Definition zone_links (z : zone) : result (list link) :=
  match dict_item "id" (zone_id z) with
  | Raise e => Raise e
  | Ok zid =>
      match dict_item "name" (zone_name z) with
      | Raise e => Raise e
      | Ok zname =>
          Ok [ {| link_id := zid ++ "_volume"; link_name := zname ++ " Volume";
                  link_type := "slider"; link_command := "set_volume";
                  link_min := Some (-60)%Z; link_max := Some 12%Z;
                  link_step := Some (FFin false 1 (-1)); link_options := None |};
               {| link_id := zid ++ "_mute"; link_name := zname ++ " Mute";
                  link_type := "button"; link_command := "toggle_mute";
                  link_min := None; link_max := None;
                  link_step := None; link_options := None |};
               {| link_id := zid ++ "_source"; link_name := zname ++ " Source";
                  link_type := "select"; link_command := "set_source";
                  link_min := None; link_max := None; link_step := None;
                  link_options := Some [("Input 1", 1%Z); ("Input 2", 2%Z);
                                        ("Input 3", 3%Z); ("Input 4", 4%Z)] |} ]
      end
  end.

Fixpoint links_of (zones : list zone) : result (list link) :=
  match zones with
  | [] => Ok []
  | z :: rest =>
      match zone_links z with
      | Raise e => Raise e
      | Ok first =>
          match links_of rest with
          | Raise e => Raise e
          | Ok more => Ok (first ++ more)%list
          end
      end
  end.

Definition get_links (st : instance) : result (list link) :=
  let zones := dict_get (cfg_zones (config st)) [] in
  let zones := match zones with [] => [default_zone] | _ => zones end in
  links_of zones.

(** *** Observations on the event log *)

(** Events that reach the device or its relay. *)
Definition is_device_io (e : event) : bool :=
  match e with
  | EvSerialOpen _ _ | EvTcpOpen _ _
  | EvSerialWrite _ _ | EvTcpWrite _ _ | EvTcpDrain _
  | EvSerialClose _ | EvTcpClose _
  | EvMqttPublish _ _ => true
  | EvPrint _ | EvPrintExn _ _ | EvPublishState _ _ _ => false
  end.

Definition device_io (st : instance) : list event :=
  filter is_device_io (log st).

(** The publications of state recorded so far. *)
Definition is_publication (e : event) : bool :=
  match e with
  | EvPublishState _ _ _ => true
  | _ => false
  end.

Definition publications (st : instance) : list event :=
  filter is_publication (log st).

(** The command names [handle_link_command] compares against. *)
Definition command_aliases : list string :=
  ["volume"; "set_volume"; "mute"; "toggle_mute"; "source"; "set_source"].

(** The zone a link id resolves to: the split and the lookup that open
    [handle_link_command], read on their own. *)
Definition routed_zone (st : instance) (link_id : string) : option zone :=
  match str_splitn 1 "_" link_id with
  | [zid; _] => get_zone_config st zid
  | _ => None
  end.

(** The three transport attributes exist. *)
Definition attrs_set (st : instance) : Prop :=
  hasattr (serial_conn st) = true
  /\ hasattr (reader st) = true
  /\ hasattr (writer st) = true.

(** A computation keeps a property of the state, however it ends. *)
Definition preserves {A : Type} (P : instance -> Prop) (m : M A) : Prop :=
  forall st, P st -> P (snd (m st)).

(** The transport as the state machine of the specification sees it. *)
Inductive transport_state : Type :=
| Disconnected
| Connected (h : handle).

Definition transport_of (st : instance) : transport_state :=
  match truthy (serial_conn st), truthy (writer st) with
  | Some h, _ => Connected h
  | None, Some h => Connected h
  | None, None => Disconnected
  end.

(** *** Observations on states and links *)

(** The handles [disconnect] finds open. *)
Definition open_handles (st : instance) : list event :=
  (match truthy (serial_conn st) with
   | Some h => [EvSerialClose h]
   | None => []
   end
   ++ match truthy (writer st) with
      | Some h => [EvTcpClose h]
      | None => []
      end)%list.

(** A value as [publish_state] receives it from the three commands. *)
Definition ranged (param : string) (value : pyvalue) : Prop :=
  (param = "volume"
   /\ exists y, value = VFloat y
                /\ flt_le volume_min y = true /\ flt_le y volume_max = true)
  \/ (param = "mute" /\ exists b, value = VBool b)
  \/ (param = "source" /\ exists n, value = VInt n /\ (1 <= n <= 16)%Z).

(** A property of the state that only its log decides. *)
Definition log_only (P : instance -> Prop) : Prop :=
  forall st st', log st' = log st -> P st -> P st'.

(** The publications so far are [p]. *)
Definition pubs_are (p : list event) (st : instance) : Prop := publications st = p.

(** The three handles of [st] are those of [st0]. *)
Definition same_handles (st0 st : instance) : Prop :=
  serial_conn st = serial_conn st0 /\ reader st = reader st0
  /\ writer st = writer st0.

(** The attributes exist and the handles are those of [st0]. *)
Definition settled (st0 st : instance) : Prop :=
  attrs_set st /\ same_handles st0 st.

(** The states in which [send_command] has nowhere to send. *)
Definition nowhere_to_send (st : instance) : Prop :=
  (connection_type st <> "bridge" /\ transport_of st = Disconnected)
  \/ (connection_type st = "bridge" /\ mqtt_client st = false).

(** The zones [get_links] enumerates. *)
Definition advertised_zones (st : instance) : list zone :=
  match dict_get (cfg_zones (config st)) [] with
  | [] => [default_zone]
  | zones => zones
  end.

(** The ids of the three links of a zone. *)
Definition link_ids_of (zid : string) : list string :=
  [zid ++ "_volume"; zid ++ "_mute"; zid ++ "_source"].

End Bose.

(* ------------------------------------------------------------------ *)
(** ** JSON documents as [json.loads] reads them *)

Module Json.
Import PyStr.

(** A decoded document.  An object is a Python [dict]: keys are unique and
    keep the position of their first insertion.  A number written with a
    fraction or an exponent keeps its text; nothing here computes with it. *)
#[warnings="-register-all"]
Inductive json : Type :=
| JNull
| JBool (b : bool)
| JInt (n : Z)
| JFloat (literal : string)
| JString (s : string)
| JArray (items : list json)
| JObject (fields : list (string * json)).

(** [d[key] = v]. *)
Fixpoint dict_set (key : string) (v : json) (fields : list (string * json))
  : list (string * json) :=
  match fields with
  | [] => [(key, v)]
  | (k, w) :: rest =>
      if k =? key then (k, v) :: rest else (k, w) :: dict_set key v rest
  end.

Fixpoint dict_lookup (key : string) (fields : list (string * json)) : option json :=
  match fields with
  | [] => None
  | (k, w) :: rest => if k =? key then Some w else dict_lookup key rest
  end.

(** [d.get(key, default)]. *)
Definition dict_get (fields : list (string * json)) (key : string) (default : json)
  : json :=
  match dict_lookup key fields with
  | Some v => v
  | None => default
  end.

(** *** Scanner *)

Definition is_ws (c : ascii) : bool :=
  Ascii.eqb c " " || Ascii.eqb c "009" || Ascii.eqb c "010" || Ascii.eqb c "013".

Fixpoint skip_ws (s : string) : string :=
  match s with
  | String c r => if is_ws c then skip_ws r else s
  | "" => ""
  end.

Definition is_digit (c : ascii) : bool := in_range 48 57 c.

Definition hex_value (c : ascii) : option N :=
  let v := N_of_ascii c in
  if in_range 48 57 c then Some (v - 48)%N
  else if in_range 97 102 c then Some (v - 87)%N
  else if in_range 65 70 c then Some (v - 55)%N
  else None.

Definition hex4 (a b c d : ascii) : option N :=
  match hex_value a, hex_value b, hex_value c, hex_value d with
  | Some x, Some y, Some z, Some w => Some (((x * 16 + y) * 16 + z) * 16 + w)%N
  | _, _, _, _ => None
  end.

(** The octets of a code point; a lone surrogate, which only an escape can
    produce, takes the three-octet form as well. *)
Definition utf8_encode (c : N) : string :=
  let byte (n : N) : ascii := ascii_of_N n in
  let tail (n : N) : ascii := byte (128 + n mod 64)%N in
  if (c <? 128)%N then String (byte c) ""
  else if (c <? 2048)%N then String (byte (192 + c / 64)%N) (String (tail c) "")
  else if (c <? 65536)%N then
    String (byte (224 + c / 4096)%N) (String (tail (c / 64)%N) (String (tail c) ""))
  else
    String (byte (240 + c / 262144)%N)
      (String (tail (c / 4096)%N) (String (tail (c / 64)%N) (String (tail c) ""))).

Definition is_high_surrogate (c : N) : bool := (55296 <=? c)%N && (c <=? 56319)%N.
Definition is_low_surrogate (c : N) : bool := (56320 <=? c)%N && (c <=? 57343)%N.

Definition join_surrogates (hi lo : N) : N :=
  (65536 + (hi - 55296) * 1024 + (lo - 56320))%N.

Definition simple_escape (c : ascii) : option ascii :=
  if Ascii.eqb c "034" then Some "034"%char
  else if Ascii.eqb c "\" then Some "\"%char
  else if Ascii.eqb c "/" then Some "/"%char
  else if Ascii.eqb c "b" then Some "008"%char
  else if Ascii.eqb c "f" then Some "012"%char
  else if Ascii.eqb c "n" then Some "010"%char
  else if Ascii.eqb c "r" then Some "013"%char
  else if Ascii.eqb c "t" then Some "009"%char
  else None.

Definition with_prefix (p : string) (r : option (string * string))
  : option (string * string) :=
  match r with
  | Some (body, rest) => Some (p ++ body, rest)
  | None => None
  end.

(** The text of a string literal after its opening quote, in strict mode:
    the decoded text and what follows the closing quote.  A high surrogate
    escape directly followed by another escape is joined with it when that
    one is a low surrogate. *)
Fixpoint scanstring (s : string) : option (string * string) :=
  match s with
  | "" => None
  | String c r =>
      if Ascii.eqb c "034" then Some ("", r)
      else if Ascii.eqb c "\" then
        match r with
        | "" => None
        | String e r1 =>
            if Ascii.eqb e "u" then
              match r1 with
              | String h1 (String h2 (String h3 (String h4 r4))) =>
                  match hex4 h1 h2 h3 h4 with
                  | None => None
                  | Some hi =>
                      match r4 with
                      | String b (String u
                          (String g1 (String g2 (String g3 (String g4 r8))))) =>
                          if is_high_surrogate hi && Ascii.eqb b "\" && Ascii.eqb u "u"
                          then
                            match hex4 g1 g2 g3 g4 with
                            | None => None
                            | Some lo =>
                                if is_low_surrogate lo
                                then with_prefix (utf8_encode (join_surrogates hi lo))
                                                 (scanstring r8)
                                else with_prefix (utf8_encode hi) (scanstring r4)
                            end
                          else with_prefix (utf8_encode hi) (scanstring r4)
                      | _ => with_prefix (utf8_encode hi) (scanstring r4)
                      end
                  end
              | _ => None
              end
            else
              match simple_escape e with
              | Some x => with_prefix (String x "") (scanstring r1)
              | None => None
              end
        end
      else if (N_of_ascii c <=? 31)%N then None
      else with_prefix (String c "") (scanstring r)
  end.

Fixpoint take_digits (s : string) : string * string :=
  match s with
  | String c r =>
      if is_digit c then let (d, rest) := take_digits r in (String c d, rest)
      else ("", s)
  | "" => ("", "")
  end.

Fixpoint digits_value (acc : Z) (s : string) : Z :=
  match s with
  | String c r => digits_value (acc * 10 + Z.of_N (N_of_ascii c - 48))%Z r
  | "" => acc
  end.

(** The integer part of a number: [0], or a non-zero digit and more digits. *)
Definition scan_int_digits (s : string) : option (string * string) :=
  match s with
  | String c r =>
      if Ascii.eqb c "0" then Some ("0", r)
      else if is_digit c then let (d, rest) := take_digits r in Some (String c d, rest)
      else None
  | "" => None
  end.

(** An optional fraction: a point and at least one digit. *)
Definition scan_frac (s : string) : string * string :=
  match s with
  | String c r =>
      if Ascii.eqb c "." then
        match take_digits r with
        | ("", _) => ("", s)
        | (d, rest) => (String c d, rest)
        end
      else ("", s)
  | "" => ("", s)
  end.

(** An optional exponent: [e] or [E], an optional sign, at least one digit. *)
Definition scan_exp (s : string) : string * string :=
  match s with
  | String e r =>
      if Ascii.eqb e "e" || Ascii.eqb e "E" then
        let (sign, r1) :=
          match r with
          | String c r' =>
              if Ascii.eqb c "+" || Ascii.eqb c "-" then (String c "", r') else ("", r)
          | "" => ("", r)
          end in
        match take_digits r1 with
        | ("", _) => ("", s)
        | (d, rest) => (String e (sign ++ d), rest)
        end
      else ("", s)
  | "" => ("", s)
  end.

Definition scan_number (s : string) : option (json * string) :=
  let (neg, s1) :=
    match s with
    | String c r => if Ascii.eqb c "-" then (true, r) else (false, s)
    | "" => (false, s)
    end in
  match scan_int_digits s1 with
  | None => None
  | Some (int, r1) =>
      let (frac, r2) := scan_frac r1 in
      let (exp, r3) := scan_exp r2 in
      if (frac =? "") && (exp =? "")
      then Some (JInt (if neg then - digits_value 0 int else digits_value 0 int)%Z, r3)
      else Some (JFloat ((if neg then "-" else "") ++ int ++ frac ++ exp), r3)
  end.

(** [s] starts with the word [w]: the rest of [s]. *)
Fixpoint after_word (w s : string) : option string :=
  match w with
  | "" => Some s
  | String c w' =>
      match s with
      | String d s' => if Ascii.eqb c d then after_word w' s' else None
      | "" => None
      end
  end.

Inductive parse (A : Type) : Type :=
| Parsed (a : A) (rest : string)
| Failed
| OutOfFuel.
Arguments Parsed {A} a rest.
Arguments Failed {A}.
Arguments OutOfFuel {A}.

Definition of_option {A : Type} (r : option (A * string)) : parse A :=
  match r with
  | Some (a, rest) => Parsed a rest
  | None => Failed
  end.

(** Literals and numbers, tried when the first character opens neither a
    string, an object nor an array. *)
Definition scan_atom (s : string) : parse json :=
  match after_word "null" s, after_word "true" s, after_word "false" s with
  | Some r, _, _ => Parsed JNull r
  | _, Some r, _ => Parsed (JBool true) r
  | _, _, Some r => Parsed (JBool false) r
  | None, None, None =>
      match after_word "NaN" s, after_word "Infinity" s, after_word "-Infinity" s with
      | Some r, _, _ => Parsed (JFloat "NaN") r
      | _, Some r, _ => Parsed (JFloat "Infinity") r
      | _, _, Some r => Parsed (JFloat "-Infinity") r
      | None, None, None => of_option (scan_number s)
      end
  end.

(** What stands at the head of [s] once white space is skipped. *)
Definition next_char (s : string) : option (ascii * string) :=
  match skip_ws s with
  | String c rest => Some (c, rest)
  | "" => None
  end.

Definition next_is (c : ascii) (s : string) : option string :=
  match next_char s with
  | Some (d, rest) => if Ascii.eqb d c then Some rest else None
  | None => None
  end.

(** One JSON term at the head of [s]; the members of an array after its
    bracket; the members of an object after its brace.  [fuel] bounds the
    number of nested and successive terms. *)
Fixpoint scan_once (fuel : nat) (s : string) : parse json :=
  match fuel with
  | O => OutOfFuel
  | S fuel' =>
      match s with
      | "" => Failed
      | String c r =>
          if Ascii.eqb c "034" then
            match scanstring r with
            | Some (text, rest) => Parsed (JString text) rest
            | None => Failed
            end
          else if Ascii.eqb c "{" then
            match next_is "}" r with
            | Some rest => Parsed (JObject []) rest
            | None =>
                match parse_members fuel' (skip_ws r) [] with
                | Parsed fields rest => Parsed (JObject fields) rest
                | Failed => Failed
                | OutOfFuel => OutOfFuel
                end
            end
          else if Ascii.eqb c "[" then
            match next_is "]" r with
            | Some rest => Parsed (JArray []) rest
            | None =>
                match parse_items fuel' (skip_ws r) [] with
                | Parsed items rest => Parsed (JArray items) rest
                | Failed => Failed
                | OutOfFuel => OutOfFuel
                end
            end
          else scan_atom s
      end
  end

with parse_items (fuel : nat) (s : string) (acc : list json) : parse (list json) :=
  match fuel with
  | O => OutOfFuel
  | S fuel' =>
      match scan_once fuel' s with
      | Parsed v r =>
          match next_char r with
          | Some (c, rest) =>
              if Ascii.eqb c "]" then Parsed (acc ++ [v])%list rest
              else if Ascii.eqb c ","
                   then parse_items fuel' (skip_ws rest) (acc ++ [v])%list
                   else Failed
          | None => Failed
          end
      | Failed => Failed
      | OutOfFuel => OutOfFuel
      end
  end

with parse_members (fuel : nat) (s : string) (acc : list (string * json))
  : parse (list (string * json)) :=
  match fuel with
  | O => OutOfFuel
  | S fuel' =>
      match s with
      | "" => Failed
      | String q r =>
          if Ascii.eqb q "034" then
            match scanstring r with
            | None => Failed
            | Some (key, r1) =>
                match next_is ":" r1 with
                | None => Failed
                | Some r2 =>
                    match scan_once fuel' (skip_ws r2) with
                    | Parsed v r3 =>
                        match next_char r3 with
                        | Some (c, rest) =>
                            if Ascii.eqb c "}" then Parsed (dict_set key v acc) rest
                            else if Ascii.eqb c ","
                                 then parse_members fuel' (skip_ws rest)
                                        (dict_set key v acc)
                                 else Failed
                        | None => Failed
                        end
                    | Failed => Failed
                    | OutOfFuel => OutOfFuel
                    end
                end
            end
          else Failed
      end
  end.

(** The UTF-8 octets of U+FEFF. *)
Definition bom : string := String "239" (String "187" (String "191" "")).

(** [json.loads(s)] for a [str]: a byte-order mark is refused, white space
    may surround the one term, nothing else may follow it.  Two units of
    fuel for each character are always enough.

    Nesting is not bounded here.  [json.loads] gives up with a
    RecursionError once containers nest deeper than the recursion limit
    of the interpreter leaves room for (about a thousand levels unless
    the limit is changed).  Within the 1024 octets of a datagram only a
    text that is not JSON nests that deep; it is refused here as
    malformed, so the two agree on what is accepted and differ on the
    exception such a text is refused with. *)
Definition json_loads (s : string) : result json :=
  if prefix bom s then Raise JSONDecodeError
  else
    match scan_once (2 * String.length s + 2) (skip_ws s) with
    | Parsed v rest => if skip_ws rest =? "" then Ok v else Raise JSONDecodeError
    | Failed => Raise JSONDecodeError
    | OutOfFuel => Raise JSONDecodeError
    end.

End Json.

(* ------------------------------------------------------------------ *)
(** ** UDP discovery sessions *)

Module Udp.

(** What one call of [sock.recvfrom(1024)] does: the one-second poll
    expires, a datagram arrives from an address, or the socket fails. *)
Inductive recv : Type :=
| RecvTimeout
| RecvDatagram (payload : string) (ip : string) (port : Z)
| RecvError (msg : string).

(** One turn of the receive loop as the environment drives it: the time
    elapsed since [start_time] when the loop condition is evaluated, and
    what the receive does if the loop is entered. *)
Record tick : Type := {
  elapsed : Z;
  received : recv
}.

(** The network seen by one session: whether the socket can be made
    ready ([socket()], [setsockopt()], [bind()] and [settimeout()], which
    run before the [try] and raise [e] when they fail), which broadcasts
    fail, and the turns of the loop.  Times and the timeout are counted
    in one unit. *)
Record network : Type := {
  setup_error : option exn;
  sendto_error : Z -> option string;
  arrivals : list tick
}.

(** How a session ends.  [Pending] says that the turns supplied ran out
    before the deadline was seen to pass. *)
Inductive outcome (A : Type) : Type :=
| Returned (devices : list A)
| Raised (e : exn)
| Pending.
Arguments Returned {A} devices.
Arguments Raised {A} e.
Arguments Pending {A}.

(** The loop is seen to reach its deadline on the turns supplied. *)
Definition deadline_seen (timeout : Z) (turns : list tick) : Prop :=
  exists t, In t turns /\ (timeout <= elapsed t)%Z.

(** [recvfrom(1024)] keeps at most 1024 octets of a datagram. *)
Definition recvfrom_data (payload : string) : string := substring 0 1024 payload.

End Udp.

(** *** The Empire bridge session (empire_bridge_discovery.py) *)

Module Empire.
Import PyStr Json Udp.

Record device : Type := {
  name : json;
  ip : string;
  port : json;
  model : json;
  version : json;
  serial : json;
  capabilities : json
}.

(** [response.get('type') == expected]: only a string equal to [expected]
    compares equal; a missing key reads as [None]. *)
Definition get_equals (found : option json) (expected : string) : bool :=
  match found with
  | Some (JString s) => s =? expected
  | _ => false
  end.

(** The dictionary built for an accepted response. *)
Definition device_of (response : list (string * json)) (ip_addr : string) : device :=
  {| name := dict_get response "name" (JString "Empire Bridge");
     ip := ip_addr;
     port := dict_get response "port" (JInt 5000);
     model := dict_get response "model" (JString "Unknown");
     version := dict_get response "version" (JString "Unknown");
     serial := dict_get response "serial" (JString "Unknown");
     capabilities := dict_get response "capabilities" (JArray []) |}.

(** The body of the loop's [try] block for a datagram: the response is
    decoded and parsed, and a device is built when its type matches.  A
    document that is not an object has no [get]. *)
Definition read_response (data ip_addr : string) : result (option device) :=
  match decode_utf8 data with
  | Raise e => Raise e
  | Ok text =>
      match json_loads text with
      | Raise e => Raise e
      | Ok (JObject response) =>
          if get_equals (dict_lookup "type" response) "empire_bridge"
          then Ok (Some (device_of response ip_addr))
          else Ok None
      | Ok _ => Raise AttributeError
      end
  end.

(** The receive loop.  [printed] collects the exceptions reported by the
    last handler, [except Exception as e: print(...)]; a timeout and a
    JSON error continue silently.  (A text nested beyond the recursion
    limit is reported by the program and passed in silence here, see
    [json_loads].) *)
Fixpoint listen (timeout : Z) (turns : list tick)
    (devices : list device) (printed : list exn)
  : outcome device * list exn :=
  match turns with
  | [] => (Pending, printed)
  | t :: rest =>
      if (elapsed t <? timeout)%Z then
        match received t with
        | RecvTimeout => listen timeout rest devices printed
        | RecvError msg => listen timeout rest devices (printed ++ [OSError msg])%list
        | RecvDatagram payload ip_addr _ =>
            match read_response (recvfrom_data payload) ip_addr with
            | Ok (Some d) => listen timeout rest (devices ++ [d])%list printed
            | Ok None => listen timeout rest devices printed
            | Raise JSONDecodeError => listen timeout rest devices printed
            | Raise e => listen timeout rest devices (printed ++ [e])%list
            end
        end
      else (Returned devices, printed)
  end.

(** [discover(timeout)]: the socket is made ready before the [try], so a
    failure there leaves the session with its exception; the three
    broadcasts are attempted and their failures swallowed; then the loop
    decides the result. *)
Definition discover (timeout : Z) (net : network) : outcome device * list exn :=
  match setup_error net with
  | Some e => (Raised e, [])
  | None => listen timeout (arrivals net) [] []
  end.

(** The devices a session is expected to report, in the words of the
    specification: one for each accepted response received before the
    deadline, in order of arrival, repeats included. *)
Fixpoint heard (timeout : Z) (turns : list tick) : list device :=
  match turns with
  | [] => []
  | t :: rest =>
      if (elapsed t <? timeout)%Z then
        match received t with
        | RecvDatagram payload ip_addr _ =>
            match read_response (recvfrom_data payload) ip_addr with
            | Ok (Some d) => d :: heard timeout rest
            | _ => heard timeout rest
            end
        | _ => heard timeout rest
        end
      else []
  end.

End Empire.

(** *** The iTach session (integration.py) *)

Module ITach.
Import PyStr Udp.

Record device_info : Type := {
  ip : string;
  port : Z;
  model : string;
  uuid : string;
  name : string;
  integration : string;
  type : string;
  category : string
}.

Definition set_uuid (u : string) (d : device_info) : device_info :=
  {| ip := ip d; port := port d; model := model d; uuid := u; name := name d;
     integration := integration d; type := type d; category := category d |}.

Definition set_model (m : string) (d : device_info) : device_info :=
  {| ip := ip d; port := port d; model := m; uuid := uuid d;
     name := "iTach " ++ m ++ " at " ++ ip d;
     integration := integration d; type := type d; category := category d |}.

(** [part.split('=')[1]]. *)
Definition second_field (part : string) : result string :=
  match nth_error (str_split "=" part) 1 with
  | Some v => Ok v
  | None => Raise IndexError
  end.

(** The [for part in parts] loop over the segments of a response. *)
Fixpoint scan_parts (parts : list string) (d : device_info) : result device_info :=
  match parts with
  | [] => Ok d
  | part :: rest =>
      if str_contains "UUID=" part then
        match second_field part with
        | Ok v => scan_parts rest (set_uuid v d)
        | Raise e => Raise e
        end
      else if str_contains "Model=" part then
        match second_field part with
        | Ok v => scan_parts rest (set_model v d)
        | Raise e => Raise e
        end
      else scan_parts rest d
  end.

(** The body of the loop's [try] block for a datagram. *)
Definition read_response (data ip_addr : string) : result (option device_info) :=
  match decode_utf8 data with
  | Raise e => Raise e
  | Ok response =>
      if str_contains "AMXB" response then
        let d := {| ip := ip_addr; port := 4999; model := "Unknown";
                    uuid := "Unknown"; name := "iTach at " ++ ip_addr;
                    integration := "global_cache_itach"; type := "globalcache";
                    category := "bridge" |} in
        match scan_parts (str_split "-" response) d with
        | Ok d' => Ok (Some d')
        | Raise e => Raise e
        end
      else Ok None
  end.

(** The receive loop: only [socket.timeout] is handled, every other
    exception leaves the loop and, after [sock.close()], the session. *)
Fixpoint listen (timeout : Z) (turns : list tick) (devices : list device_info)
  : outcome device_info :=
  match turns with
  | [] => Pending
  | t :: rest =>
      if (elapsed t <? timeout)%Z then
        match received t with
        | RecvTimeout => listen timeout rest devices
        | RecvError msg => Raised (OSError msg)
        | RecvDatagram payload ip_addr _ =>
            match read_response (recvfrom_data payload) ip_addr with
            | Ok (Some d) => listen timeout rest (devices ++ [d])%list
            | Ok None => listen timeout rest devices
            | Raise e => Raised e
            end
        end
      else Returned devices
  end.

(** [discover_devices(timeout)]: the socket is made ready before the
    [try], so a failure there leaves the session with its exception; the
    beacon goes to port 9131 inside the [try], so a failed broadcast ends
    the session as well. *)
Definition discover_devices (timeout : Z) (net : network) : outcome device_info :=
  match setup_error net with
  | Some e => Raised e
  | None =>
      match sendto_error net 9131%Z with
      | Some msg => Raised (OSError msg)
      | None => listen timeout (arrivals net) []
      end
  end.

(** *** Observations on a session *)

(** An entry is backed by a datagram of the session. *)
Definition backed (timeout : Z) (turns : list tick) (d : device_info) : Prop :=
  exists t payload p,
    In t turns /\ (elapsed t < timeout)%Z
    /\ received t = RecvDatagram payload (ip d) p
    /\ read_response (recvfrom_data payload) (ip d) = Ok (Some d).

(** An exception has its cause in a turn of the session. *)
Definition caused (timeout : Z) (turns : list tick) (e : exn) : Prop :=
  exists t,
    In t turns /\ (elapsed t < timeout)%Z
    /\ ((exists msg, received t = RecvError msg /\ e = OSError msg)
        \/ (exists payload ip_addr p,
              received t = RecvDatagram payload ip_addr p
              /\ read_response (recvfrom_data payload) ip_addr = Raise e)).

(** The name an entry carries for its model and address. *)
Definition labelled (d : device_info) : Prop :=
  (model d = "Unknown" /\ name d = "iTach at " ++ ip d)
  \/ name d = "iTach " ++ model d ++ " at " ++ ip d.

(** The fields every entry starts with and keeps. *)
Definition constant_fields (ip_addr : string) (d : device_info) : Prop :=
  ip d = ip_addr /\ port d = 4999%Z
  /\ integration d = "global_cache_itach"
  /\ type d = "globalcache" /\ category d = "bridge".

End ITach.

(** *** Aggregation (empire_bridge_discovery.py) *)

Module Bridges.
Import Udp.

Record results : Type := {
  empire : list Empire.device;
  itach : list ITach.device_info;
  other : list Empire.device
}.

(** [discover_all_bridges(timeout)]: the Empire session, then the iTach
    session under a bare [except: pass].  [importable] says whether the
    iTach integration module can be imported; [None] says that a session
    is still pending on the turns supplied. *)
Definition discover_all_bridges (timeout : Z) (empire_net itach_net : network)
    (importable : bool) : option (result results) :=
  match fst (Empire.discover timeout empire_net) with
  | Pending => None
  | Raised e => Some (Raise e)
  | Returned found =>
      if importable then
        match ITach.discover_devices timeout itach_net with
        | Pending => None
        | Raised _ => Some (Ok {| empire := found; itach := []; other := [] |})
        | Returned units => Some (Ok {| empire := found; itach := units; other := [] |})
        end
      else Some (Ok {| empire := found; itach := []; other := [] |})
  end.

End Bridges.

(* ------------------------------------------------------------------ *)
(** ** Closed inputs used by the examples below *)

Module Samples.
Import PyStr PyNum Bose Udp.

(** A runtime that refuses numbers written as text and integers beyond
    2^53, and prints a mark for the expansions it is not asked about. *)
Definition sample_runtime : runtime :=
  {| repr_long := fun _ _ _ => "?";
     float_of_str := fun _ => Raise ValueError;
     int_of_str := fun _ => Raise ValueError;
     float_of_long := fun _ => Raise OverflowError |}.

Definition master_zone : zone :=
  {| zone_id := Some "master"; zone_name := Some "Master";
     volume_module := Some "Main Volume"; mute_module := Some "Main Volume";
     source_module := Some "Selector 1" |}.

(** A zone whose id is the empty string. *)
Definition unnamed_zone : zone :=
  {| zone_id := Some ""; zone_name := Some "Unnamed";
     volume_module := Some "Main Volume"; mute_module := None;
     source_module := None |}.

Definition living_room_zone : zone :=
  {| zone_id := Some "living_room"; zone_name := Some "Living room";
     volume_module := Some "Zone 2 Volume"; mute_module := None;
     source_module := None |}.

Definition serial_connection : connection :=
  {| conn_type := Some "serial"; conn_port := Some (VStr "/dev/ttyUSB0");
     conn_host := None; conn_baudrate := None; conn_bridge_id := None |}.

Definition tcp_connection : connection :=
  {| conn_type := Some "tcp"; conn_port := Some (VInt 10055);
     conn_host := Some "192.168.1.40"; conn_baudrate := None;
     conn_bridge_id := None |}.


Definition config_with (c : connection) (zs : list zone) : configuration :=
  {| cfg_connection := Some c; cfg_zones := Some zs |}.

(** A fresh instance, and the instance after a first [connect()] in an
    environment where every open and write succeeds. *)
Definition fresh (c : connection) (zs : list zone) : instance :=
  init (config_with c zs) true [].

Definition connected (c : connection) (zs : list zone) : instance :=
  snd (connect sample_runtime (fresh c zs)).

(** The text of the command for [master_set_volume] at -10. *)
Definition master_minus_ten : string :=
  "SA" ++ dquote ++ "Main Volume" ++ dquote ++ ">1>-10.0<CR>".

(** Responses to a discovery broadcast. *)
Definition quoted (s : string) : string := dquote ++ s ++ dquote.

Definition empire_reply : string :=
  "{" ++ quoted "type" ++ ":" ++ quoted "empire_bridge" ++ ","
      ++ quoted "name" ++ ":" ++ quoted "X" ++ ","
      ++ quoted "port" ++ ":5001}".

Definition untyped_reply : string :=
  "{" ++ quoted "name" ++ ":" ++ quoted "X" ++ "," ++ quoted "port" ++ ":5001}".

Definition itach_reply : string := "AMXB<-UUID=abc-Model=EX1-".

(** One octet that no UTF-8 text contains. *)
Definition undecodable : string := String "255" "".

Definition quiet : Z -> option string := fun _ => None.

(** A session in which [payload] arrives from [ip_addr] at time 0 and the
    loop next looks at the clock once the deadline has passed. *)
Definition one_reply (timeout : Z) (payload ip_addr : string) : network :=
  {| setup_error := None;
     sendto_error := quiet;
     arrivals := [ {| elapsed := 0; received := RecvDatagram payload ip_addr 9131 |};
                   {| elapsed := timeout; received := RecvTimeout |} ] |}.

End Samples.

(* ------------------------------------------------------------------ *)
(** ** The iTach bridge connection (integration.py) *)

Module ITachLink.
Import PyStr PyNum.

Definition handle : Type := nat.

(** What the peer answers to the next [connect], [send] or [recv]: it goes
    through, a [recv] returning [data] (at most 1024 octets), or it fails
    with an error carrying [msg].  An exhausted script goes through with
    no data. *)
Inductive reply : Type :=
| Done (data : string)
| Failed (msg : string).

Inductive event : Type :=
| EvPrint (msg : string)
| EvPrintExn (msg : string) (e : exn)
| EvSocket (h : handle)
| EvConnect (h : handle) (host : string) (port : Z)
| EvSend (h : handle) (data : string)
| EvRecv (h : handle)
| EvClose (h : handle).

(** The object's fields [config], [socket] and [connected], then the
    environment: the next fresh socket, the coming replies and the log. *)
Record bridge : Type := {
  config : Bose.configuration;
  socket : option handle;
  connected : bool;
  next_handle : handle;
  script : list reply;
  log : list event
}.

Definition set_socket (s : option handle) (st : bridge) : bridge :=
  {| config := config st; socket := s; connected := connected st;
     next_handle := next_handle st; script := script st; log := log st |}.

Definition set_connected (b : bool) (st : bridge) : bridge :=
  {| config := config st; socket := socket st; connected := b;
     next_handle := next_handle st; script := script st; log := log st |}.

Definition set_env (h : handle) (replies : list reply) (st : bridge) : bridge :=
  {| config := config st; socket := socket st; connected := connected st;
     next_handle := h; script := replies; log := log st |}.

Definition add_event (e : event) (st : bridge) : bridge :=
  {| config := config st; socket := socket st; connected := connected st;
     next_handle := next_handle st; script := script st;
     log := (log st ++ [e])%list |}.

(** *** The state and exception monad over the bridge object *)

Definition M (A : Type) : Type := bridge -> result A * bridge.

Definition ret {A : Type} (a : A) : M A := fun st => (Ok a, st).

Definition raise {A : Type} (e : exn) : M A := fun st => (Raise e, st).

Definition bind {A B : Type} (m : M A) (k : A -> M B) : M B :=
  fun st =>
    match m st with
    | (Ok a, st') => k a st'
    | (Raise e, st') => (Raise e, st')
    end.

Definition lift {A : Type} (r : result A) : M A := fun st => (r, st).

Definition get : M bridge := fun st => (Ok st, st).

Definition modify (f : bridge -> bridge) : M unit := fun st => (Ok tt, f st).

(** [try: body  except Exception as e: handler e]. *)
Definition try_except {A : Type} (body : M A) (handler : exn -> M A) : M A :=
  fun st =>
    match body st with
    | (Ok a, st') => (Ok a, st')
    | (Raise e, st') => handler e st'
    end.

Notation "x <- m ;; k" := (bind m (fun x => k))
  (at level 61, m at next level, right associativity).
Notation "m ;;; k" := (bind m (fun _ => k))
  (at level 61, right associativity).

Definition emit (e : event) : M unit := modify (add_event e).

Definition print (msg : string) : M unit := emit (EvPrint msg).

(** The peer's answer to the operation under way. *)
Definition next_reply : M string :=
  fun st =>
    match script st with
    | [] => (Ok "", st)
    | Done data :: rest => (Ok data, set_env (next_handle st) rest st)
    | Failed msg :: rest => (Raise (OSError msg), set_env (next_handle st) rest st)
    end.

(** [socket.socket(AF_INET, SOCK_STREAM)], taken to succeed. *)
Definition new_socket : M handle :=
  fun st =>
    (Ok (next_handle st),
     add_event (EvSocket (next_handle st))
       (set_env (S (next_handle st)) (script st) st)).

(** The port of an address pair: an integer within 0..65535, a [bool]
    being an integer; anything else is refused before the network is
    touched. *)
Definition port_number (port : pyvalue) : result Z :=
  match port with
  | VInt n => if (0 <=? n)%Z && (n <=? 65535)%Z then Ok n else Raise OverflowError
  | VBool b => Ok (if b then 1 else 0)%Z
  | _ => Raise TypeError
  end.

(** [sock.connect((host, port))]. *)
Definition sock_connect (h : handle) (host : string) (port : pyvalue) : M unit :=
  n <- lift (port_number port) ;;
  emit (EvConnect h host n) ;;; next_reply ;;; ret tt.

Definition sock_send (h : handle) (data : string) : M unit :=
  emit (EvSend h data) ;;; next_reply ;;; ret tt.

(** [sock.recv(1024)]. *)
Definition sock_recv (h : handle) : M string :=
  emit (EvRecv h) ;;; next_reply.

(** [self.socket] used as a socket: [None] has none of its methods. *)
Definition the_socket : M handle :=
  st <- get ;;
  match socket st with
  | Some h => ret h
  | None => raise AttributeError
  end.

(** [data.encode()]: only a [str] has the method. *)
Definition str_encode (data : pyvalue) : result string :=
  match data with
  | VStr s => Ok s
  | _ => Raise AttributeError
  end.

(** [__init__]. *)
Definition init (cfg : Bose.configuration) (replies : list reply) : bridge :=
  {| config := cfg; socket := None; connected := false; next_handle := 0;
     script := replies; log := [] |}.

Section WithRuntime.
Variable rt : runtime.

(** [self.config['connection']]. *)
Definition config_connection : M Bose.connection :=
  st <- get ;;
  lift (Bose.dict_item "connection" (Bose.cfg_connection (config st))).

Definition connect : M unit :=
  c <- config_connection ;;
  host <- lift (Bose.dict_item "host" (Bose.conn_host c)) ;;
  c' <- config_connection ;;
  let port := Bose.dict_get (Bose.conn_port c') (VInt 4999) in
  try_except
    (h <- new_socket ;;
     modify (set_socket (Some h)) ;;;
     sock_connect h host port ;;;
     modify (set_connected true) ;;;
     print ("Connected to iTach at " ++ host ++ ":" ++ py_str rt port) ;;;
     sock_send h ("getversion" ++ cr) ;;;
     raw <- sock_recv h ;;
     response <- lift (decode_utf8 raw) ;;
     print ("iTach version: " ++ response))
    (fun e =>
       emit (EvPrintExn "iTach connection failed: " e) ;;;
       modify (set_connected false) ;;;
       raise e).

(** The socket is closed but stays stored. *)
Definition disconnect : M unit :=
  st <- get ;;
  match socket st with
  | Some h => emit (EvClose h) ;;; modify (set_connected false)
  | None => ret tt
  end.

Definition connect_if_needed : M unit :=
  st <- get ;;
  if negb (connected st) then connect else ret tt.

Definition send_serial (data : pyvalue) : M string :=
  connect_if_needed ;;;
  try_except
    (h <- the_socket ;;
     payload <- lift (str_encode data) ;;
     sock_send h payload ;;;
     raw <- sock_recv h ;;
     lift (decode_utf8 raw))
    (fun e =>
       emit (EvPrintExn "iTach send error: " e) ;;;
       modify (set_connected false) ;;;
       raise e).

Definition send_ir (data : pyvalue) : M string :=
  connect_if_needed ;;;
  try_except
    (let command := "sendir," ++ py_str rt data ++ cr in
     h <- the_socket ;;
     sock_send h command ;;;
     raw <- sock_recv h ;;
     lift (decode_utf8 raw))
    (fun e => emit (EvPrintExn "iTach IR error: " e) ;;; raise e).

(** [handle_command(command, zone, value)]: the zone is not looked at. *)
Definition handle_command (command zone_name : string) (value : pyvalue) : M unit :=
  if command =? "send_serial" then send_serial value ;;; ret tt
  else if command =? "send_ir" then send_ir value ;;; ret tt
  else ret tt.

Definition handle_mqtt_message (topic payload : string) : M unit :=
  let parts := str_split "/" topic in
  if (4 <=? List.length parts)%nat
     && match nth_error parts 0 with
        | Some p => p =? "bridges"
        | None => false
        end
  then
    match nth_error parts 2 with
    | Some command =>
        if command =? "serial" then send_serial (VStr payload) ;;; ret tt
        else ret tt
    | None => raise IndexError
    end
  else ret tt.

(** The states a bridge object can be in. *)
Inductive reachable : bridge -> Prop :=
| reach_init cfg replies : reachable (init cfg replies)
| reach_connect st : reachable st -> reachable (snd (connect st))
| reach_disconnect st : reachable st -> reachable (snd (disconnect st))
| reach_send_serial st data :
    reachable st -> reachable (snd (send_serial data st))
| reach_send_ir st data :
    reachable st -> reachable (snd (send_ir data st))
| reach_command st command zone_name value :
    reachable st -> reachable (snd (handle_command command zone_name value st))
| reach_mqtt st topic payload :
    reachable st -> reachable (snd (handle_mqtt_message topic payload st)).

End WithRuntime.

(** *** Observations *)

(** The socket an event works on, for the events that need it open. *)
Definition used_handle (e : event) : option handle :=
  match e with
  | EvConnect h _ _ | EvSend h _ | EvRecv h => Some h
  | _ => None
  end.

Definition closes (e : event) : option handle :=
  match e with
  | EvClose h => Some h
  | _ => None
  end.

(** No event of the log uses a socket that an earlier event closed;
    [closed] holds the sockets closed before the log starts. *)
Fixpoint safe_from (closed : list handle) (events : list event) : Prop :=
  match events with
  | [] => True
  | e :: rest =>
      match used_handle e with
      | Some h => ~ In h closed
      | None => True
      end
      /\ safe_from (match closes e with
                    | Some h => h :: closed
                    | None => closed
                    end) rest
  end.

Definition safe (events : list event) : Prop := safe_from [] events.

(** The socket [h] has not been closed so far. *)
Definition live (h : handle) (st : bridge) : Prop := ~ In (EvClose h) (log st).

(** The configuration names a host: [config['connection']['host']]. *)
Definition host_of (st : bridge) : option string :=
  match Bose.cfg_connection (config st) with
  | Some c => Bose.conn_host c
  | None => None
  end.

(** What every state of a bridge object satisfies: the log is safe,
    sockets yet to be created are not closed, the stored socket has been
    created, and a connected bridge has a host configured and stores a
    socket that is still open. *)
Definition good (st : bridge) : Prop :=
  safe (log st)
  /\ (forall h, next_handle st <= h -> ~ In (EvClose h) (log st))
  /\ (forall h, socket st = Some h -> h < next_handle st)
  /\ (connected st = true -> exists h, socket st = Some h /\ live h st)
  /\ (connected st = true -> host_of st <> None).

(** [good], with a host configured and [h] the stored socket, still
    open; [marked b h] adds that the bridge is connected when [b] is set. *)
Definition good_at (h : handle) (st : bridge) : Prop :=
  good st /\ socket st = Some h /\ live h st /\ host_of st <> None.

Definition marked (b : bool) (h : handle) (st : bridge) : Prop :=
  good_at h st /\ (b = true -> connected st = true).

(** A computation keeps a property of the state, however it ends. *)
Definition keeps {A : Type} (P : bridge -> Prop) (m : M A) : Prop :=
  forall st, P st -> P (snd (m st)).

(** Hoare triples: from a state in [P], [m] ends in [Q] on a result and
    in [E] on an exception. *)
Definition triple {A : Type} (P : bridge -> Prop) (m : M A)
    (Q : A -> bridge -> Prop) (E : exn -> bridge -> Prop) : Prop :=
  forall st, P st ->
    match m st with
    | (Ok a, st') => Q a st'
    | (Raise e, st') => E e st'
    end.

(** The sends that reached a socket, in order. *)
Fixpoint sent (events : list event) : list string :=
  match events with
  | [] => []
  | EvSend _ data :: rest => data :: sent rest
  | _ :: rest => sent rest
  end.

(** A bridge in a good state that is marked connected, or not. *)
Definition up (st : bridge) : Prop := good st /\ connected st = true.
Definition down (st : bridge) : Prop := good st /\ connected st = false.


End ITachLink.

(* ------------------------------------------------------------------ *)
(** ** Further sample states *)

Module Scenarios.
Import PyStr PyNum Samples.

(** A serial instance, connected, whose next write fails. *)
Definition failing_write : Bose.instance :=
  snd (Bose.connect sample_runtime
         (Bose.init (config_with serial_connection [master_zone]) true
            [None; Some (OSError "write timeout")])).

(** A serial instance whose port cannot be opened. *)
Definition no_such_port : Bose.instance :=
  Bose.init (config_with serial_connection [master_zone]) true
    [Some (OSError "no such port")].

(** Two zones, the id of the second being the id of the first, an
    underscore and a word. *)
Definition main_zone : Bose.zone :=
  {| Bose.zone_id := Some "main"; Bose.zone_name := Some "Main";
     Bose.volume_module := Some "Main Volume"; Bose.mute_module := None;
     Bose.source_module := None |}.

Definition main_set_zone : Bose.zone :=
  {| Bose.zone_id := Some "main_set"; Bose.zone_name := Some "Main set";
     Bose.volume_module := Some "Zone 2 Volume"; Bose.mute_module := None;
     Bose.source_module := None |}.

(** A TCP instance after [connect()] and [disconnect()]. *)
Definition hung_up : Bose.instance :=
  snd (Bose.disconnect (connected tcp_connection [master_zone])).

(** The configuration of an iTach reached at its default port. *)
Definition itach_connection : Bose.connection :=
  {| Bose.conn_type := None; Bose.conn_port := None;
     Bose.conn_host := Some "192.168.1.70"; Bose.conn_baudrate := None;
     Bose.conn_bridge_id := None |}.

(** A bridge object before any call, and after a first [connect()]. *)
Definition fresh_link (replies : list ITachLink.reply) : ITachLink.bridge :=
  ITachLink.init (config_with itach_connection []) replies.

Definition linked (replies : list ITachLink.reply) : ITachLink.bridge :=
  snd (ITachLink.connect sample_runtime (fresh_link replies)).

(** A peer that answers a connection, the version request and one
    command. *)
Definition answering : list ITachLink.reply :=
  [ITachLink.Done ""; ITachLink.Done ""; ITachLink.Done "710-1001-05";
   ITachLink.Done ""; ITachLink.Done "ok"].

(** A link that was closed and sent on again. *)
Definition relinked : ITachLink.bridge :=
  snd (ITachLink.send_serial sample_runtime (VStr "PWR")
         (snd (ITachLink.disconnect (linked [])))).

End Scenarios.

(* ------------------------------------------------------------------ *)

(** * Properties *)

(** ** Strings *)

Section StringFacts.
Import PyStr.

Lemma str_app_assoc (a b c : string) : (a ++ b) ++ c = a ++ b ++ c.
Proof. induction a as [|x a IH]; simpl; [reflexivity | now rewrite IH]. Qed.

Lemma prefix_cons (c d : ascii) (p s : string) :
  prefix (String c p) (String d s) = Ascii.eqb c d && prefix p s.
Proof.
  simpl. destruct (ascii_dec c d) as [->|Hne].
  - now rewrite Ascii.eqb_refl.
  - apply Ascii.eqb_neq in Hne. now rewrite Hne.
Qed.

Lemma prefix_app (p s : string) : prefix p (p ++ s) = true.
Proof.
  induction p as [|c p IH]; simpl.
  - now destruct s.
  - destruct (ascii_dec c c); [exact IH | congruence].
Qed.





(** A one-character pattern is found in a concatenation exactly when it is
    found in one of the two parts. *)
Lemma str_contains_char_app (c : ascii) (a b : string) :
  str_contains (String c "") (a ++ b)
  = str_contains (String c "") a || str_contains (String c "") b.
Proof.
  induction a as [|d a IH]; simpl.
  - destruct b; reflexivity.
  - rewrite IH. destruct (ascii_dec c d); simpl.
    + now destruct (a ++ b), a.
    + reflexivity.
Qed.

Lemma str_contains_char_cons (c d : ascii) (s : string) :
  str_contains (String c "") (String d s)
  = Ascii.eqb d c || str_contains (String c "") s.
Proof.
  simpl. destruct (ascii_dec c d) as [->|Hne].
  - rewrite Ascii.eqb_refl. now destruct s.
  - assert (Ascii.eqb d c = false) as -> by (apply Ascii.eqb_neq; congruence).
    reflexivity.
Qed.

(** *** Splitting *)

Lemma str_splitn_no_sep (n : nat) (sep : ascii) (s : string) :
  str_contains (String sep "") s = false -> str_splitn n sep s = [s].
Proof.
  induction s as [|c s IH]; intros H; [reflexivity|].
  rewrite str_contains_char_cons in H. apply orb_false_iff in H as [Hc Hs].
  simpl. destruct n; [reflexivity|]. rewrite Hc, (IH Hs). reflexivity.
Qed.

(** Splitting once yields the text before the first separator, which holds
    no separator, and everything after it. *)
Lemma str_splitn_once (sep : ascii) (s : string) :
  str_contains (String sep "") s = true ->
  exists a b, str_splitn 1 sep s = [a; b]
              /\ s = a ++ String sep b
              /\ str_contains (String sep "") a = false.
Proof.
  induction s as [|c s IH]; intros H; [discriminate|].
  rewrite str_contains_char_cons in H. simpl.
  destruct (Ascii.eqb c sep) eqn:Hc.
  - apply Ascii.eqb_eq in Hc as ->. exists "", s. repeat split.
    now destruct s.
  - simpl in H. destruct (IH H) as (a & b & Hs & -> & Ha).
    exists (String c a), b. rewrite Hs. repeat split.
    rewrite str_contains_char_cons, Hc, Ha. reflexivity.
Qed.

Lemma str_splitn_once_inv (sep : ascii) (s a b : string) :
  str_splitn 1 sep s = [a; b] ->
  s = a ++ String sep b /\ str_contains (String sep "") a = false.
Proof.
  intros H. destruct (str_contains (String sep "") s) eqn:Hs.
  - destruct (str_splitn_once _ _ Hs) as (a' & b' & H' & ? & ?).
    rewrite H in H'. injection H' as Ha Hb. subst a' b'. now split.
  - rewrite (str_splitn_no_sep _ _ _ Hs) in H. discriminate.
Qed.

Lemma str_splitn_once_app (sep : ascii) (a b : string) :
  str_contains (String sep "") a = false ->
  str_splitn 1 sep (a ++ String sep b) = [a; b].
Proof.
  induction a as [|c a IH]; intros H; simpl.
  - rewrite Ascii.eqb_refl. now destruct b.
  - rewrite str_contains_char_cons in H. apply orb_false_iff in H as [Hc Ha].
    rewrite Hc, (IH Ha). reflexivity.
Qed.

Lemma str_split_nonempty (sep : ascii) (s : string) : str_split sep s <> [].
Proof.
  destruct s as [|c s]; simpl; [discriminate|].
  destruct (Ascii.eqb c sep); [discriminate|].
  destruct (str_split sep s); discriminate.
Qed.


(** Splitting a text around one more separator splits each side. *)
Lemma str_split_app (sep : ascii) (a b : string) :
  str_split sep (a ++ String sep b) = (str_split sep a ++ str_split sep b)%list.
Proof.
  induction a as [|c a IH]; simpl.
  - now rewrite Ascii.eqb_refl.
  - rewrite IH. destruct (Ascii.eqb c sep); [reflexivity|].
    destruct (str_split sep a) as [|x l] eqn:E; [|reflexivity].
    now apply str_split_nonempty in E.
Qed.

(** *** Replacing *)

Lemma replace_no_open (a b : string) :
  str_contains "<" a = false ->
  str_replace "<CR>" cr (a ++ b) = a ++ str_replace "<CR>" cr b.
Proof.
  unfold str_replace. induction a as [|c a IH]; intros H; [reflexivity|].
  rewrite str_contains_char_cons in H. apply orb_false_iff in H as [Hc Ha].
  change (String c a ++ b) with (String c (a ++ b)).
  cbn [replace_from]. rewrite prefix_cons.
  assert (Ascii.eqb "<" c = false) as ->.
  { rewrite Ascii.eqb_sym. exact Hc. }
  simpl andb. cbv iota. rewrite (IH Ha). reflexivity.
Qed.

Lemma replace_placeholder : str_replace "<CR>" cr "<CR>" = cr.
Proof. reflexivity. Qed.

End StringFacts.

Section FloatFacts.
Import PyNum.

Lemma scaled_shift (neg : bool) (m : N) (e e0 e1 : Z) :
  (e1 <= e0 <= e)%Z ->
  scaled neg m e e1 = (scaled neg m e e0 * 2 ^ (e0 - e1))%Z.
Proof.
  intros H. unfold scaled, signed.
  replace (e - e1)%Z with ((e - e0) + (e0 - e1))%Z by lia.
  rewrite Z.pow_add_r by lia. destruct neg; ring.
Qed.

(** Comparing two finite floats does not depend on the common unit. *)
Lemma scaled_ltb (nx ny : bool) (mx my : N) (ex ey e1 : Z) :
  (e1 <= Z.min ex ey)%Z ->
  (scaled nx mx ex (Z.min ex ey) <? scaled ny my ey (Z.min ex ey))%Z
  = (scaled nx mx ex e1 <? scaled ny my ey e1)%Z.
Proof.
  intros H.
  rewrite (scaled_shift nx mx ex (Z.min ex ey) e1) by lia.
  rewrite (scaled_shift ny my ey (Z.min ex ey) e1) by lia.
  assert (0 < 2 ^ (Z.min ex ey - e1))%Z by (apply Z.pow_pos_nonneg; lia).
  destruct (Z.ltb_spec (scaled nx mx ex (Z.min ex ey)) (scaled ny my ey (Z.min ex ey)));
    symmetry; [apply Z.ltb_lt | apply Z.ltb_ge]; nia.
Qed.

Lemma scaled_eqb (nx ny : bool) (mx my : N) (ex ey e1 : Z) :
  (e1 <= Z.min ex ey)%Z ->
  (scaled nx mx ex (Z.min ex ey) =? scaled ny my ey (Z.min ex ey))%Z
  = (scaled nx mx ex e1 =? scaled ny my ey e1)%Z.
Proof.
  intros H.
  rewrite (scaled_shift nx mx ex (Z.min ex ey) e1) by lia.
  rewrite (scaled_shift ny my ey (Z.min ex ey) e1) by lia.
  assert (0 < 2 ^ (Z.min ex ey - e1))%Z by (apply Z.pow_pos_nonneg; lia).
  destruct (Z.eqb_spec (scaled nx mx ex (Z.min ex ey)) (scaled ny my ey (Z.min ex ey)));
    symmetry; [apply Z.eqb_eq | apply Z.eqb_neq]; nia.
Qed.

Lemma flt_lt_trans (x y z : pyfloat) :
  flt_lt x y = true -> flt_lt y z = true -> flt_lt x z = true.
Proof.
  destruct x as [nx mx ex|nx|], y as [ny my ey|ny|], z as [nz mz ez|nz|];
    simpl; try congruence;
    try (destruct nx, ny; simpl; congruence);
    try (destruct ny, nz; simpl; congruence);
    try (destruct nx, nz; simpl; congruence);
    try (destruct nx, ny, nz; simpl; congruence).
  set (e1 := Z.min ex (Z.min ey ez)).
  rewrite (scaled_ltb nx ny mx my ex ey e1) by (unfold e1; lia).
  rewrite (scaled_ltb ny nz my mz ey ez e1) by (unfold e1; lia).
  rewrite (scaled_ltb nx nz mx mz ex ez e1) by (unfold e1; lia).
  rewrite !Z.ltb_lt. lia.
Qed.

Lemma flt_lt_asym (x y : pyfloat) : flt_lt x y = true -> flt_lt y x = false.
Proof.
  destruct x as [nx mx ex|nx|], y as [ny my ey|ny|]; simpl; try congruence;
    try (destruct nx; simpl; congruence);
    try (destruct ny; simpl; congruence);
    try (destruct nx, ny; simpl; congruence).
  rewrite (Z.min_comm ey ex), Z.ltb_lt, Z.ltb_ge. lia.
Qed.

Lemma flt_eq_sym (x y : pyfloat) : flt_eq x y = flt_eq y x.
Proof.
  destruct x as [nx mx ex|nx|], y as [ny my ey|ny|]; simpl; try reflexivity.
  - rewrite (Z.min_comm ey ex). apply Z.eqb_sym.
  - now destruct nx, ny.
Qed.

(** A float that compares below something is equal to itself: it is not a
    NaN. *)
Lemma flt_lt_eq_refl (x y : pyfloat) : flt_lt x y = true -> flt_eq x x = true.
Proof.
  destruct x as [nx mx ex|nx|]; simpl; intros H.
  - apply Z.eqb_refl.
  - now destruct nx.
  - discriminate.
Qed.

End FloatFacts.

(** ** The transport of the Bose integration *)

Section TransportFacts.
Import PyStr PyNum Bose.
Variable rt : runtime.

Lemma device_io_add_print (msg : string) (st : instance) :
  device_io (add_event (EvPrint msg) st) = device_io st.
Proof.
  unfold device_io. simpl. rewrite filter_app. simpl. apply app_nil_r.
Qed.

Lemma publications_add_print (msg : string) (st : instance) :
  publications (add_event (EvPrint msg) st) = publications st.
Proof.
  unfold publications. simpl. rewrite filter_app. simpl. apply app_nil_r.
Qed.

(** Once the attributes exist, [send_command] never calls [connect]: what
    it does is decided by the stored handles alone. *)
Lemma send_command_skips_connect (cmd : string) (st : instance) :
  hasattr (serial_conn st) || hasattr (writer st) = true ->
  send_command rt cmd st =
  (let data := str_replace "<CR>" cr cmd in
   let conn_type := connection_type st in
   match (if (conn_type =? "serial") && hasattr (serial_conn st)
          then truthy (serial_conn st) else None) with
   | Some h => serial_write h data
   | None =>
       match (if (conn_type =? "tcp") && hasattr (writer st)
              then truthy (writer st) else None) with
       | Some h => stream_write h data ;;; stream_drain h
       | None =>
           if conn_type =? "bridge" then
             if mqtt_client st then
               c <- config_connection ;;
               bridge_id <- lift (dict_item "bridge_id" (conn_bridge_id c)) ;;
               mqtt_publish ("bridges/" ++ bridge_id ++ "/command") data
             else ret tt
           else ret tt
       end
   end) st.
Proof.
  intros H. unfold send_command.
  unfold bind at 1. unfold get at 1. cbv beta iota.
  assert (negb (hasattr (serial_conn st)) && negb (hasattr (writer st)) = false) as ->.
  { destruct (hasattr (serial_conn st)), (hasattr (writer st)); simpl in *; congruence. }
  reflexivity.
Qed.

(** With both handles stored as [None], a serial or TCP instance sends
    nothing and opens nothing. *)
Lemma send_command_disconnected (cmd : string) (st : instance) :
  serial_conn st = Some None -> writer st = Some None ->
  connection_type st <> "bridge" ->
  send_command rt cmd st = (Ok tt, st).
Proof.
  intros Hs Hw Hb. rewrite send_command_skips_connect by (rewrite Hs; reflexivity).
  rewrite Hs, Hw. simpl.
  apply String.eqb_neq in Hb. rewrite Hb.
  destruct (connection_type st =? "serial"), (connection_type st =? "tcp"); reflexivity.
Qed.

Lemma send_command_serial (cmd : string) (st : instance) (h : handle) :
  connection_type st = "serial" -> serial_conn st = Some (Some h) ->
  send_command rt cmd st = serial_write h (str_replace "<CR>" cr cmd) st.
Proof.
  intros Ht Hs. rewrite send_command_skips_connect by (rewrite Hs; reflexivity).
  rewrite Ht, Hs. reflexivity.
Qed.

Lemma send_command_tcp (cmd : string) (st : instance) (h : handle) :
  connection_type st = "tcp" -> writer st = Some (Some h) ->
  send_command rt cmd st
  = (stream_write h (str_replace "<CR>" cr cmd) ;;; stream_drain h) st.
Proof.
  intros Ht Hw. rewrite send_command_skips_connect
    by (rewrite Hw; apply orb_true_r).
  rewrite Ht, Hw. reflexivity.
Qed.

Lemma send_command_bridge (cmd : string) (st : instance) (c : connection)
    (bridge_id : string) :
  connection_type st = "bridge" ->
  hasattr (serial_conn st) || hasattr (writer st) = true ->
  mqtt_client st = true ->
  cfg_connection (config st) = Some c -> conn_bridge_id c = Some bridge_id ->
  send_command rt cmd st
  = mqtt_publish ("bridges/" ++ bridge_id ++ "/command") (str_replace "<CR>" cr cmd) st.
Proof.
  intros Ht Ha Hm Hc Hb. rewrite send_command_skips_connect by exact Ha.
  rewrite Ht, Hm. simpl.
  unfold bind, config_connection, bind, get, lift. rewrite Hc. simpl.
  rewrite Hb. reflexivity.
Qed.

Lemma serial_write_ok (h : handle) (data : string) (st : instance) :
  io_script st = [] ->
  serial_write h data st = (Ok tt, add_event (EvSerialWrite h data) st).
Proof.
  intros H. unfold serial_write, bind, emit, modify, next_outcome. simpl.
  rewrite H. reflexivity.
Qed.

Lemma stream_send_ok (h : handle) (data : string) (st : instance) :
  io_script st = [] ->
  (stream_write h data ;;; stream_drain h) st
  = (Ok tt, add_event (EvTcpDrain h) (add_event (EvTcpWrite h data) st)).
Proof.
  intros H. unfold stream_write, stream_drain, bind, emit, modify, next_outcome.
  simpl. rewrite H. reflexivity.
Qed.

End TransportFacts.

(** ** Dispatch of link commands *)

Section DispatchFacts.
Import PyStr PyNum Bose.
Variable rt : runtime.

Lemma handle_link_command_no_separator (link_id : string) (value : pyvalue)
    (st : instance) :
  str_contains "_" link_id = false ->
  handle_link_command rt link_id value st
  = (Ok tt, add_event (EvPrint ("Invalid link_id format: " ++ link_id)) st).
Proof.
  intros H. unfold handle_link_command.
  rewrite (str_splitn_no_sep 1 "_" link_id H). reflexivity.
Qed.

Lemma handle_link_command_no_zone (link_id zid command : string)
    (value : pyvalue) (st : instance) :
  str_splitn 1 "_" link_id = [zid; command] ->
  get_zone_config st zid = None ->
  handle_link_command rt link_id value st
  = (Ok tt, add_event (EvPrint ("Zone not found: " ++ zid)) st).
Proof.
  intros Hs Hz. unfold handle_link_command. rewrite Hs.
  unfold bind, get. rewrite Hz. reflexivity.
Qed.

Lemma not_alias (command : string) :
  ~ In command command_aliases ->
  (command =? "volume") || (command =? "set_volume") = false
  /\ (command =? "mute") || (command =? "toggle_mute") = false
  /\ (command =? "source") || (command =? "set_source") = false.
Proof.
  intros H. unfold command_aliases in H. simpl in H.
  repeat split; apply orb_false_iff; split; apply String.eqb_neq;
    intros ->; apply H; tauto.
Qed.

Lemma handle_link_command_no_alias (link_id zid command : string)
    (value : pyvalue) (st : instance) :
  str_splitn 1 "_" link_id = [zid; command] ->
  ~ In command command_aliases ->
  handle_link_command rt link_id value st
  = (Ok tt, st)
  \/ handle_link_command rt link_id value st
     = (Ok tt, add_event (EvPrint ("Zone not found: " ++ zid)) st).
Proof.
  intros Hs Ha. destruct (get_zone_config st zid) as [z|] eqn:Hz.
  - left. unfold handle_link_command. rewrite Hs. unfold bind at 1, get at 1.
    rewrite Hz. destruct (not_alias _ Ha) as (-> & -> & ->). reflexivity.
  - right. now apply handle_link_command_no_zone with (command := command).
Qed.

(** The zone found for an id carries that id. *)
Lemma find_zone_id (zones : list zone) (zid : string) (z : zone) :
  find_zone zones zid = Some z -> zone_id z = Some zid.
Proof.
  induction zones as [|z0 zones IH]; simpl; [discriminate|].
  destruct (zone_id z0) as [i|] eqn:Hi; [|exact IH].
  destruct (i =? zid) eqn:He; [|exact IH].
  intros H. injection H as <-. apply String.eqb_eq in He. now subst.
Qed.

(** The zone part of a link id is looked up as it stands; it never holds
    an underscore. *)
Lemma routed_zone_id (st : instance) (link_id : string) (z : zone) :
  routed_zone st link_id = Some z ->
  exists zid command,
    str_splitn 1 "_" link_id = [zid; command]
    /\ zone_id z = Some zid
    /\ str_contains "_" zid = false.
Proof.
  unfold routed_zone. intros H.
  destruct (str_splitn 1 "_" link_id) as [|zid [|command [|x l]]] eqn:Hs;
    try discriminate.
  exists zid, command. split; [reflexivity|]. split.
  - now apply find_zone_id with (zones := dict_get (cfg_zones (config st)) []).
  - now destruct (str_splitn_once_inv _ _ _ _ Hs).
Qed.

Lemma routed_zone_none (st : instance) (link_id : string) (value : pyvalue) :
  routed_zone st link_id = None ->
  exists msg,
    handle_link_command rt link_id value st = (Ok tt, add_event (EvPrint msg) st).
Proof.
  unfold routed_zone. intros H.
  destruct (str_contains "_" link_id) eqn:Hc.
  - destruct (str_splitn_once _ _ Hc) as (a & b & Hs & _ & _).
    rewrite Hs in H. eexists.
    now apply handle_link_command_no_zone with (zid := a) (command := b).
  - eexists. now apply handle_link_command_no_separator.
Qed.

(** When a zone is found, the command is dispatched on that zone. *)
Lemma handle_link_command_routed (link_id zid command : string)
    (value : pyvalue) (st : instance) (z : zone) :
  str_splitn 1 "_" link_id = [zid; command] ->
  routed_zone st link_id = Some z ->
  handle_link_command rt link_id value st
  = (if (command =? "volume") || (command =? "set_volume") then
       level <- lift (py_float rt value) ;;
       _cmd_set_volume rt zid (dict_get (volume_module z) "Main Volume") level
     else if (command =? "mute") || (command =? "toggle_mute") then
       _cmd_toggle_mute rt zid (dict_get (mute_module z) "Main Volume") (py_bool value)
     else if (command =? "source") || (command =? "set_source") then
       n <- lift (py_int rt value) ;;
       _cmd_set_source rt zid (dict_get (source_module z) "Selector 1") n
     else ret tt) st.
Proof.
  intros Hs Hz. unfold routed_zone in Hz. rewrite Hs in Hz.
  unfold handle_link_command. rewrite Hs. unfold bind at 1, get at 1.
  rewrite Hz. reflexivity.
Qed.

End DispatchFacts.

(** ** Invariants of the instance *)

Section InstanceInvariants.
Import PyStr PyNum Bose.
Variable rt : runtime.

Lemma preserves_ret {A : Type} (P : instance -> Prop) (a : A) : preserves P (ret a).
Proof. now intros st H. Qed.

Lemma preserves_raise {A : Type} (P : instance -> Prop) (e : exn) :
  preserves P (@raise A e).
Proof. now intros st H. Qed.

Lemma preserves_lift {A : Type} (P : instance -> Prop) (r : result A) :
  preserves P (lift r).
Proof. now intros st H. Qed.

Lemma preserves_get (P : instance -> Prop) : preserves P get.
Proof. now intros st H. Qed.

Lemma preserves_bind {A B : Type} (P : instance -> Prop) (m : M A) (k : A -> M B) :
  preserves P m -> (forall a, preserves P (k a)) -> preserves P (bind m k).
Proof.
  intros Hm Hk st H. unfold bind. specialize (Hm st H).
  destruct (m st) as [[a|e] st']; simpl in *; [now apply Hk | exact Hm].
Qed.

Lemma preserves_try {A : Type} (P : instance -> Prop) (m : M A) (h : exn -> M A) :
  preserves P m -> (forall e, preserves P (h e)) -> preserves P (try_except m h).
Proof.
  intros Hm Hh st H. unfold try_except. specialize (Hm st H).
  destruct (m st) as [[a|e] st']; simpl in *; [exact Hm | now apply Hh].
Qed.

Lemma preserves_if {A : Type} (P : instance -> Prop) (b : bool) (m1 m2 : M A) :
  preserves P m1 -> preserves P m2 -> preserves P (if b then m1 else m2).
Proof. now destruct b. Qed.

Lemma attrs_emit (e : event) : preserves attrs_set (emit e).
Proof. now intros st H. Qed.

Lemma attrs_next_outcome : preserves attrs_set next_outcome.
Proof.
  intros st H. unfold next_outcome.
  destruct (io_script st) as [|[msg|] rest]; exact H.
Qed.

Lemma attrs_fresh_handle : preserves attrs_set fresh_handle.
Proof. now intros st H. Qed.

Lemma attrs_set_serial (h : option handle) :
  preserves attrs_set (modify (set_serial_conn (Some h))).
Proof. intros st (_ & Hr & Hw). now repeat split. Qed.

Lemma attrs_set_stream (r w : option handle) :
  preserves attrs_set (modify (set_stream (Some r) (Some w))).
Proof. intros st (Hs & _ & _). now repeat split. Qed.

Create HintDb preserve.
#[local] Hint Resolve preserves_ret preserves_raise preserves_lift preserves_get
  preserves_bind preserves_try preserves_if attrs_emit attrs_next_outcome
  attrs_fresh_handle attrs_set_serial attrs_set_stream : preserve.

Ltac preserve :=
  repeat first
    [ apply preserves_bind; [|intros ?]
    | apply preserves_try; [|intros ?]
    | apply preserves_if
    | match goal with
      | |- preserves _ (match ?x with _ => _ end) => destruct x
      end
    | solve [auto with preserve] ].

Lemma attrs_connect : preserves attrs_set (connect rt).
Proof.
  unfold connect, _connect_serial, _connect_tcp, config_connection,
    serial_Serial, open_connection, print.
  preserve.
Qed.

Lemma attrs_disconnect : preserves attrs_set disconnect.
Proof. unfold disconnect. preserve. Qed.

Lemma attrs_send_command (cmd : string) : preserves attrs_set (send_command rt cmd).
Proof.
  unfold send_command, serial_write, stream_write, stream_drain, mqtt_publish,
    config_connection.
  pose proof attrs_connect.
  preserve.
Qed.

Lemma attrs_handle_link_command (link_id : string) (value : pyvalue) :
  preserves attrs_set (handle_link_command rt link_id value).
Proof.
  unfold handle_link_command, _cmd_set_volume, _cmd_toggle_mute, _cmd_set_source,
    publish_state, print.
  pose proof attrs_send_command.
  preserve.
Qed.

(** Every state an instance can reach has its transport attributes. *)
Lemma reachable_attrs_set (st : instance) : reachable rt st -> attrs_set st.
Proof.
  induction 1 as [cfg mqtt script | st _ IH | st _ IH | st cmd _ IH
                 | st link_id value _ IH | st command zone_name value _ IH].
  - now repeat split.
  - now apply attrs_connect.
  - now apply attrs_disconnect.
  - now apply attrs_send_command.
  - now apply attrs_handle_link_command.
  - now apply attrs_handle_link_command.
Qed.

(** X2.  On every reachable instance that is Disconnected and configured for a
    serial port or a TCP stream, [send_command] does nothing at all: the
    guard that should reconnect tests for attributes that always exist. *)
Theorem lazy_connect_never_runs (st : instance) (cmd : string) :
  reachable rt st ->
  connection_type st <> "bridge" ->
  transport_of st = Disconnected ->
  send_command rt cmd st = (Ok tt, st).
Proof.
  intros Hr Hb Ht. destruct (reachable_attrs_set st Hr) as (Hs & _ & Hw).
  apply send_command_disconnected; [| |exact Hb].
  - unfold transport_of, truthy in Ht.
    destruct (serial_conn st) as [[h|]|]; simpl in Hs;
      [discriminate Ht | reflexivity | discriminate Hs].
  - unfold transport_of, truthy in Ht.
    destruct (writer st) as [[h|]|]; simpl in Hw;
      [ destruct (serial_conn st) as [[h'|]|]; discriminate Ht
      | reflexivity | discriminate Hw ].
Qed.

End InstanceInvariants.

Lemma lazy_connect_never_runs_witness :
  Bose.send_command Samples.sample_runtime Samples.master_minus_ten
    (snd (Bose.disconnect
            (Samples.connected Samples.tcp_connection [Samples.master_zone])))
  = (Ok tt,
     snd (Bose.disconnect
            (Samples.connected Samples.tcp_connection [Samples.master_zone]))).
Proof.
  apply lazy_connect_never_runs.
  - apply Bose.reach_disconnect. apply Bose.reach_connect. apply Bose.reach_init.
  - discriminate.
  - reflexivity.
Defined.

(** ** Specified behaviour of the Bose integration *)

Section BoseSpec.
Import PyStr PyNum Bose Samples.

(** C1, as the code behaves at the failing input.  A serial instance is
    connected, disconnected, then asked to send a command: the instance is
    Disconnected after [disconnect()], but [send_command] neither reopens
    the port nor writes.  The device sees one open and one close, and the
    final state is the disconnected one. *)
Theorem send_after_disconnect_writes_nothing :
  let st1 := connected serial_connection [master_zone] in
  let st2 := snd (disconnect st1) in
  transport_of st1 = Connected 0
  /\ transport_of st2 = Disconnected
  /\ send_command sample_runtime master_minus_ten st2 = (Ok tt, st2)
  /\ device_io st2
     = [EvSerialOpen (VStr "/dev/ttyUSB0") 9600; EvSerialClose 0].
Proof. repeat split. Qed.

(** With a zone [master] bound to the module Main Volume, the link
    command [master_set_volume] at -10 calls [send_command] once, with the
    text SA, the quoted module name, [>1>-10.0] and the placeholder, and
    then publishes (master, volume, -10.0).  On an open serial port, or an
    open TCP stream, whose write succeeds this is one write on the wire,
    ending in the carriage return, followed by one publication. *)
Lemma master_set_volume_sends_once (rt : runtime) (st : instance) (z : zone) :
  get_zone_config st "master" = Some z ->
  volume_module z = Some "Main Volume" ->
  handle_link_command rt "master_set_volume" (VInt (-10)) st
  = (send_command rt ("SA" ++ dquote ++ "Main Volume" ++ dquote ++ ">1>-10.0<CR>") ;;;
     publish_state "master" "volume" (VFloat (FFin true 10 0))) st
  /\ (forall h,
        connection_type st = "serial" -> serial_conn st = Some (Some h) ->
        io_script st = [] ->
        handle_link_command rt "master_set_volume" (VInt (-10)) st
        = (Ok tt,
           add_event (EvPublishState "master" "volume" (VFloat (FFin true 10 0)))
             (add_event
                (EvSerialWrite h
                   ("SA" ++ dquote ++ "Main Volume" ++ dquote ++ ">1>-10.0" ++ cr))
                st)))
  /\ (forall h,
        connection_type st = "tcp" -> writer st = Some (Some h) ->
        io_script st = [] ->
        handle_link_command rt "master_set_volume" (VInt (-10)) st
        = (Ok tt,
           add_event (EvPublishState "master" "volume" (VFloat (FFin true 10 0)))
             (add_event (EvTcpDrain h)
                (add_event
                   (EvTcpWrite h
                      ("SA" ++ dquote ++ "Main Volume" ++ dquote ++ ">1>-10.0" ++ cr))
                   st)))).
Proof.
  intros Hz Hm.
  assert (handle_link_command rt "master_set_volume" (VInt (-10)) st
          = (send_command rt ("SA" ++ dquote ++ "Main Volume" ++ dquote ++ ">1>-10.0<CR>") ;;;
             publish_state "master" "volume" (VFloat (FFin true 10 0))) st) as E.
  { rewrite (handle_link_command_routed rt "master_set_volume" "master" "set_volume"
               (VInt (-10)) st z eq_refl)
      by (unfold routed_zone; exact Hz).
    rewrite Hm. reflexivity. }
  split; [exact E|]. split.
  - intros h Ht Hs Hio. rewrite E. unfold bind at 1.
    rewrite (send_command_serial rt _ st h Ht Hs), (serial_write_ok h _ st Hio).
    reflexivity.
  - intros h Ht Hw Hio. rewrite E. unfold bind at 1.
    rewrite (send_command_tcp rt _ st h Ht Hw), (stream_send_ok h _ st Hio).
    reflexivity.
Qed.

Lemma master_set_volume_sends_once_witness :
  let st := connected serial_connection [master_zone] in
  publications (snd (handle_link_command sample_runtime "master_set_volume" (VInt (-10)) st))
  = [EvPublishState "master" "volume" (VFloat (FFin true 10 0))].
Proof.
  cbv zeta.
  destruct (master_set_volume_sends_once sample_runtime
              (connected serial_connection [master_zone]) master_zone
              eq_refl eq_refl) as (_ & H & _).
  rewrite (H 0%nat eq_refl eq_refl eq_refl). reflexivity.
Defined.

(** C3, as the code behaves at the failing input.  The zone [master] is
    configured with the module Main Volume, for a serial port or for a
    TCP stream, and the instance is as [__init__] leaves it: the link
    command [master_set_volume] at -10 returns without an exception,
    nothing is written and nothing reaches the device, and
    (master, volume, -10.0) is published all the same.  The same call
    after [connect()] writes the text once, ending in the carriage
    return, and then publishes. *)
Theorem master_set_volume_unsent_before_connect (rt : runtime) :
  let level := VFloat (FFin true 10 0) in
  let text := "SA" ++ dquote ++ "Main Volume" ++ dquote ++ ">1>-10.0" ++ cr in
  (let st := fresh serial_connection [master_zone] in
   handle_link_command rt "master_set_volume" (VInt (-10)) st
   = (Ok tt, add_event (EvPublishState "master" "volume" level) st)
   /\ device_io (snd (handle_link_command rt "master_set_volume" (VInt (-10)) st)) = []
   /\ publications (snd (handle_link_command rt "master_set_volume" (VInt (-10)) st))
      = [EvPublishState "master" "volume" level])
  /\ (let st := fresh tcp_connection [master_zone] in
      handle_link_command rt "master_set_volume" (VInt (-10)) st
      = (Ok tt, add_event (EvPublishState "master" "volume" level) st)
      /\ device_io (snd (handle_link_command rt "master_set_volume" (VInt (-10)) st)) = []
      /\ publications (snd (handle_link_command rt "master_set_volume" (VInt (-10)) st))
         = [EvPublishState "master" "volume" level])
  /\ (let st := snd (connect rt (fresh serial_connection [master_zone])) in
      device_io (snd (handle_link_command rt "master_set_volume" (VInt (-10)) st))
      = [EvSerialOpen (VStr "/dev/ttyUSB0") 9600; EvSerialWrite 0 text]
      /\ publications (snd (handle_link_command rt "master_set_volume" (VInt (-10)) st))
         = [EvPublishState "master" "volume" level]).
Proof. repeat split. Qed.

(** C4, counterexample.  The link id [_volume] splits into an empty zone
    part and the command [volume]: not two non-empty parts.  With a zone
    whose id is the empty string configured and the serial port open, the
    command is written to the device all the same. *)
Lemma empty_zone_part_reaches_device :
  let st := connected serial_connection [unnamed_zone] in
  str_splitn 1 "_" "_volume" = [""; "volume"]
  /\ device_io (snd (handle_link_command sample_runtime "_volume" (VInt 0) st))
     = (device_io st
        ++ [EvSerialWrite 0 ("SA" ++ dquote ++ "Main Volume" ++ dquote ++ ">1>0.0" ++ cr)])%list.
Proof. split; reflexivity. Qed.

(** C4, amended.  A link id without any underscore, a link id whose zone
    part (the text before the first underscore, empty or not) matches no
    configured zone, and a link id whose command part is none of the six
    aliases: each leaves the call without an exception, without device
    I/O, without a publication and with the transport as it was. *)
Theorem unroutable_link_is_silent (rt : runtime) (st : instance)
    (link_id : string) (value : pyvalue) :
  str_contains "_" link_id = false
  \/ (exists zid command,
        str_splitn 1 "_" link_id = [zid; command]
        /\ (get_zone_config st zid = None \/ ~ In command command_aliases)) ->
  exists st',
    handle_link_command rt link_id value st = (Ok tt, st')
    /\ device_io st' = device_io st
    /\ publications st' = publications st
    /\ transport_of st' = transport_of st.
Proof.
  intros [H | (zid & command & Hs & [Hz | Ha])].
  - eexists. split; [now apply handle_link_command_no_separator|].
    now rewrite device_io_add_print, publications_add_print.
  - eexists. split; [now apply handle_link_command_no_zone with (zid := zid) (command := command)|].
    now rewrite device_io_add_print, publications_add_print.
  - destruct (handle_link_command_no_alias rt link_id zid command value st Hs Ha)
      as [E | E]; eexists; (split; [exact E|]).
    + repeat split.
    + now rewrite device_io_add_print, publications_add_print.
Qed.

Lemma unroutable_link_is_silent_witness :
  exists st',
    handle_link_command sample_runtime "masterzone" (VFloat (FFin false 1 (-1)))
      (connected serial_connection [master_zone]) = (Ok tt, st')
    /\ device_io st' = device_io (connected serial_connection [master_zone])
    /\ publications st' = publications (connected serial_connection [master_zone])
    /\ transport_of st' = transport_of (connected serial_connection [master_zone]).
Proof.
  apply (unroutable_link_is_silent sample_runtime
           (connected serial_connection [master_zone]) "masterzone").
  left. reflexivity.
Defined.

(** C5.  Volume: a level below -60.5 is replaced by the literal -60.5, a
    level above 12.0 by the literal 12.0, and a level within the range
    passes through ([clamp(x) == x], and the very same float strictly
    inside); the two bounds are rendered as -60.5 and 12.0, and the
    command is built from the clamped level.  Source: a number below 1
    becomes 1, above 16 becomes 16, within the range stays; 0 gives 1 and
    99 gives 16. *)
Theorem clamp_before_encoding (rt : runtime) :
  (forall x, flt_lt x volume_min = true -> clamp_volume x = volume_min)
  /\ (forall x, flt_lt volume_max x = true -> clamp_volume x = volume_max)
  /\ (forall x, flt_le volume_min x = true -> flt_le x volume_max = true ->
                flt_eq (clamp_volume x) x = true)
  /\ (forall x, flt_lt volume_min x = true -> flt_lt x volume_max = true ->
                clamp_volume x = x)
  /\ float_repr rt volume_min = "-60.5"
  /\ float_repr rt volume_max = "12.0"
  /\ (forall zid m x st,
        _cmd_set_volume rt zid m x st
        = (send_command rt (sa_command m "1" (float_repr rt (clamp_volume x))) ;;;
           publish_state zid "volume" (VFloat (clamp_volume x))) st)
  /\ (forall n, (n < 1)%Z -> clamp_source n = 1%Z)
  /\ (forall n, (16 < n)%Z -> clamp_source n = 16%Z)
  /\ (forall n, (1 <= n <= 16)%Z -> clamp_source n = n)
  /\ clamp_source 0 = 1%Z
  /\ clamp_source 99 = 16%Z
  /\ (forall zid m n st,
        _cmd_set_source rt zid m n st
        = (send_command rt (sa_command m "1" (str_of_int (clamp_source n))) ;;;
           publish_state zid "source" (VInt (clamp_source n))) st).
Proof.
  assert (Hmm : flt_lt volume_min volume_max = true) by reflexivity.
  repeat match goal with |- _ /\ _ => split end; try reflexivity.
  - intros x H. unfold clamp_volume, py_min, py_max.
    rewrite (flt_lt_trans _ _ _ H Hmm), (flt_lt_asym _ _ H). reflexivity.
  - intros x H. unfold clamp_volume, py_min, py_max.
    rewrite (flt_lt_asym _ _ H), Hmm. reflexivity.
  - intros x Hlo Hhi. unfold clamp_volume, py_min, py_max, flt_le in *.
    destruct (flt_lt x volume_max) eqn:H1.
    + destruct (flt_lt volume_min x) eqn:H2.
      * exact (flt_lt_eq_refl _ _ H1).
      * exact Hlo.
    + rewrite Hmm. rewrite flt_eq_sym. exact Hhi.
  - intros x Hlo Hhi. unfold clamp_volume, py_min, py_max.
    now rewrite Hhi, Hlo.
  - intros n H. unfold clamp_source. lia.
  - intros n H. unfold clamp_source. lia.
  - intros n H. unfold clamp_source. lia.
Qed.

Lemma clamp_before_encoding_witness :
  clamp_volume (float_of_Z (-100)) = volume_min
  /\ clamp_volume (float_of_Z 100) = volume_max
  /\ clamp_volume (FFin true 21 (-1)) = FFin true 21 (-1)
  /\ clamp_source (-3) = 1%Z
  /\ clamp_source 40 = 16%Z
  /\ clamp_source 7 = 7%Z.
Proof.
  destruct (clamp_before_encoding sample_runtime)
    as (Hlo & Hhi & _ & Hin & _ & _ & _ & Slo & Shi & Sin & _).
  refine (conj (Hlo _ _) (conj (Hhi _ _) (conj (Hin _ _ _)
            (conj (Slo _ _) (conj (Shi _ _) (Sin _ _)))))); try reflexivity; lia.
Defined.

(** C8.  The three device commands hand [send_command] a text of the form
    SA, the quoted module name, [>], the index, [>], the value and the
    four characters of the placeholder; the mute command uses index 2 and
    the value O or F.  The placeholder is replaced inside [send_command],
    whatever the transport, and for a text that holds no other [<] the
    replacement is the single octet 13 at the end. *)
Theorem command_grammar (rt : runtime) :
  (forall zid m mute st,
      _cmd_toggle_mute rt zid m mute st
      = (send_command rt
           ("SA" ++ dquote ++ m ++ dquote ++ ">2>" ++ (if mute then "O" else "F") ++ "<CR>") ;;;
         publish_state zid "mute" (VBool mute)) st)
  /\ (forall zid m x st,
        _cmd_set_volume rt zid m x st
        = (send_command rt
             ("SA" ++ dquote ++ m ++ dquote ++ ">1>" ++ float_repr rt (clamp_volume x) ++ "<CR>") ;;;
           publish_state zid "volume" (VFloat (clamp_volume x))) st)
  /\ (forall zid m n st,
        _cmd_set_source rt zid m n st
        = (send_command rt
             ("SA" ++ dquote ++ m ++ dquote ++ ">1>" ++ str_of_int (clamp_source n) ++ "<CR>") ;;;
           publish_state zid "source" (VInt (clamp_source n))) st)
  /\ (forall cmd st h,
        connection_type st = "serial" -> serial_conn st = Some (Some h) ->
        send_command rt cmd st = serial_write h (str_replace "<CR>" cr cmd) st)
  /\ (forall cmd st h,
        connection_type st = "tcp" -> writer st = Some (Some h) ->
        send_command rt cmd st
        = (stream_write h (str_replace "<CR>" cr cmd) ;;; stream_drain h) st)
  /\ (forall cmd st c bridge_id,
        connection_type st = "bridge" ->
        hasattr (serial_conn st) || hasattr (writer st) = true ->
        mqtt_client st = true ->
        cfg_connection (config st) = Some c -> conn_bridge_id c = Some bridge_id ->
        send_command rt cmd st
        = mqtt_publish ("bridges/" ++ bridge_id ++ "/command")
            (str_replace "<CR>" cr cmd) st)
  /\ (forall body,
        str_contains "<" body = false ->
        str_replace "<CR>" cr (body ++ "<CR>") = body ++ cr)
  /\ (forall (m : string) (mute : bool),
        str_contains "<" m = false ->
        str_replace "<CR>" cr (sa_command m "2" (if mute then "O" else "F"))
        = "SA" ++ dquote ++ m ++ dquote ++ ">2>" ++ (if mute then "O" else "F") ++ cr)
  /\ String.length cr = 1%nat.
Proof.
  repeat match goal with |- _ /\ _ => split end; try reflexivity.
  - intros. now apply send_command_serial.
  - intros. now apply send_command_tcp.
  - intros cmd st c bridge_id. apply send_command_bridge.
  - intros body H. rewrite (replace_no_open body "<CR>" H). reflexivity.
  - intros m mute H. unfold sa_command.
    change ("SA" ++ dquote ++ m ++ dquote ++ ">" ++ "2" ++ ">" ++ (if mute then "O" else "F") ++ "<CR>")
      with (("SA" ++ dquote) ++ m ++ dquote ++ ">2>" ++ (if mute then "O" else "F") ++ "<CR>").
    rewrite (replace_no_open ("SA" ++ dquote)) by reflexivity.
    rewrite (replace_no_open m) by exact H.
    destruct mute; reflexivity.
Qed.

Lemma command_grammar_witness :
  str_replace "<CR>" cr (sa_command "Main Volume" "2" "O")
  = "SA" ++ dquote ++ "Main Volume" ++ dquote ++ ">2>O" ++ cr.
Proof.
  destruct (command_grammar sample_runtime) as (_ & _ & _ & _ & _ & _ & _ & H & _).
  exact (H "Main Volume" true eq_refl).
Defined.




(** C10, counterexample.  The zones [main] and [main_set] are configured
    and the serial port is open.  A volume command addressed to the zone
    [main_set] through [handle_command] is not dropped: the link id
    [main_set_volume] splits into the zone [main] and the command
    [set_volume], so the level is written for the module of [main] and
    published for [main]. *)
Lemma underscore_zone_misroutes :
  let st := connected serial_connection [Scenarios.main_zone; Scenarios.main_set_zone] in
  str_splitn 1 "_" "main_set_volume" = ["main"; "set_volume"]
  /\ handle_command sample_runtime "volume" "main_set" (VInt (-10)) st
     = (Ok tt,
        add_event (EvPublishState "main" "volume" (VFloat (FFin true 10 0)))
          (add_event
             (EvSerialWrite 0
                ("SA" ++ dquote ++ "Main Volume" ++ dquote ++ ">1>-10.0" ++ cr))
             st)).
Proof. split; reflexivity. Qed.

(** C10, amended.  The zone a link id resolves to always has an id without
    an underscore, so a zone whose id holds one is never the target of
    any link id, and a link id that resolves to no zone ends in a
    diagnostic only.  A command sent through [handle_command] to a zone
    id that holds an underscore is looked up under the text before the
    first underscore of that id, with the rest of the id, an underscore
    and the command as its command: it is dropped (no exception, no
    device I/O, no publication) when no zone is configured under that
    text or when that command is none of the six aliases, and it is
    carried out on the zone configured under that text otherwise.  Every
    command sent to the zone [living_room] is dropped. *)
Theorem underscore_zone_unreachable (rt : runtime) (st : instance) :
  (forall link_id z zid,
      routed_zone st link_id = Some z -> zone_id z = Some zid ->
      str_contains "_" zid = false)
  /\ (forall link_id z zid,
        zone_id z = Some zid -> str_contains "_" zid = true ->
        routed_zone st link_id <> Some z)
  /\ (forall link_id value,
        routed_zone st link_id = None ->
        exists st',
          handle_link_command rt link_id value st = (Ok tt, st')
          /\ device_io st' = device_io st
          /\ publications st' = publications st)
  /\ (forall zid command value,
        str_contains "_" zid = true ->
        exists head rest,
          zid = head ++ "_" ++ rest
          /\ str_contains "_" head = false
          /\ str_splitn 1 "_" (zid ++ "_" ++ command) = [head; rest ++ "_" ++ command]
          /\ (get_zone_config st head = None
              \/ ~ In (rest ++ "_" ++ command) command_aliases ->
              exists st',
                handle_command rt command zid value st = (Ok tt, st')
                /\ device_io st' = device_io st
                /\ publications st' = publications st)
          /\ (forall z,
                get_zone_config st head = Some z ->
                zone_id z = Some head
                /\ routed_zone st (zid ++ "_" ++ command) = Some z
                /\ handle_command rt command zid value st
                   = (let command := rest ++ "_" ++ command in
                      if (command =? "volume") || (command =? "set_volume") then
                        level <- lift (py_float rt value) ;;
                        _cmd_set_volume rt head
                          (dict_get (volume_module z) "Main Volume") level
                      else if (command =? "mute") || (command =? "toggle_mute") then
                        _cmd_toggle_mute rt head
                          (dict_get (mute_module z) "Main Volume") (py_bool value)
                      else if (command =? "source") || (command =? "set_source") then
                        n <- lift (py_int rt value) ;;
                        _cmd_set_source rt head
                          (dict_get (source_module z) "Selector 1") n
                      else ret tt) st))
  /\ (forall command value,
        exists st',
          handle_command rt command "living_room" value st = (Ok tt, st')
          /\ device_io st' = device_io st
          /\ publications st' = publications st).
Proof.
  assert (H1 : forall link_id z zid,
             routed_zone st link_id = Some z -> zone_id z = Some zid ->
             str_contains "_" zid = false).
  { intros link_id z zid Hr Hz.
    destruct (routed_zone_id st link_id z Hr) as (zid' & command & _ & Hz' & Hc).
    congruence. }
  assert (Hsilent : forall link_id zid command value,
             str_splitn 1 "_" link_id = [zid; command] ->
             get_zone_config st zid = None \/ ~ In command command_aliases ->
             exists st',
               handle_link_command rt link_id value st = (Ok tt, st')
               /\ device_io st' = device_io st
               /\ publications st' = publications st).
  { intros link_id zid command value Hs [Hz|Ha].
    - eexists. split; [exact (handle_link_command_no_zone rt _ _ _ value st Hs Hz)|].
      now rewrite device_io_add_print, publications_add_print.
    - destruct (handle_link_command_no_alias rt link_id zid command value st Hs Ha)
        as [E | E]; eexists; (split; [exact E|]).
      + split; reflexivity.
      + now rewrite device_io_add_print, publications_add_print. }
  repeat match goal with |- _ /\ _ => split end.
  - exact H1.
  - intros link_id z zid Hz Hc Hr. rewrite (H1 link_id z zid Hr Hz) in Hc.
    discriminate.
  - intros link_id value Hr.
    destruct (routed_zone_none rt st link_id value Hr) as [msg E].
    eexists. split; [exact E|].
    now rewrite device_io_add_print, publications_add_print.
  - intros zid command value Hu.
    destruct (str_splitn_once "_" zid Hu) as (head & rest & _ & Hz & Hh).
    exists head, rest.
    assert (Hl : zid ++ "_" ++ command = head ++ "_" ++ rest ++ "_" ++ command).
    { rewrite Hz, str_app_assoc. reflexivity. }
    assert (Hs : str_splitn 1 "_" (zid ++ "_" ++ command)
                 = [head; rest ++ "_" ++ command]).
    { rewrite Hl. exact (str_splitn_once_app "_" head (rest ++ "_" ++ command) Hh). }
    repeat match goal with |- _ /\ _ => split end.
    + exact Hz.
    + exact Hh.
    + exact Hs.
    + intros Hd. unfold handle_command.
      exact (Hsilent _ _ _ value Hs Hd).
    + intros z Hf.
      assert (Hr : routed_zone st (zid ++ "_" ++ command) = Some z).
      { unfold routed_zone. rewrite Hs. exact Hf. }
      split; [|split].
      * now apply find_zone_id with (zones := dict_get (cfg_zones (config st)) []).
      * exact Hr.
      * unfold handle_command. cbv zeta.
        exact (handle_link_command_routed rt _ _ _ value st z Hs Hr).
  - intros command value. unfold handle_command.
    apply (Hsilent ("living_room" ++ "_" ++ command) "living" ("room_" ++ command)
             value eq_refl).
    right. unfold command_aliases. simpl.
    intros [H | [H | [H | [H | [H | [H | []]]]]]]; discriminate H.
Qed.

Lemma underscore_zone_unreachable_witness :
  routed_zone (fresh serial_connection [master_zone; living_room_zone])
    "living_room_volume" <> Some living_room_zone.
Proof.
  destruct (underscore_zone_unreachable sample_runtime
              (fresh serial_connection [master_zone; living_room_zone]))
    as (_ & H & _).
  exact (H "living_room_volume" living_room_zone "living_room" eq_refl eq_refl).
Defined.

End BoseSpec.

(** ** The JSON reader always has fuel enough *)

Section JsonFuel.
Import Json.

Lemma skip_ws_length (s : string) : String.length (skip_ws s) <= String.length s.
Proof.
  induction s as [|c s IH]; simpl; [lia|].
  destruct (is_ws c); simpl; lia.
Qed.

Lemma next_char_length (s rest : string) (c : ascii) :
  next_char s = Some (c, rest) -> String.length rest < String.length s.
Proof.
  unfold next_char. pose proof (skip_ws_length s) as H.
  destruct (skip_ws s) as [|d r]; [discriminate|].
  intros [= _ <-]. simpl in H. lia.
Qed.

Lemma next_is_length (c : ascii) (s rest : string) :
  next_is c s = Some rest -> String.length rest < String.length s.
Proof.
  unfold next_is. destruct (next_char s) as [[d r]|] eqn:E; [|discriminate].
  destruct (Ascii.eqb d c); [|discriminate].
  intros [= <-]. now apply next_char_length with (c := d).
Qed.

Lemma with_prefix_rest (p : string) (r : option (string * string)) (t rest : string) :
  with_prefix p r = Some (t, rest) -> exists t', r = Some (t', rest).
Proof.
  destruct r as [[t' rest']|]; simpl; [|discriminate].
  intros [= _ <-]. now exists t'.
Qed.

Lemma scanstring_length (n : nat) (s t rest : string) :
  String.length s <= n ->
  scanstring s = Some (t, rest) -> String.length rest < String.length s.
Proof.
  revert s t rest. induction n as [|n IH]; intros s t rest Hn.
  - destruct s; [discriminate | simpl in Hn; lia].
  - destruct s as [|c r]; [discriminate|]. simpl in Hn. cbn [scanstring].
    assert (Hrec : forall q t' rest',
               String.length q <= n -> with_prefix t' (scanstring q) = Some (t, rest') ->
               String.length rest' < String.length q).
    { intros q t' rest' Hq H. destruct (with_prefix_rest _ _ _ _ H) as [t'' E].
      exact (IH _ _ _ Hq E). }
    destruct (Ascii.eqb c "034").
    { intros [= _ <-]. simpl. lia. }
    destruct (Ascii.eqb c "\").
    2:{ destruct (N_of_ascii c <=? 31)%N; [discriminate|].
        intros H. apply Hrec in H; simpl; lia. }
    destruct r as [|e r1]; [discriminate|]. simpl in Hn.
    destruct (Ascii.eqb e "u").
    2:{ destruct (simple_escape e); [|discriminate].
        intros H. apply Hrec in H; simpl; lia. }
    destruct r1 as [|h1 [|h2 [|h3 [|h4 r4]]]]; try discriminate.
    simpl in Hn.
    destruct (hex4 h1 h2 h3 h4) as [hi|]; [|discriminate].
    assert (Hr4 : with_prefix (utf8_encode hi) (scanstring r4) = Some (t, rest) ->
                  String.length rest < String.length (String c (String e
                    (String h1 (String h2 (String h3 (String h4 r4))))))).
    { intros H. apply Hrec in H; simpl; lia. }
    destruct r4 as [|b [|u [|g1 [|g2 [|g3 [|g4 r8]]]]]]; try exact Hr4.
    destruct (is_high_surrogate hi && Ascii.eqb b "\" && Ascii.eqb u "u");
      [|exact Hr4].
    destruct (hex4 g1 g2 g3 g4) as [lo|]; [|discriminate].
    destruct (is_low_surrogate lo); [|exact Hr4].
    intros H. apply Hrec in H; simpl in *; lia.
Qed.

Lemma take_digits_length (s : string) :
  String.length (snd (take_digits s)) <= String.length s.
Proof.
  induction s as [|c s IH]; simpl; [lia|].
  destruct (is_digit c); simpl; [|lia].
  destruct (take_digits s) as [d rest]. simpl in *. lia.
Qed.

Lemma scan_int_digits_length (s d rest : string) :
  scan_int_digits s = Some (d, rest) -> String.length rest < String.length s.
Proof.
  destruct s as [|c r]; simpl; [discriminate|].
  destruct (Ascii.eqb c "0").
  - intros [= _ <-]. lia.
  - destruct (is_digit c); [|discriminate].
    pose proof (take_digits_length r) as H.
    destruct (take_digits r) as [d' rest']. intros [= _ <-]. simpl in H. lia.
Qed.

Lemma scan_frac_length (s : string) :
  String.length (snd (scan_frac s)) <= String.length s.
Proof.
  destruct s as [|c r]; simpl; [lia|].
  destruct (Ascii.eqb c "."); simpl; [|lia].
  pose proof (take_digits_length r) as H.
  destruct (take_digits r) as [[|x d] rest]; simpl in *; lia.
Qed.

Lemma scan_exp_length (s : string) :
  String.length (snd (scan_exp s)) <= String.length s.
Proof.
  destruct s as [|e r]; simpl; [lia|].
  destruct (Ascii.eqb e "e" || Ascii.eqb e "E"); simpl; [|lia].
  assert (H : forall sign r1, String.length r1 <= String.length r ->
            String.length (snd (match take_digits r1 with
                                | ("", _) => ("", String e r)
                                | (String a s0 as d, rest) => (String e (sign ++ d), rest)
                                end)) <= S (String.length r)).
  { intros sign r1 Hr. pose proof (take_digits_length r1) as H.
    destruct (take_digits r1) as [[|x d] rest]; simpl in *; lia. }
  destruct r as [|c r']; [apply H; simpl; lia|].
  destruct (Ascii.eqb c "+" || Ascii.eqb c "-"); apply H; simpl; lia.
Qed.

Lemma scan_number_length (s rest : string) (v : json) :
  scan_number s = Some (v, rest) -> String.length rest < String.length s.
Proof.
  unfold scan_number.
  set (p := match s with
            | "" => (false, s)
            | String c r => if Ascii.eqb c "-" then (true, r) else (false, s)
            end).
  assert (Hp : String.length (snd p) <= String.length s).
  { unfold p. destruct s as [|c r]; simpl; [lia|].
    destruct (Ascii.eqb c "-"); simpl; lia. }
  destruct p as [neg s1]. simpl in Hp.
  destruct (scan_int_digits s1) as [[int r1]|] eqn:E; [|discriminate].
  apply scan_int_digits_length in E.
  pose proof (scan_frac_length r1) as Hf. destruct (scan_frac r1) as [frac r2].
  pose proof (scan_exp_length r2) as He. destruct (scan_exp r2) as [exp r3].
  simpl in *. destruct ((frac =? "") && (exp =? "")); intros [= _ <-]; lia.
Qed.

Lemma after_word_length (w s rest : string) :
  after_word w s = Some rest ->
  String.length s = String.length w + String.length rest.
Proof.
  revert s. induction w as [|c w IH]; intros s; simpl.
  - now intros [= ->].
  - destruct s as [|d s]; [discriminate|].
    destruct (Ascii.eqb c d); [|discriminate].
    intros H. simpl. now rewrite (IH _ H).
Qed.

Lemma scan_atom_length (s rest : string) (v : json) :
  scan_atom s = Parsed v rest -> String.length rest < String.length s.
Proof.
  unfold scan_atom.
  repeat match goal with
         | |- context [after_word ?w s] =>
             let E := fresh "E" in
             destruct (after_word w s) eqn:E;
             [apply after_word_length in E; simpl in E|]
         end;
    try (intros [= _ <-]; lia).
  destruct (scan_number s) as [[v' r]|] eqn:En; simpl; [|discriminate].
  intros [= _ <-]. now apply scan_number_length in En.
Qed.

(** A term that is read takes at least one character. *)
Lemma scan_consumes (fuel : nat) :
  (forall s v rest, scan_once fuel s = Parsed v rest ->
                    String.length rest < String.length s)
  /\ (forall s acc l rest, parse_items fuel s acc = Parsed l rest ->
                           String.length rest < String.length s)
  /\ (forall s acc l rest, parse_members fuel s acc = Parsed l rest ->
                           String.length rest < String.length s).
Proof.
  induction fuel as [|fuel (IHv & IHi & IHm)];
    [repeat split; intros; discriminate|].
  repeat split.
  - intros s v rest. cbn [scan_once].
    destruct s as [|c r]; [discriminate|].
    destruct (Ascii.eqb c "034").
    { destruct (scanstring r) as [[t rest']|] eqn:E; [|discriminate].
      intros [= _ <-]. apply (scanstring_length _ _ _ _ (le_n _)) in E.
      simpl. lia. }
    destruct (Ascii.eqb c "{").
    { destruct (next_is "}" r) as [rest'|] eqn:E.
      - intros [= _ <-]. apply next_is_length in E. simpl. lia.
      - destruct (parse_members fuel (skip_ws r) []) as [fields rest'| |] eqn:E';
          try discriminate.
        intros [= _ <-]. apply IHm in E'. pose proof (skip_ws_length r).
        simpl. lia. }
    destruct (Ascii.eqb c "[").
    { destruct (next_is "]" r) as [rest'|] eqn:E.
      - intros [= _ <-]. apply next_is_length in E. simpl. lia.
      - destruct (parse_items fuel (skip_ws r) []) as [items rest'| |] eqn:E';
          try discriminate.
        intros [= _ <-]. apply IHi in E'. pose proof (skip_ws_length r).
        simpl. lia. }
    apply scan_atom_length.
  - intros s acc l rest. cbn [parse_items].
    destruct (scan_once fuel s) as [v r| |] eqn:E; try discriminate.
    apply IHv in E.
    destruct (next_char r) as [[c rest']|] eqn:En; [|discriminate].
    apply next_char_length in En.
    destruct (Ascii.eqb c "]"); [intros [= _ <-]; lia|].
    destruct (Ascii.eqb c ","); [|discriminate].
    intros H. apply IHi in H. pose proof (skip_ws_length rest'). lia.
  - intros s acc l rest. cbn [parse_members].
    destruct s as [|q r]; [discriminate|].
    destruct (Ascii.eqb q "034"); [|discriminate].
    destruct (scanstring r) as [[key r1]|] eqn:Es; [|discriminate].
    apply (scanstring_length _ _ _ _ (le_n _)) in Es.
    destruct (next_is ":" r1) as [r2|] eqn:E2; [|discriminate].
    apply next_is_length in E2.
    destruct (scan_once fuel (skip_ws r2)) as [v r3| |] eqn:E3; try discriminate.
    apply IHv in E3. pose proof (skip_ws_length r2).
    destruct (next_char r3) as [[c rest']|] eqn:En; [|discriminate].
    apply next_char_length in En.
    destruct (Ascii.eqb c "}"); [intros [= _ <-]; simpl; lia|].
    destruct (Ascii.eqb c ","); [|discriminate].
    intros H'. apply IHm in H'. pose proof (skip_ws_length rest'). simpl. lia.
Qed.

(** Two units of fuel for each character, and one to start, never run out. *)
Lemma scan_fuel_enough (fuel : nat) :
  (forall s, 2 * String.length s < fuel -> scan_once fuel s <> OutOfFuel)
  /\ (forall s acc, 2 * String.length s + 1 < fuel ->
                    parse_items fuel s acc <> OutOfFuel)
  /\ (forall s acc, 2 * String.length s + 1 < fuel ->
                    parse_members fuel s acc <> OutOfFuel).
Proof.
  induction fuel as [|fuel (IHv & IHi & IHm)];
    [repeat split; intros; lia|].
  destruct (scan_consumes fuel) as (Cv & _ & _).
  repeat split.
  - intros s Hf. cbn [scan_once].
    destruct s as [|c r]; [discriminate|]. simpl in Hf.
    pose proof (skip_ws_length r) as Hw.
    destruct (Ascii.eqb c "034").
    { destruct (scanstring r) as [[t rest']|]; discriminate. }
    destruct (Ascii.eqb c "{").
    { destruct (next_is "}" r); [discriminate|].
      specialize (IHm (skip_ws r) []).
      destruct (parse_members fuel (skip_ws r) []); try discriminate.
      exfalso. apply IHm; [lia | reflexivity]. }
    destruct (Ascii.eqb c "[").
    { destruct (next_is "]" r); [discriminate|].
      specialize (IHi (skip_ws r) []).
      destruct (parse_items fuel (skip_ws r) []); try discriminate.
      exfalso. apply IHi; [lia | reflexivity]. }
    unfold scan_atom.
    repeat match goal with
           | |- context [after_word ?w ?x] => destruct (after_word w x)
           end; try discriminate.
    destruct (scan_number (String c r)) as [[v' r']|]; discriminate.
  - intros s acc Hf. cbn [parse_items].
    specialize (IHv s). specialize (Cv s).
    destruct (scan_once fuel s) as [v r| |]; try discriminate.
    + specialize (Cv v r eq_refl).
      destruct (next_char r) as [[c rest']|] eqn:En; [|discriminate].
      apply next_char_length in En.
      destruct (Ascii.eqb c "]"); [discriminate|].
      destruct (Ascii.eqb c ","); [|discriminate].
      apply IHi. pose proof (skip_ws_length rest'). lia.
    + exfalso. apply IHv; [lia | reflexivity].
  - intros s acc Hf. cbn [parse_members].
    destruct s as [|q r]; [discriminate|]. simpl in Hf.
    destruct (Ascii.eqb q "034"); [|discriminate].
    destruct (scanstring r) as [[key r1]|] eqn:Es; [|discriminate].
    apply (scanstring_length _ _ _ _ (le_n _)) in Es.
    destruct (next_is ":" r1) as [r2|] eqn:E2; [|discriminate].
    apply next_is_length in E2. pose proof (skip_ws_length r2) as Hw.
    specialize (IHv (skip_ws r2)). specialize (Cv (skip_ws r2)).
    destruct (scan_once fuel (skip_ws r2)) as [v r3| |]; try discriminate.
    + specialize (Cv v r3 eq_refl).
      destruct (next_char r3) as [[c rest']|] eqn:En; [|discriminate].
      apply next_char_length in En.
      destruct (Ascii.eqb c "}"); [discriminate|].
      destruct (Ascii.eqb c ","); [|discriminate].
      apply IHm. pose proof (skip_ws_length rest'). lia.
    + exfalso. apply IHv; [lia | reflexivity].
Qed.

(** [json_loads] never stops for lack of fuel: its error is a parse error. *)
Lemma json_loads_fuel (s : string) :
  scan_once (2 * String.length s + 2) (skip_ws s) <> OutOfFuel.
Proof.
  destruct (scan_fuel_enough (2 * String.length s + 2)) as (H & _ & _).
  apply H. pose proof (skip_ws_length s). lia.
Qed.

End JsonFuel.

(** ** Discovery sessions *)

Section DiscoveryFacts.
Import PyStr Json Udp Samples.

(** *** Empire *)

Lemma empire_read_response_accepts (data ip_addr : string) (d : Empire.device) :
  Empire.read_response data ip_addr = Ok (Some d) <->
  exists text fields,
    decode_utf8 data = Ok text
    /\ json_loads text = Ok (JObject fields)
    /\ dict_lookup "type" fields = Some (JString "empire_bridge")
    /\ d = Empire.device_of fields ip_addr.
Proof.
  unfold Empire.read_response. split.
  - destruct (decode_utf8 data) as [text|e]; [|discriminate].
    destruct (json_loads text) as [[| | | | |items|fields]|e] eqn:Hj;
      try discriminate.
    destruct (dict_lookup "type" fields) as [[| | | |s| |]|] eqn:Ht;
      simpl; try discriminate.
    destruct (s =? "empire_bridge") eqn:Hs; [|discriminate].
    apply String.eqb_eq in Hs. subst s. intros H. injection H as <-.
    now exists text, fields.
  - intros (text & fields & -> & -> & -> & ->). reflexivity.
Qed.

(** The session never raises, whatever arrives. *)
Lemma empire_listen_never_raises (timeout : Z) (turns : list tick)
    (devices : list Empire.device) (printed : list exn) (e : exn) :
  fst (Empire.listen timeout turns devices printed) <> Raised e.
Proof.
  revert devices printed.
  induction turns as [|t rest IH]; intros devices printed; simpl; [discriminate|].
  destruct (elapsed t <? timeout)%Z; [|discriminate].
  destruct (received t) as [|payload ip_addr p|msg]; try apply IH.
  destruct (Empire.read_response (recvfrom_data payload) ip_addr) as [[d|]|[]];
    apply IH.
Qed.

(** Once the deadline is seen, the session returns the devices heard. *)
Lemma empire_listen_returns (timeout : Z) (turns : list tick)
    (devices : list Empire.device) (printed : list exn) :
  deadline_seen timeout turns ->
  fst (Empire.listen timeout turns devices printed)
  = Returned (devices ++ Empire.heard timeout turns)%list.
Proof.
  revert devices printed.
  induction turns as [|t rest IH]; intros devices printed (t0 & Hin & Hd).
  - destruct Hin.
  - simpl. destruct (elapsed t <? timeout)%Z eqn:Ht.
    + assert (deadline_seen timeout rest) as Hrest.
      { destruct Hin as [->|Hin]; [apply Z.ltb_lt in Ht; lia|].
        now exists t0. }
      destruct (received t) as [|payload ip_addr p|msg]; try now apply IH.
      destruct (Empire.read_response (recvfrom_data payload) ip_addr)
        as [[d|]|[]]; try now apply IH.
      rewrite (IH _ _ Hrest), <- app_assoc. reflexivity.
    + simpl. now rewrite app_nil_r.
Qed.

(** *** iTach *)








End DiscoveryFacts.

(** ** Specified behaviour of the discovery sessions *)

Section DiscoverySpec.
Import PyStr Json Udp Samples.

(** C2, as the code behaves at the failing input.  An iTach session hears
    a well-formed beacon reply, then a datagram that is not UTF-8: the
    decode error leaves the loop, the session raises and the device
    already found is lost, where the same session without the bad
    datagram returns that device.  The Empire session skips the same
    datagrams and returns; under [discover_all_bridges] the iTach failure
    is swallowed into an empty list. *)
Theorem itach_session_raises_on_undecodable :
  let net :=
    {| setup_error := None;
       sendto_error := quiet;
       arrivals :=
         [ {| elapsed := 0; received := RecvDatagram itach_reply "10.0.0.7" 9131 |};
           {| elapsed := 1; received := RecvDatagram undecodable "10.0.0.8" 9131 |};
           {| elapsed := 2; received := RecvTimeout |};
           {| elapsed := 5; received := RecvTimeout |} ] |} in
  let without :=
    {| setup_error := None;
       sendto_error := quiet;
       arrivals :=
         [ {| elapsed := 0; received := RecvDatagram itach_reply "10.0.0.7" 9131 |};
           {| elapsed := 2; received := RecvTimeout |};
           {| elapsed := 5; received := RecvTimeout |} ] |} in
  decode_utf8 undecodable = Raise UnicodeDecodeError
  /\ (exists d, ITach.discover_devices 5 without = Returned [d])
  /\ ITach.discover_devices 5 net = Raised UnicodeDecodeError
  /\ Empire.discover 5 net = (Returned [], [UnicodeDecodeError])
  /\ Bridges.discover_all_bridges 5 net net true
     = Some (Ok {| Bridges.empire := []; Bridges.itach := []; Bridges.other := [] |}).
Proof.
  cbv zeta. repeat match goal with |- _ /\ _ => split end; try reflexivity.
  eexists. reflexivity.
Qed.

(** C6.  A datagram is accepted as a device exactly when it decodes as
    UTF-8, parses as a JSON object and carries the string [empire_bridge]
    under [type]; the device is then built from the object and the
    sender's address.  A session that hears the reply with name X and port
    5001 from an address returns that one device, with that address, port
    5001 and name X; a session that hears the same reply without its type
    returns no device. *)
Theorem empire_accepts_typed_replies :
  (forall data ip_addr d,
      Empire.read_response data ip_addr = Ok (Some d) <->
      exists text fields,
        decode_utf8 data = Ok text
        /\ json_loads text = Ok (JObject fields)
        /\ dict_lookup "type" fields = Some (JString "empire_bridge")
        /\ d = Empire.device_of fields ip_addr)
  /\ (forall timeout turns,
        deadline_seen timeout turns ->
        fst (Empire.listen timeout turns [] []) = Returned (Empire.heard timeout turns))
  /\ (forall timeout ip_addr,
        (0 < timeout)%Z ->
        Empire.discover timeout (one_reply timeout empire_reply ip_addr)
        = (Returned [ {| Empire.name := JString "X";
                         Empire.ip := ip_addr;
                         Empire.port := JInt 5001;
                         Empire.model := JString "Unknown";
                         Empire.version := JString "Unknown";
                         Empire.serial := JString "Unknown";
                         Empire.capabilities := JArray [] |} ], []))
  /\ (forall timeout ip_addr,
        (0 < timeout)%Z ->
        Empire.discover timeout (one_reply timeout untyped_reply ip_addr)
        = (Returned [], [])).
Proof.
  repeat match goal with |- _ /\ _ => split end.
  - apply empire_read_response_accepts.
  - intros timeout turns H. now rewrite empire_listen_returns.
  - intros timeout ip_addr H. unfold Empire.discover, one_reply. simpl arrivals.
    cbn [Empire.listen elapsed received].
    apply Z.ltb_lt in H. rewrite H, Z.ltb_irrefl. reflexivity.
  - intros timeout ip_addr H. unfold Empire.discover, one_reply. simpl arrivals.
    cbn [Empire.listen elapsed received].
    apply Z.ltb_lt in H. rewrite H, Z.ltb_irrefl. reflexivity.
Qed.

Lemma empire_accepts_typed_replies_witness :
  Empire.discover 5 (one_reply 5 empire_reply "10.0.0.9")
  = (Returned [ {| Empire.name := JString "X";
                   Empire.ip := "10.0.0.9";
                   Empire.port := JInt 5001;
                   Empire.model := JString "Unknown";
                   Empire.version := JString "Unknown";
                   Empire.serial := JString "Unknown";
                   Empire.capabilities := JArray [] |} ], []).
Proof.
  destruct empire_accepts_typed_replies as (_ & _ & H & _).
  exact (H 5%Z "10.0.0.9" eq_refl).
Defined.



End DiscoverySpec.

(** ** Sessions as a whole *)

Section SessionFacts.
Import PyStr Json Udp Samples.

Lemma deadline_seen_tail (timeout : Z) (t : tick) (rest : list tick) :
  (elapsed t <? timeout)%Z = true ->
  deadline_seen timeout (t :: rest) -> deadline_seen timeout rest.
Proof.
  intros Ht (t0 & [->|Hin] & Hd).
  - apply Z.ltb_lt in Ht. lia.
  - now exists t0.
Qed.

(** Once the deadline is seen, the iTach loop has ended one way or the
    other. *)
Lemma itach_listen_ends (timeout : Z) (turns : list tick)
    (devices : list ITach.device_info) :
  deadline_seen timeout turns -> ITach.listen timeout turns devices <> Pending.
Proof.
  revert devices. induction turns as [|t rest IH]; intros devices H.
  - destruct H as (t0 & [] & _).
  - simpl. destruct (elapsed t <? timeout)%Z eqn:Ht; [|discriminate].
    pose proof (deadline_seen_tail _ _ _ Ht H) as Hrest.
    destruct (received t) as [|payload ip_addr p|msg];
      [now apply IH | | discriminate].
    destruct (ITach.read_response (recvfrom_data payload) ip_addr) as [[d|]|e];
      [now apply IH | now apply IH | discriminate].
Qed.

(** X1.  The Empire session raises exactly when its socket cannot be made
    ready, with the exception of that failure; once the socket is ready
    it never raises, whatever it receives, and once its deadline is seen
    it returns exactly the devices of the accepted responses, in order of
    arrival. *)
Theorem empire_session_outcome (timeout : Z) (net : network) :
  (forall e, fst (Empire.discover timeout net) = Raised e <-> setup_error net = Some e)
  /\ (setup_error net = None ->
      deadline_seen timeout (arrivals net) ->
      fst (Empire.discover timeout net)
      = Returned (Empire.heard timeout (arrivals net))).
Proof.
  unfold Empire.discover. split.
  - intros e. destruct (setup_error net) as [e0|].
    + simpl. split; intros [= ->]; reflexivity.
    + split; [|discriminate]. intros H.
      now apply empire_listen_never_raises in H.
  - intros -> H. now rewrite empire_listen_returns.
Qed.

(** X3.  The aggregate raises exactly when the socket of the Empire session
    cannot be made ready, with the exception of that failure: the Empire
    session is awaited outside the [try].  Otherwise, when both sessions
    have seen their deadline, it returns the Empire devices, the iTach
    devices (none when the iTach session raised, its socket set-up
    included, or its module cannot be imported) and an empty [other]. *)
Theorem discover_all_bridges_outcome (timeout : Z) (empire_net itach_net : network)
    (importable : bool) :
  (forall e,
      Bridges.discover_all_bridges timeout empire_net itach_net importable
      = Some (Raise e)
      <-> setup_error empire_net = Some e)
  /\ (setup_error empire_net = None ->
      deadline_seen timeout (arrivals empire_net) ->
      deadline_seen timeout (arrivals itach_net) ->
      exists found,
        Bridges.discover_all_bridges timeout empire_net itach_net importable
        = Some (Ok {| Bridges.empire := Empire.heard timeout (arrivals empire_net);
                      Bridges.itach := found;
                      Bridges.other := [] |})
        /\ (importable = false -> found = [])
        /\ (forall e, ITach.discover_devices timeout itach_net = Raised e -> found = [])
        /\ (forall units, importable = true ->
                          ITach.discover_devices timeout itach_net = Returned units ->
                          found = units)).
Proof.
  split.
  - intros e. unfold Bridges.discover_all_bridges, Empire.discover.
    destruct (setup_error empire_net) as [e0|].
    + simpl. split; intros [= ->]; reflexivity.
    + split; [|discriminate].
      destruct (Empire.listen timeout (arrivals empire_net) [] []) as [[found|e1|] printed] eqn:E;
        simpl.
      * destruct importable; [|discriminate].
        destruct (ITach.discover_devices timeout itach_net); discriminate.
      * exfalso. apply (empire_listen_never_raises timeout (arrivals empire_net) [] [] e1).
        now rewrite E.
      * discriminate.
  - intros Hs He Hi. unfold Bridges.discover_all_bridges, Empire.discover.
    rewrite Hs.
    rewrite (empire_listen_returns timeout (arrivals empire_net) [] [] He).
    cbn [app].
    destruct importable.
    + destruct (ITach.discover_devices timeout itach_net) as [units|e|] eqn:E.
      * exists units. repeat split; try discriminate. now intros units' _ [= ->].
      * exists []. repeat split; discriminate.
      * exfalso. unfold ITach.discover_devices in E.
        destruct (setup_error itach_net); [discriminate|].
        destruct (sendto_error itach_net 9131%Z); [discriminate|].
        now apply itach_listen_ends in E.
    + exists []. repeat split. discriminate.
Qed.

Lemma discover_all_bridges_outcome_witness :
  exists found,
    Bridges.discover_all_bridges 5 (one_reply 5 empire_reply "10.0.0.9")
      (one_reply 5 undecodable "10.0.0.8") true
    = Some (Ok {| Bridges.empire :=
                    Empire.heard 5 (arrivals (one_reply 5 empire_reply "10.0.0.9"));
                  Bridges.itach := found;
                  Bridges.other := [] |})
    /\ found = [].
Proof.
  destruct (proj2 (discover_all_bridges_outcome 5 (one_reply 5 empire_reply "10.0.0.9")
                     (one_reply 5 undecodable "10.0.0.8") true))
    as (found & E & _ & H & _).
  - reflexivity.
  - eexists. split; [right; left; reflexivity | simpl; lia].
  - eexists. split; [right; left; reflexivity | simpl; lia].
  - exists found. split; [exact E|]. now apply (H UnicodeDecodeError).
Defined.

End SessionFacts.

Lemma empire_session_outcome_witness :
  fst (Empire.discover 5 (Samples.one_reply 5 Samples.untyped_reply "10.0.0.9"))
  = Udp.Returned
      (Empire.heard 5 (Udp.arrivals (Samples.one_reply 5 Samples.untyped_reply "10.0.0.9"))).
Proof.
  apply (proj2 (empire_session_outcome 5
                  (Samples.one_reply 5 Samples.untyped_reply "10.0.0.9"))).
  - reflexivity.
  - eexists. split; [right; left; reflexivity | simpl; lia].
Defined.

(** ** Links and their way back *)

Section LinkFacts.
Import PyStr PyNum Bose.
Variable rt : runtime.

Lemma find_zone_first (zones : list zone) (z : zone) (zid : string) :
  In z zones -> zone_id z = Some zid ->
  exists z', find_zone zones zid = Some z' /\ zone_id z' = Some zid.
Proof.
  induction zones as [|z0 zones IH]; intros Hin Hz; [destruct Hin|].
  simpl. destruct (zone_id z0) as [i|] eqn:Hi.
  - destruct (i =? zid) eqn:He.
    + apply String.eqb_eq in He. subst i. now exists z0.
    + destruct Hin as [->|Hin]; [|now apply IH].
      rewrite Hz in Hi. injection Hi as ->. now rewrite String.eqb_refl in He.
  - destruct Hin as [->|Hin]; [congruence | now apply IH].
Qed.

Lemma links_of_origin (zones : list zone) (links : list link) (l : link) :
  links_of zones = Ok links -> In l links ->
  exists z zid suffix,
    In z zones /\ zone_id z = Some zid
    /\ link_id l = zid ++ "_" ++ suffix
    /\ In suffix ["volume"; "mute"; "source"].
Proof.
  revert links. induction zones as [|z zones IH]; intros links; simpl.
  - intros [= <-] [].
  - unfold zone_links. destruct (zone_id z) as [zid|] eqn:Hid; [|discriminate].
    destruct (zone_name z) as [zname|]; [|discriminate]. cbn [dict_item].
    destruct (links_of zones) as [more|e]; [|discriminate].
    intros [= <-] Hin.
    destruct Hin as [<-|[<-|[<-|Hin]]];
      try (exists z, zid; eexists;
           (split; [now left|]); (split; [exact Hid|]);
           (split; [reflexivity|]); simpl; tauto).
    destruct (IH more eq_refl Hin) as (z' & zid' & suffix & ? & ? & ? & ?).
    exists z', zid', suffix. repeat split; try assumption. now right.
Qed.

(** X4.  Every link [get_links] advertises for the configured zones carries
    the id of one of them, an underscore and one of [volume], [mute] and
    [source], each a command [handle_link_command] knows.  When that zone
    id holds no underscore, the link id resolves to a zone with this id;
    when it holds one, the link id never resolves to that zone. *)
Theorem links_route_back (st : instance) (zones : list zone)
    (links : list link) (l : link) :
  cfg_zones (config st) = Some zones -> zones <> [] ->
  get_links st = Ok links -> In l links ->
  exists z zid suffix,
    In z zones /\ zone_id z = Some zid
    /\ link_id l = zid ++ "_" ++ suffix
    /\ In suffix command_aliases
    /\ (str_contains "_" zid = false ->
        str_splitn 1 "_" (link_id l) = [zid; suffix]
        /\ exists z', routed_zone st (link_id l) = Some z' /\ zone_id z' = Some zid)
    /\ (str_contains "_" zid = true -> routed_zone st (link_id l) <> Some z).
Proof.
  intros Hc Hne Hl Hin. unfold get_links in Hl. rewrite Hc in Hl. cbn [dict_get] in Hl.
  destruct zones as [|z0 zones0] eqn:Hz; [congruence|]. rewrite <- Hz in *.
  destruct (links_of_origin zones links l Hl Hin) as (z & zid & suffix & Hz' & Hid & Hlid & Hs).
  exists z, zid, suffix. repeat match goal with |- _ /\ _ => split end;
    try assumption.
  - unfold command_aliases. simpl in *. tauto.
  - intros Hu. rewrite Hlid.
    assert (Hsplit : str_splitn 1 "_" (zid ++ "_" ++ suffix) = [zid; suffix]).
    { exact (str_splitn_once_app "_" zid suffix Hu). }
    split; [exact Hsplit|].
    unfold routed_zone. rewrite Hsplit. unfold get_zone_config. rewrite Hc.
    now apply find_zone_first with (z := z).
  - intros Hu Hr. destruct (routed_zone_id st _ _ Hr) as (zid' & c & _ & Hid' & Hno).
    congruence.
Qed.

(** X5.  With no zone configured, [get_links] advertises the three links of a
    default zone [master], yet [handle_link_command] finds no zone for any
    of them: the command ends in a diagnostic, nothing is sent or
    published. *)
Theorem default_links_are_dead (st : instance) (value : pyvalue) :
  dict_get (cfg_zones (config st)) [] = [] ->
  (exists links,
      get_links st = Ok links
      /\ map link_id links = ["master_volume"; "master_mute"; "master_source"])
  /\ (forall l,
        In l ["master_volume"; "master_mute"; "master_source"] ->
        handle_link_command rt l value st
        = (Ok tt, add_event (EvPrint "Zone not found: master") st)).
Proof.
  intros Hz. split.
  - unfold get_links. rewrite Hz. eexists. split; reflexivity.
  - intros l Hl.
    assert (Hnone : get_zone_config st "master" = None).
    { unfold get_zone_config. rewrite Hz. reflexivity. }
    destruct Hl as [<-|[<-|[<-|[]]]];
      eapply handle_link_command_no_zone; try reflexivity; exact Hnone.
Qed.

End LinkFacts.

Lemma links_route_back_witness :
  exists z zid suffix,
    In z [Samples.master_zone; Samples.living_room_zone]
    /\ Bose.zone_id z = Some zid
    /\ "living_room_mute" = zid ++ "_" ++ suffix
    /\ Bose.routed_zone
         (Samples.fresh Samples.serial_connection
            [Samples.master_zone; Samples.living_room_zone])
         "living_room_mute" <> Some z.
Proof.
  destruct (links_route_back
              (Samples.fresh Samples.serial_connection
                 [Samples.master_zone; Samples.living_room_zone])
              [Samples.master_zone; Samples.living_room_zone]
              _
              {| Bose.link_id := "living_room_mute";
                 Bose.link_name := "Living room Mute";
                 Bose.link_type := "button"; Bose.link_command := "toggle_mute";
                 Bose.link_min := None; Bose.link_max := None;
                 Bose.link_step := None; Bose.link_options := None |}
              eq_refl ltac:(discriminate) eq_refl
              ltac:(right; right; right; right; left; reflexivity))
    as (z & zid & suffix & Hin & Hid & Hl & _ & _ & Hu).
  exists z, zid, suffix. repeat split; try assumption.
  apply Hu. simpl in Hl.
  destruct Hin as [<-|[<-|[]]]; simpl in Hid; injection Hid as <-.
  - discriminate Hl.
  - reflexivity.
Defined.

Lemma default_links_are_dead_witness :
  Bose.handle_link_command Samples.sample_runtime "master_volume" (PyNum.VInt 0)
    (Samples.fresh Samples.serial_connection [])
  = (Ok tt,
     Bose.add_event (Bose.EvPrint "Zone not found: master")
       (Samples.fresh Samples.serial_connection [])).
Proof.
  apply (proj2 (default_links_are_dead Samples.sample_runtime
                  (Samples.fresh Samples.serial_connection []) (PyNum.VInt 0) eq_refl)).
  left. reflexivity.
Defined.

(** ** More on the Bose transport *)

Section TransportEdges.
Import PyStr PyNum Bose.
Variable rt : runtime.

Lemma publications_app (st : instance) (e : event) :
  publications (add_event e st)
  = (publications st ++ if is_publication e then [e] else [])%list.
Proof.
  unfold publications. simpl. rewrite filter_app. simpl.
  now destruct (is_publication e).
Qed.

(** X7.  [disconnect()] ends without an exception in the Disconnected
    state, whatever the state before; it closes the serial port and the
    stream that were open, each once, and nothing else reaches the
    device; a second [disconnect()] changes nothing. *)
Theorem disconnect_is_idempotent (st : instance) :
  fst (disconnect st) = Ok tt
  /\ transport_of (snd (disconnect st)) = Disconnected
  /\ device_io (snd (disconnect st)) = (device_io st ++ open_handles st)%list
  /\ disconnect (snd (disconnect st)) = (Ok tt, snd (disconnect st)).
Proof.
  unfold disconnect, open_handles, transport_of, device_io.
  destruct st as [cfg s r w m n io l]. unfold bind, get, emit, modify. simpl.
  destruct s as [[hs|]|], w as [[hw|]|]; simpl;
    repeat split; rewrite ?filter_app; simpl; rewrite ?app_nil_r;
    try reflexivity; now rewrite <- app_assoc.
Qed.

(** X8.  [connect()] fails before any I/O when the configuration lacks
    what the chosen transport needs: without connection settings the
    type defaults to serial and the lookup raises, a serial connection
    needs [port], a TCP connection [host] then [port].  When the open
    itself fails, with whatever exception, that exception is reported
    and raised again unchanged, and the stored handles stay as they
    were. *)
Theorem connect_failure_keeps_transport (st : instance) :
  (cfg_connection (config st) = None ->
   connect rt st = (Raise (KeyError "connection"), st))
  /\ (forall c,
        cfg_connection (config st) = Some c -> connection_type st = "serial" ->
        conn_port c = None ->
        connect rt st = (Raise (KeyError "port"), st))
  /\ (forall c,
        cfg_connection (config st) = Some c -> connection_type st = "tcp" ->
        conn_host c = None ->
        connect rt st = (Raise (KeyError "host"), st))
  /\ (forall c host,
        cfg_connection (config st) = Some c -> connection_type st = "tcp" ->
        conn_host c = Some host -> conn_port c = None ->
        connect rt st = (Raise (KeyError "port"), st))
  /\ (forall c port e rest,
        cfg_connection (config st) = Some c -> connection_type st = "serial" ->
        conn_port c = Some port -> io_script st = Some e :: rest ->
        exists st',
          connect rt st = (Raise e, st')
          /\ serial_conn st' = serial_conn st
          /\ writer st' = writer st /\ reader st' = reader st
          /\ log st'
             = (log st ++ [EvSerialOpen port (dict_get (conn_baudrate c) 9600%Z);
                           EvPrintExn "Serial connection failed: " e])%list)
  /\ (forall c host port e rest,
        cfg_connection (config st) = Some c -> connection_type st = "tcp" ->
        conn_host c = Some host -> conn_port c = Some port ->
        io_script st = Some e :: rest ->
        exists st',
          connect rt st = (Raise e, st')
          /\ serial_conn st' = serial_conn st
          /\ writer st' = writer st /\ reader st' = reader st
          /\ log st'
             = (log st ++ [EvTcpOpen host port;
                           EvPrintExn "TCP connection failed: " e])%list).
Proof.
  repeat match goal with |- _ /\ _ => split end.
  - intros Hc. unfold connect, bind, get, connection_type. rewrite Hc.
    change ("serial" =? "serial") with true. cbv iota.
    unfold _connect_serial, config_connection, bind, get, lift. now rewrite Hc.
  - intros c Hc Ht Hp. unfold connect. unfold bind at 1, get at 1. rewrite Ht.
    change ("serial" =? "serial") with true. cbv beta iota.
    unfold _connect_serial, config_connection, bind, get, lift.
    rewrite Hc. simpl. now rewrite Hp.
  - intros c Hc Ht Hh. unfold connect. unfold bind at 1, get at 1. rewrite Ht.
    change ("tcp" =? "serial") with false. change ("tcp" =? "tcp") with true.
    cbv beta iota.
    unfold _connect_tcp, config_connection, bind, get, lift.
    rewrite Hc. simpl. now rewrite Hh.
  - intros c host Hc Ht Hh Hp. unfold connect. unfold bind at 1, get at 1.
    rewrite Ht.
    change ("tcp" =? "serial") with false. change ("tcp" =? "tcp") with true.
    cbv beta iota.
    unfold _connect_tcp, config_connection, bind, get, lift.
    rewrite Hc. simpl. rewrite Hh. simpl. now rewrite Hp.
  - intros c port e rest Hc Ht Hp Hio. eexists. split.
    + unfold connect. unfold bind at 1, get at 1. rewrite Ht.
      change ("serial" =? "serial") with true. cbv beta iota.
      unfold _connect_serial, config_connection, try_except, serial_Serial,
        bind, get, lift, emit, modify, next_outcome, fresh_handle, print, raise.
      rewrite Hc. simpl. rewrite Hp. simpl. rewrite Hio. reflexivity.
    + simpl. repeat split. now rewrite <- app_assoc.
  - intros c host port e rest Hc Ht Hh Hp Hio. eexists. split.
    + unfold connect. unfold bind at 1, get at 1. rewrite Ht.
      change ("tcp" =? "serial") with false. change ("tcp" =? "tcp") with true.
      cbv beta iota.
      unfold _connect_tcp, config_connection, try_except, open_connection,
        bind, get, lift, emit, modify, next_outcome, fresh_handle, print, raise.
      rewrite Hc. simpl. rewrite Hh. simpl. rewrite Hp. simpl. rewrite Hio.
      reflexivity.
    + simpl. repeat split. now rewrite <- app_assoc.
Qed.

End TransportEdges.

Lemma connect_failure_keeps_transport_witness :
  exists st',
    Bose.connect Samples.sample_runtime Scenarios.no_such_port
    = (Raise (OSError "no such port"), st')
    /\ Bose.serial_conn st' = Bose.serial_conn Scenarios.no_such_port
    /\ Bose.writer st' = Bose.writer Scenarios.no_such_port
    /\ Bose.reader st' = Bose.reader Scenarios.no_such_port
    /\ Bose.log st'
       = (Bose.log Scenarios.no_such_port
          ++ [Bose.EvSerialOpen (PyNum.VStr "/dev/ttyUSB0") 9600%Z;
              Bose.EvPrintExn "Serial connection failed: " (OSError "no such port")])%list.
Proof.
  destruct (connect_failure_keeps_transport Samples.sample_runtime
              Scenarios.no_such_port) as (_ & _ & _ & _ & H & _).
  exact (H Samples.serial_connection (PyNum.VStr "/dev/ttyUSB0")
           (OSError "no such port") [] eq_refl eq_refl eq_refl eq_refl).
Defined.

(** ** What a link command leaves behind *)

Section CommandEffects.
Import PyStr PyNum Bose.
Variable rt : runtime.

Lemma clamp_volume_cases (x : pyfloat) :
  (flt_lt x volume_max = true /\ flt_lt volume_min x = true /\ clamp_volume x = x)
  \/ clamp_volume x = volume_min
  \/ clamp_volume x = volume_max.
Proof.
  unfold clamp_volume, py_max, py_min.
  destruct (flt_lt x volume_max) eqn:H1.
  - destruct (flt_lt volume_min x) eqn:H2; auto.
  - right. right. reflexivity.
Qed.

Lemma clamp_volume_range (x : pyfloat) :
  flt_le volume_min (clamp_volume x) = true
  /\ flt_le (clamp_volume x) volume_max = true.
Proof.
  destruct (clamp_volume_cases x) as [(H1 & H2 & ->)|[->| ->]].
  - unfold flt_le. rewrite H1, H2. now split.
  - now split.
  - now split.
Qed.

Lemma clamp_source_range (n : Z) : (1 <= clamp_source n <= 16)%Z.
Proof. unfold clamp_source. lia. Qed.

(** *** What [send_command] leaves alone *)

Lemma keeps_modify (P : instance -> Prop) (f : instance -> instance) :
  log_only P -> (forall st, log (f st) = log st) -> preserves P (modify f).
Proof. intros HP Hf st H. simpl. now apply (HP st). Qed.

Lemma keeps_next_outcome (P : instance -> Prop) :
  log_only P -> preserves P next_outcome.
Proof.
  intros HP st H. unfold next_outcome.
  destruct (io_script st) as [|[msg|] rest]; simpl; [exact H| |];
    now apply (HP st).
Qed.

Lemma keeps_fresh_handle (P : instance -> Prop) :
  log_only P -> preserves P fresh_handle.
Proof. intros HP st H. now apply (HP st). Qed.

Lemma pubs_log_only (p : list event) : log_only (pubs_are p).
Proof. intros st st' Hl H. unfold pubs_are, publications in *. now rewrite Hl. Qed.

Lemma pubs_emit (p : list event) (e : event) :
  is_publication e = false -> preserves (pubs_are p) (emit e).
Proof.
  intros He st H. unfold pubs_are in *. simpl.
  change (publications (add_event e st) = p).
  rewrite publications_app, He, app_nil_r. exact H.
Qed.

Ltac keep_step :=
  first
    [ apply preserves_bind; [|intros ?]
    | apply preserves_try; [|intros ?]
    | apply preserves_if
    | apply preserves_ret | apply preserves_raise | apply preserves_lift
    | apply preserves_get
    | apply keeps_next_outcome; apply pubs_log_only
    | apply keeps_fresh_handle; apply pubs_log_only
    | apply keeps_modify; [apply pubs_log_only | reflexivity]
    | apply pubs_emit; reflexivity
    | match goal with
      | |- preserves _ (match ?x with _ => _ end) => destruct x
      end ].

Lemma pubs_connect (p : list event) : preserves (pubs_are p) (connect rt).
Proof.
  unfold connect, _connect_serial, _connect_tcp, config_connection,
    serial_Serial, open_connection, print.
  repeat keep_step.
Qed.

Lemma pubs_send_command (p : list event) (cmd : string) :
  preserves (pubs_are p) (send_command rt cmd).
Proof.
  unfold send_command, serial_write, stream_write, stream_drain, mqtt_publish,
    config_connection.
  pose proof (pubs_connect p).
  repeat first [assumption | keep_step].
Qed.

Lemma send_command_publications (cmd : string) (st : instance) :
  publications (snd (send_command rt cmd st)) = publications st.
Proof. now apply (pubs_send_command (publications st) cmd st). Qed.

(** One device command: the send, then the publication if the send
    returned. *)
Lemma command_then_publish (cmd zid param : string) (v : pyvalue) (st : instance) :
  let r := (send_command rt cmd ;;; publish_state zid param v) st in
  (exists e, fst r = Raise e /\ publications (snd r) = publications st)
  \/ (fst r = Ok tt
      /\ publications (snd r) = (publications st ++ [EvPublishState zid param v])%list).
Proof.
  cbv zeta. unfold bind. pose proof (send_command_publications cmd st) as H.
  destruct (send_command rt cmd st) as [[u|e] st1]; simpl in *.
  - right. split; [reflexivity|].
    change (publications (add_event (EvPublishState zid param v) st1)
            = (publications st ++ [EvPublishState zid param v])%list).
    now rewrite publications_app, H.
  - left. now exists e.
Qed.

(** A link command publishes at most once, only when it returns, and
    then a value within the range of its parameter. *)
Lemma handle_link_command_publication (link_id : string) (value : pyvalue)
    (st : instance) :
  let r := handle_link_command rt link_id value st in
  publications (snd r) = publications st
  \/ (fst r = Ok tt
      /\ exists zid param v,
           publications (snd r) = (publications st ++ [EvPublishState zid param v])%list
           /\ ranged param v).
Proof.
  cbv zeta. destruct (str_contains "_" link_id) eqn:Hc.
  2:{ left. rewrite handle_link_command_no_separator by exact Hc.
      apply publications_add_print. }
  destruct (str_splitn_once _ _ Hc) as (zid & command & Hs & _ & _).
  destruct (get_zone_config st zid) as [z|] eqn:Hz.
  2:{ left. rewrite (handle_link_command_no_zone rt link_id zid command value st Hs Hz).
      apply publications_add_print. }
  rewrite (handle_link_command_routed rt link_id zid command value st z Hs)
    by (unfold routed_zone; now rewrite Hs).
  destruct ((command =? "volume") || (command =? "set_volume")).
  { unfold bind at 1, lift at 1. destruct (py_float rt value) as [x|e]; [|now left].
    unfold _cmd_set_volume.
    destruct (command_then_publish
                (sa_command (dict_get (volume_module z) "Main Volume") "1"
                   (float_repr rt (clamp_volume x)))
                zid "volume" (VFloat (clamp_volume x)) st) as [(e & _ & H)|[Hr H]].
    - now left.
    - right. split; [exact Hr|]. do 3 eexists. split; [exact H|].
      left. split; [reflexivity|]. eexists. split; [reflexivity|].
      apply clamp_volume_range. }
  destruct ((command =? "mute") || (command =? "toggle_mute")).
  { unfold _cmd_toggle_mute.
    destruct (command_then_publish
                (sa_command (dict_get (mute_module z) "Main Volume") "2"
                   (if py_bool value then "O" else "F"))
                zid "mute" (VBool (py_bool value)) st) as [(e & _ & H)|[Hr H]].
    - now left.
    - right. split; [exact Hr|]. do 3 eexists. split; [exact H|].
      right. left. split; [reflexivity|]. now eexists. }
  destruct ((command =? "source") || (command =? "set_source")).
  { unfold bind at 1, lift at 1. destruct (py_int rt value) as [n|e]; [|now left].
    unfold _cmd_set_source.
    destruct (command_then_publish
                (sa_command (dict_get (source_module z) "Selector 1") "1"
                   (str_of_int (clamp_source n)))
                zid "source" (VInt (clamp_source n)) st) as [(e & _ & H)|[Hr H]].
    - now left.
    - right. split; [exact Hr|]. do 3 eexists. split; [exact H|].
      right. right. split; [reflexivity|]. eexists. split; [reflexivity|].
      apply clamp_source_range. }
  now left.
Qed.


(** *** The handles across a command *)

Lemma same_handles_emit (st0 : instance) (e : event) :
  preserves (same_handles st0) (emit e).
Proof. now intros st H. Qed.

Lemma same_handles_next_outcome (st0 : instance) :
  preserves (same_handles st0) next_outcome.
Proof.
  intros st H. unfold next_outcome.
  destruct (io_script st) as [|[msg|] rest]; exact H.
Qed.

Ltac handles_step :=
  first
    [ apply preserves_bind; [|intros ?]
    | apply preserves_if
    | apply preserves_ret | apply preserves_raise | apply preserves_lift
    | apply preserves_get
    | apply same_handles_next_outcome
    | apply same_handles_emit
    | match goal with
      | |- preserves _ (match ?x with _ => _ end) => destruct x
      end ].

Lemma send_command_same_handles (cmd : string) (st : instance) :
  attrs_set st -> same_handles st (snd (send_command rt cmd st)).
Proof.
  intros (Hs & _ & _).
  rewrite send_command_skips_connect by (now rewrite Hs).
  cbv zeta.
  match goal with
  | |- same_handles st (snd (?m st)) =>
      assert (Hm : preserves (same_handles st) m)
  end.
  { unfold serial_write, stream_write, stream_drain, mqtt_publish,
      config_connection.
    repeat handles_step. }
  apply Hm. now repeat split.
Qed.

Lemma settled_emit (st0 : instance) (e : event) : preserves (settled st0) (emit e).
Proof. now intros st H. Qed.

Lemma settled_send_command (st0 : instance) (cmd : string) :
  preserves (settled st0) (send_command rt cmd).
Proof.
  intros st [Ha (Hs & Hr & Hw)]. split.
  - now apply attrs_send_command.
  - destruct (send_command_same_handles cmd st Ha) as (Hs' & Hr' & Hw').
    repeat split; congruence.
Qed.

Lemma handle_link_command_same_handles (link_id : string) (value : pyvalue)
    (st : instance) :
  attrs_set st -> same_handles st (snd (handle_link_command rt link_id value st)).
Proof.
  intros Ha.
  assert (Hm : preserves (settled st) (handle_link_command rt link_id value)).
  { unfold handle_link_command, _cmd_set_volume, _cmd_toggle_mute,
      _cmd_set_source, publish_state, print.
    repeat first
      [ apply settled_send_command
      | apply preserves_bind; [|intros ?]
      | apply preserves_if
      | apply preserves_ret | apply preserves_raise | apply preserves_lift
      | apply preserves_get
      | apply settled_emit
      | match goal with
        | |- preserves _ (match ?x with _ => _ end) => destruct x
        end ]. }
  destruct (Hm st) as [_ H]; [|exact H].
  split; [exact Ha | now repeat split].
Qed.

Lemma same_handles_transport (st0 st : instance) :
  same_handles st0 st -> transport_of st = transport_of st0.
Proof. intros (Hs & _ & Hw). unfold transport_of. now rewrite Hs, Hw. Qed.

(** X9.  Once the instance exists, a link command never opens, replaces or
    closes a transport: the three handles are after the call what they
    were before it, whether the call returned or a write failed.  A
    failed write in particular leaves the instance Connected with the
    handle that failed. *)
Theorem link_command_keeps_transport (st : instance) (link_id : string)
    (value : pyvalue) :
  reachable rt st ->
  let st' := snd (handle_link_command rt link_id value st) in
  serial_conn st' = serial_conn st
  /\ reader st' = reader st
  /\ writer st' = writer st
  /\ transport_of st' = transport_of st.
Proof.
  intros Hr. cbv zeta.
  pose proof (handle_link_command_same_handles link_id value st
                (reachable_attrs_set rt st Hr)) as H.
  pose proof (same_handles_transport _ _ H) as Ht.
  destruct H as (Hs & Hrd & Hw). now repeat split.
Qed.

(** X10.  Whatever the link id, the value and the state, a link command adds
    at most one publication, and only when it returns: a call that
    raises, and a call that is not routed, publish nothing.  The value
    published is a float within [-60.5, 12.0] for the volume (for every
    float, infinities and NaN included), a boolean for the mute, an
    integer within [1, 16] for the source. *)
Theorem publications_are_in_range (st : instance) (link_id : string)
    (value : pyvalue) :
  let r := handle_link_command rt link_id value st in
  (publications (snd r) = publications st
   \/ (fst r = Ok tt
       /\ exists zid param v,
            publications (snd r)
            = (publications st ++ [EvPublishState zid param v])%list
            /\ ranged param v))
  /\ (forall e, fst r = Raise e -> publications (snd r) = publications st).
Proof.
  cbv zeta. pose proof (handle_link_command_publication link_id value st) as H.
  cbv zeta in H. split; [exact H|].
  intros e He. destruct H as [H|[Hok _]]; [exact H|congruence].
Qed.

(** X11.  A value the command cannot convert stops a routed volume or source
    command before anything is sent: the exception of [float(value)] or
    [int(value)] leaves [handle_link_command] with the state untouched.
    [None] is such a value for both, a NaN and an infinity for the
    source; the mute command converts every value. *)
Theorem bad_value_raises_before_io (st : instance) (link_id zid command : string)
    (z : zone) (value : pyvalue) :
  str_splitn 1 "_" link_id = [zid; command] ->
  get_zone_config st zid = Some z ->
  (In command ["volume"; "set_volume"] ->
   forall e, py_float rt value = Raise e ->
             handle_link_command rt link_id value st = (Raise e, st))
  /\ (In command ["source"; "set_source"] ->
      forall e, py_int rt value = Raise e ->
                handle_link_command rt link_id value st = (Raise e, st))
  /\ (In command ["mute"; "toggle_mute"] ->
      handle_link_command rt link_id value st
      = _cmd_toggle_mute rt zid (dict_get (mute_module z) "Main Volume")
          (py_bool value) st)
  /\ py_float rt VNone = Raise TypeError
  /\ py_int rt VNone = Raise TypeError
  /\ py_int rt (VFloat FNaN) = Raise ValueError
  /\ (forall neg, py_int rt (VFloat (FInf neg)) = Raise OverflowError).
Proof.
  intros Hs Hz.
  assert (Hr : routed_zone st link_id = Some z).
  { unfold routed_zone. now rewrite Hs. }
  pose proof (handle_link_command_routed rt link_id zid command value st z Hs Hr) as E.
  repeat match goal with |- _ /\ _ => split end; try reflexivity.
  - intros Hc e He. rewrite E.
    destruct Hc as [<-|[<-|[]]]; cbn [String.eqb Ascii.eqb Bool.eqb orb];
      unfold bind, lift; now rewrite He.
  - intros Hc e He. rewrite E.
    destruct Hc as [<-|[<-|[]]]; cbn [String.eqb Ascii.eqb Bool.eqb orb];
      unfold bind, lift; now rewrite He.
  - intros Hc. rewrite E.
    destruct Hc as [<-|[<-|[]]]; reflexivity.
Qed.

(** [send_command] on a bridge instance that no MQTT client was attached
    to. *)
Lemma send_command_no_client (cmd : string) (st : instance) :
  attrs_set st -> connection_type st = "bridge" -> mqtt_client st = false ->
  send_command rt cmd st = (Ok tt, st).
Proof.
  intros (Hs & _ & _) Ht Hm.
  rewrite send_command_skips_connect by (now rewrite Hs).
  rewrite Ht, Hm. reflexivity.
Qed.

Lemma attrs_disconnected (st : instance) :
  attrs_set st -> transport_of st = Disconnected ->
  serial_conn st = Some None /\ writer st = Some None.
Proof.
  intros (Hs & _ & Hw) Ht. unfold transport_of, truthy in Ht.
  destruct (serial_conn st) as [[h|]|]; simpl in Hs;
    [discriminate Ht | | discriminate Hs].
  destruct (writer st) as [[h|]|]; simpl in Hw;
    [discriminate Ht | | discriminate Hw].
  now split.
Qed.

Lemma send_command_nowhere (cmd : string) (st : instance) :
  attrs_set st -> nowhere_to_send st -> send_command rt cmd st = (Ok tt, st).
Proof.
  intros Ha [[Hb Ht]|[Hb Hm]].
  - destruct (attrs_disconnected st Ha Ht) as [Hs Hw].
    now apply send_command_disconnected.
  - now apply send_command_no_client.
Qed.

(** X14.  State is published for commands that were never sent.  On an
    instance that is Disconnected (serial or TCP), or that relays through
    a bridge without an MQTT client, a routed command sends nothing and
    raises nothing, yet the new volume, mute or source is published as
    if the device had taken it. *)
Theorem publication_without_transport (st : instance)
    (link_id zid command : string) (z : zone) (value : pyvalue) :
  reachable rt st -> nowhere_to_send st ->
  str_splitn 1 "_" link_id = [zid; command] ->
  get_zone_config st zid = Some z ->
  (In command ["volume"; "set_volume"] ->
   forall x, py_float rt value = Ok x ->
     handle_link_command rt link_id value st
     = (Ok tt, add_event (EvPublishState zid "volume" (VFloat (clamp_volume x))) st))
  /\ (In command ["mute"; "toggle_mute"] ->
      handle_link_command rt link_id value st
      = (Ok tt, add_event (EvPublishState zid "mute" (VBool (py_bool value))) st))
  /\ (In command ["source"; "set_source"] ->
      forall n, py_int rt value = Ok n ->
        handle_link_command rt link_id value st
        = (Ok tt, add_event (EvPublishState zid "source" (VInt (clamp_source n))) st)).
Proof.
  intros Hreach Hn Hs Hz.
  pose proof (reachable_attrs_set rt st Hreach) as Ha.
  assert (Hr : routed_zone st link_id = Some z).
  { unfold routed_zone. now rewrite Hs. }
  pose proof (handle_link_command_routed rt link_id zid command value st z Hs Hr) as E.
  repeat match goal with |- _ /\ _ => split end.
  - intros Hc x Hx. rewrite E.
    destruct Hc as [<-|[<-|[]]]; cbn [String.eqb Ascii.eqb Bool.eqb orb];
      unfold bind at 1, lift at 1; rewrite Hx; unfold _cmd_set_volume, bind;
      now rewrite (send_command_nowhere _ st Ha Hn).
  - intros Hc. rewrite E.
    destruct Hc as [<-|[<-|[]]]; cbn [String.eqb Ascii.eqb Bool.eqb orb];
      unfold _cmd_toggle_mute, bind;
      now rewrite (send_command_nowhere _ st Ha Hn).
  - intros Hc n Hx. rewrite E.
    destruct Hc as [<-|[<-|[]]]; cbn [String.eqb Ascii.eqb Bool.eqb orb];
      unfold bind at 1, lift at 1; rewrite Hx; unfold _cmd_set_source, bind;
      now rewrite (send_command_nowhere _ st Ha Hn).
Qed.

(** X13.  [handle_command] reaches every configured zone whose id holds no
    underscore, under each of the six command names, the two-word ones
    included: the link id it composes splits back into that zone id and
    the command, and the call is the link command on the first zone
    configured with this id. *)
Theorem handle_command_reaches_zone (st : instance) (z : zone)
    (zid command : string) (value : pyvalue) :
  In z (dict_get (cfg_zones (config st)) []) ->
  zone_id z = Some zid ->
  str_contains "_" zid = false ->
  exists z',
    get_zone_config st zid = Some z' /\ zone_id z' = Some zid
    /\ str_splitn 1 "_" (zid ++ "_" ++ command) = [zid; command]
    /\ handle_command rt command zid value st
       = (if (command =? "volume") || (command =? "set_volume") then
            level <- lift (py_float rt value) ;;
            _cmd_set_volume rt zid (dict_get (volume_module z') "Main Volume") level
          else if (command =? "mute") || (command =? "toggle_mute") then
            _cmd_toggle_mute rt zid (dict_get (mute_module z') "Main Volume") (py_bool value)
          else if (command =? "source") || (command =? "set_source") then
            n <- lift (py_int rt value) ;;
            _cmd_set_source rt zid (dict_get (source_module z') "Selector 1") n
          else ret tt) st.
Proof.
  intros Hin Hid Hu.
  destruct (find_zone_first _ z zid Hin Hid) as (z' & Hf & Hid').
  assert (Hs : str_splitn 1 "_" (zid ++ "_" ++ command) = [zid; command]).
  { exact (str_splitn_once_app "_" zid command Hu). }
  exists z'. repeat match goal with |- _ /\ _ => split end; try assumption.
  unfold handle_command.
  apply handle_link_command_routed; [exact Hs|].
  unfold routed_zone. rewrite Hs. exact Hf.
Qed.

End CommandEffects.

Lemma link_command_keeps_transport_witness :
  fst (Bose.handle_link_command Samples.sample_runtime "master_volume"
         (PyNum.VInt (-10)) Scenarios.failing_write)
  = Raise (OSError "write timeout")
  /\ Bose.transport_of
       (snd (Bose.handle_link_command Samples.sample_runtime "master_volume"
               (PyNum.VInt (-10)) Scenarios.failing_write))
     = Bose.Connected 0.
Proof.
  split; [reflexivity|].
  destruct (link_command_keeps_transport Samples.sample_runtime
              Scenarios.failing_write "master_volume" (PyNum.VInt (-10)))
    as (_ & _ & _ & H).
  - apply Bose.reach_connect. apply Bose.reach_init.
  - rewrite H. reflexivity.
Defined.

Lemma bad_value_raises_before_io_witness :
  Bose.handle_link_command Samples.sample_runtime "master_source" PyNum.VNone
    (Samples.fresh Samples.serial_connection [Samples.master_zone])
  = (Raise TypeError, Samples.fresh Samples.serial_connection [Samples.master_zone]).
Proof.
  destruct (bad_value_raises_before_io Samples.sample_runtime
              (Samples.fresh Samples.serial_connection [Samples.master_zone])
              "master_source" "master" "source" Samples.master_zone PyNum.VNone
              eq_refl eq_refl) as (_ & H & _).
  apply H; [left; reflexivity | reflexivity].
Defined.

Lemma publication_without_transport_witness :
  Bose.handle_link_command Samples.sample_runtime "master_mute" (PyNum.VBool true)
    Scenarios.hung_up
  = (Ok tt,
     Bose.add_event (Bose.EvPublishState "master" "mute" (PyNum.VBool true))
       Scenarios.hung_up).
Proof.
  destruct (publication_without_transport Samples.sample_runtime Scenarios.hung_up
              "master_mute" "master" "mute" Samples.master_zone (PyNum.VBool true))
    as (_ & H & _).
  - apply Bose.reach_disconnect. apply Bose.reach_connect. apply Bose.reach_init.
  - left. split; [discriminate | reflexivity].
  - reflexivity.
  - reflexivity.
  - apply H. left. reflexivity.
Defined.

Lemma handle_command_reaches_zone_witness :
  exists z,
    Bose.get_zone_config
      (Samples.fresh Samples.serial_connection [Samples.master_zone]) "master"
    = Some z
    /\ PyStr.str_splitn 1 "_" "master_set_volume" = ["master"; "set_volume"].
Proof.
  destruct (handle_command_reaches_zone Samples.sample_runtime
              (Samples.fresh Samples.serial_connection [Samples.master_zone])
              Samples.master_zone "master" "set_volume" (PyNum.VInt (-10)))
    as (z & Hz & _ & Hs & _).
  - left. reflexivity.
  - reflexivity.
  - reflexivity.
  - exists z. split; [exact Hz | exact Hs].
Defined.

(** ** The advertised links *)

Section AdvertisedLinks.
Import PyStr PyNum Bose.

Lemma str_length_app (a b : string) :
  String.length (a ++ b) = String.length a + String.length b.
Proof. induction a as [|c a IH]; simpl; [reflexivity | now rewrite IH]. Qed.

Lemma str_app_inj_suffix (a b s1 s2 : string) :
  a ++ s1 = b ++ s2 -> String.length s1 = String.length s2 ->
  a = b /\ s1 = s2.
Proof.
  revert b. induction a as [|c a IH]; intros [|d b] H Hl; simpl in H.
  - now split.
  - subst s1. simpl in Hl. rewrite str_length_app in Hl. lia.
  - subst s2. simpl in Hl. rewrite str_length_app in Hl. lia.
  - injection H as -> H. destruct (IH b H Hl) as [-> ->]. now split.
Qed.

(** Two link ids agree only when their zone ids and their suffixes do. *)
Lemma link_id_inj (a b x y : string) :
  In x ["_volume"; "_mute"; "_source"] -> In y ["_volume"; "_mute"; "_source"] ->
  a ++ x = b ++ y -> a = b /\ x = y.
Proof.
  intros Hx Hy H.
  assert (Hv : forall p q : string, p ++ "_volume" = q ++ "_mute" -> False).
  { intros p q E.
    change (p ++ "_volume") with (p ++ ("_v" ++ "olume")) in E.
    rewrite <- str_app_assoc in E.
    now destruct (str_app_inj_suffix _ _ _ _ E eq_refl). }
  assert (Hs : forall p q : string, p ++ "_source" = q ++ "_mute" -> False).
  { intros p q E.
    change (p ++ "_source") with (p ++ ("_s" ++ "ource")) in E.
    rewrite <- str_app_assoc in E.
    now destruct (str_app_inj_suffix _ _ _ _ E eq_refl). }
  simpl in Hx, Hy.
  destruct Hx as [<-|[<-|[<-|[]]]], Hy as [<-|[<-|[<-|[]]]];
    try (now destruct (str_app_inj_suffix _ _ _ _ H eq_refl));
    try (exfalso; eauto; fail);
    try (exfalso; symmetry in H; eauto; fail).
Qed.

Lemma zone_links_ids (z : zone) (links : list link) :
  zone_links z = Ok links ->
  exists zid, zone_id z = Some zid /\ zone_name z <> None
              /\ map link_id links = link_ids_of zid.
Proof.
  unfold zone_links. destruct (zone_id z) as [zid|]; [|discriminate].
  destruct (zone_name z) as [zname|]; [|discriminate]. cbn [dict_item].
  intros [= <-]. exists zid. repeat split. discriminate.
Qed.

Lemma links_of_ok (zones : list zone) :
  (forall z, In z zones -> zone_id z <> None /\ zone_name z <> None) ->
  exists links,
    links_of zones = Ok links
    /\ map link_id links
       = flat_map (fun z => link_ids_of (dict_get (zone_id z) "")) zones.
Proof.
  induction zones as [|z zones IH]; intros H; simpl.
  - now exists [].
  - destruct (H z (or_introl eq_refl)) as [Hi Hn].
    destruct IH as (more & Hm & Hids); [intros z' Hz'; apply H; now right|].
    unfold zone_links. destruct (zone_id z) as [zid|]; [|congruence].
    destruct (zone_name z) as [zname|]; [|congruence]. cbn [dict_item].
    rewrite Hm. eexists. split; [reflexivity|].
    rewrite map_app, Hids. reflexivity.
Qed.

Lemma links_of_raises (zones : list zone) :
  (exists z, In z zones /\ (zone_id z = None \/ zone_name z = None)) ->
  links_of zones = Raise (KeyError "id") \/ links_of zones = Raise (KeyError "name").
Proof.
  induction zones as [|z zones IH]; intros (z0 & Hin & Hbad); [destruct Hin|].
  simpl. unfold zone_links.
  destruct (zone_id z) as [zid|] eqn:Hi; [|now left].
  destruct (zone_name z) as [zname|] eqn:Hn; [|now right]. cbn [dict_item].
  destruct Hin as [->|Hin].
  - destruct Hbad; congruence.
  - destruct IH as [E|E]; [now exists z0 | |]; rewrite E; auto.
Qed.

Lemma flat_map_length_3 (zones : list zone) :
  List.length (flat_map (fun z => link_ids_of (dict_get (zone_id z) "")) zones)
  = 3 * List.length zones.
Proof. induction zones as [|z zones IH]; simpl; [reflexivity | rewrite IH; lia]. Qed.

Lemma in_link_ids (l : string) (zones : list zone) :
  In l (flat_map (fun z => link_ids_of (dict_get (zone_id z) "")) zones) ->
  exists z x, In z zones /\ In x ["_volume"; "_mute"; "_source"]
              /\ l = dict_get (zone_id z) "" ++ x.
Proof.
  intros H. apply in_flat_map in H as (z & Hz & Hl).
  exists z. simpl in Hl.
  destruct Hl as [<-|[<-|[<-|[]]]]; eexists; (split; [exact Hz|]);
    (split; [|reflexivity]); simpl; tauto.
Qed.

Lemma link_ids_nodup (zones : list zone) :
  NoDup (map (fun z => dict_get (zone_id z) "") zones) ->
  NoDup (flat_map (fun z => link_ids_of (dict_get (zone_id z) "")) zones).
Proof.
  induction zones as [|z zones IH]; intros H; simpl; [constructor|].
  inversion H as [|i ids Hni Hnd]; subst.
  set (zid := dict_get (zone_id z) "") in *.
  assert (Hout : forall x, In x ["_volume"; "_mute"; "_source"] ->
                           ~ In (zid ++ x)
                               (flat_map (fun z => link_ids_of (dict_get (zone_id z) ""))
                                  zones)).
  { intros x Hx Hin. apply in_link_ids in Hin as (z' & y & Hz' & Hy & E).
    destruct (link_id_inj _ _ _ _ Hx Hy E) as [Hzid _].
    apply Hni. rewrite Hzid. now apply in_map with (f := fun z => dict_get (zone_id z) ""). }
  assert (Hd : forall x y, In x ["_volume"; "_mute"; "_source"] ->
                           In y ["_volume"; "_mute"; "_source"] ->
                           zid ++ x = zid ++ y -> x = y).
  { intros x y Hx Hy E. now destruct (link_id_inj _ _ _ _ Hx Hy E). }
  constructor.
  { intros [E|[E|Hin]].
    - apply Hd in E; simpl; try tauto; discriminate.
    - apply Hd in E; simpl; try tauto; discriminate.
    - revert Hin. apply (Hout "_volume"). simpl; tauto. }
  constructor.
  { intros [E|Hin].
    - apply Hd in E; simpl; try tauto; discriminate.
    - revert Hin. apply (Hout "_mute"). simpl; tauto. }
  constructor.
  { apply (Hout "_source"). simpl; tauto. }
  now apply IH.
Qed.

(** X12.  [get_links] advertises three links for each zone it enumerates
    (the configured zones, or the default zone when there is none), in
    the order of the zones: the zone id followed by [_volume], [_mute]
    and [_source].  It needs the id and the name of every zone and raises
    a KeyError for [id] or [name] when one is missing.  Zones with
    distinct ids give links with distinct ids. *)
Theorem get_links_three_per_zone (st : instance) :
  ((forall z, In z (advertised_zones st) -> zone_id z <> None /\ zone_name z <> None) ->
   exists links,
     get_links st = Ok links
     /\ List.length links = 3 * List.length (advertised_zones st)
     /\ map link_id links
        = flat_map (fun z => link_ids_of (dict_get (zone_id z) "")) (advertised_zones st)
     /\ (NoDup (map (fun z => dict_get (zone_id z) "") (advertised_zones st)) ->
         NoDup (map link_id links)))
  /\ ((exists z, In z (advertised_zones st) /\ (zone_id z = None \/ zone_name z = None)) ->
      get_links st = Raise (KeyError "id") \/ get_links st = Raise (KeyError "name")).
Proof.
  assert (E : get_links st = links_of (advertised_zones st)).
  { unfold get_links, advertised_zones.
    now destruct (dict_get (cfg_zones (config st)) []). }
  split.
  - intros H. destruct (links_of_ok _ H) as (links & Hl & Hids).
    exists links. rewrite E. split; [exact Hl|].
    split; [|split; [exact Hids|]].
    + rewrite <- (length_map link_id), Hids. apply flat_map_length_3.
    + intros Hnd. rewrite Hids. now apply link_ids_nodup.
  - intros H. rewrite E. now apply links_of_raises.
Qed.

End AdvertisedLinks.

Lemma get_links_three_per_zone_witness :
  exists links,
    Bose.get_links
      (Samples.fresh Samples.serial_connection
         [Samples.master_zone; Samples.living_room_zone])
    = Ok links
    /\ List.length links = 6
    /\ NoDup (map Bose.link_id links).
Proof.
  destruct (get_links_three_per_zone
              (Samples.fresh Samples.serial_connection
                 [Samples.master_zone; Samples.living_room_zone]))
    as [H _].
  destruct H as (links & Hl & Hlen & _ & Hnd).
  - intros z [<-|[<-|[]]]; split; discriminate.
  - exists links. split; [exact Hl|]. split; [exact Hlen|].
    apply Hnd. repeat constructor; simpl; intuition discriminate.
Defined.

(** ** The iTach link (integration.py) *)

Section LinkInvariant.
Import PyStr PyNum ITachLink.
Variable rt : runtime.

(** *** Rules *)

Lemma keeps_ret {A : Type} (P : bridge -> Prop) (a : A) : keeps P (ret a).
Proof. now intros st H. Qed.

Lemma keeps_lift {A : Type} (P : bridge -> Prop) (r : result A) : keeps P (lift r).
Proof. now intros st H. Qed.

Lemma keeps_bind {A B : Type} (P : bridge -> Prop) (m : M A) (k : A -> M B) :
  keeps P m -> (forall a, keeps P (k a)) -> keeps P (bind m k).
Proof.
  intros Hm Hk st H. unfold bind. specialize (Hm st H).
  destruct (m st) as [[a|e] st']; simpl in *; [now apply Hk | exact Hm].
Qed.

Lemma triple_keeps {A : Type} (P : bridge -> Prop) (m : M A)
    (Q : A -> bridge -> Prop) (E : exn -> bridge -> Prop) :
  keeps P m -> (forall a st, P st -> Q a st) -> (forall e st, P st -> E e st) ->
  triple P m Q E.
Proof.
  intros Hm HQ HE st H. specialize (Hm st H).
  destruct (m st) as [[a|e] st']; simpl in Hm; auto.
Qed.

Lemma triple_bind {A B : Type} (P : bridge -> Prop) (m : M A) (k : A -> M B)
    (R : A -> bridge -> Prop) (Q : B -> bridge -> Prop) (E : exn -> bridge -> Prop) :
  triple P m R E -> (forall a, triple (R a) (k a) Q E) -> triple P (bind m k) Q E.
Proof.
  intros Hm Hk st H. unfold bind. specialize (Hm st H).
  destruct (m st) as [[a|e] st']; [now apply Hk | exact Hm].
Qed.

Lemma triple_seq {A B : Type} (P : bridge -> Prop) (m : M A) (k : A -> M B)
    (Q : B -> bridge -> Prop) (E : exn -> bridge -> Prop) :
  keeps P m -> (forall e st, P st -> E e st) ->
  (forall a, triple P (k a) Q E) -> triple P (bind m k) Q E.
Proof.
  intros Hm HE Hk. apply triple_bind with (R := fun _ => P); [|exact Hk].
  now apply triple_keeps.
Qed.

Lemma triple_try {A : Type} (P : bridge -> Prop) (m : M A) (hd : exn -> M A)
    (R : exn -> bridge -> Prop) (Q : A -> bridge -> Prop) (E : exn -> bridge -> Prop) :
  triple P m Q R -> (forall e, triple (R e) (hd e) Q E) ->
  triple P (try_except m hd) Q E.
Proof.
  intros Hm Hh st H. unfold try_except. specialize (Hm st H).
  destruct (m st) as [[a|e] st']; [exact Hm | now apply Hh].
Qed.

Lemma triple_get {B : Type} (P : bridge -> Prop) (k : bridge -> M B)
    (Q : B -> bridge -> Prop) (E : exn -> bridge -> Prop) :
  (forall s, triple (fun st => P st /\ st = s) (k s) Q E) ->
  triple P (bind get k) Q E.
Proof. intros Hk st H. unfold bind, get. now apply (Hk st). Qed.

Lemma triple_weaken {A : Type} (P P' : bridge -> Prop) (m : M A)
    (Q Q' : A -> bridge -> Prop) (E E' : exn -> bridge -> Prop) :
  triple P' m Q' E' -> (forall st, P st -> P' st) ->
  (forall a st, Q' a st -> Q a st) -> (forall e st, E' e st -> E e st) ->
  triple P m Q E.
Proof.
  intros Hm HP HQ HE st H. specialize (Hm st (HP st H)).
  destruct (m st) as [[a|e] st']; auto.
Qed.

(** *** Safety of a log that grows *)

Lemma safe_from_app (closed : list handle) (events : list event) (e : event) :
  safe_from closed (events ++ [e])
  <-> safe_from closed events
      /\ (forall h, used_handle e = Some h ->
                    ~ In h closed /\ ~ In (EvClose h) events).
Proof.
  revert closed. induction events as [|e0 events IH]; intros closed; simpl.
  - destruct (used_handle e) as [h|].
    + split.
      * intros [H _]. split; [exact I|]. intros h' [= <-]. tauto.
      * intros [_ H]. split; [|exact I]. now apply (H h).
    + split; [|tauto]. intros _. split; [exact I|]. discriminate.
  - rewrite IH. clear IH.
    assert (Hc : forall h,
               (~ In h (match closes e0 with Some h0 => h0 :: closed | None => closed end)
                /\ ~ In (EvClose h) events)
               <-> (~ In h closed /\ ~ (e0 = EvClose h \/ In (EvClose h) events))).
    { intros h.
      destruct e0; simpl;
        try (split; intros [H1 H2]; (split; [exact H1|]);
             [intros [Heq|Hin]; [discriminate Heq | tauto] | tauto]).
      split.
      - intros [H1 H2]. split; [tauto|]. intros [[= ->]|?]; tauto.
      - intros [H1 H2]. split; [|tauto]. intros Hx. destruct Hx as [->|?]; tauto. }
    split.
    + intros (H0 & Hs & Hu). split; [now split|].
      intros h Hh. now apply Hc, Hu.
    + intros ((H0 & Hs) & Hu). split; [exact H0|]. split; [exact Hs|].
      intros h Hh. now apply Hc, Hu.
Qed.

Lemma safe_app (events : list event) (e : event) :
  safe (events ++ [e])
  <-> safe events /\ (forall h, used_handle e = Some h -> ~ In (EvClose h) events).
Proof.
  unfold safe. rewrite safe_from_app. split.
  - intros [H1 H2]. split; [exact H1|]. intros h Hh. now apply H2.
  - intros [H1 H2]. split; [exact H1|]. intros h Hh. split; [now intros []|].
    now apply H2.
Qed.

(** What [safe] says of each event of the log. *)
Lemma safe_from_spec (closed : list handle) (events before after : list event)
    (e : event) (h : handle) :
  safe_from closed events -> events = (before ++ e :: after)%list ->
  used_handle e = Some h -> ~ In h closed /\ ~ In (EvClose h) before.
Proof.
  revert closed events. induction before as [|e0 before IH]; intros closed events Hs -> Hu.
  - simpl in Hs. rewrite Hu in Hs. split; [tauto | now intros []].
  - simpl in Hs. destruct Hs as [_ Hs].
    destruct (IH _ _ Hs eq_refl Hu) as [H1 H2].
    destruct e0; simpl in *;
      try (split; [exact H1|]; intros [Heq|Hin]; [discriminate Heq | tauto]).
    split; [tauto|]. intros [[= ->]|?]; tauto.
Qed.

Lemma not_in_app_one (x e : event) (events : list event) :
  ~ In x events -> x <> e -> ~ In x (events ++ [e]).
Proof.
  intros H1 H2 H. apply in_app_or in H as [H|[H|[]]]; [tauto | congruence].
Qed.

(** *** The primitives *)

Lemma good_emit (e : event) :
  used_handle e = None -> closes e = None -> keeps good (emit e).
Proof.
  intros Hu Hc st (Hs & Hf & Hk & Hl & Hh). unfold good, live. simpl.
  repeat match goal with |- _ /\ _ => split end; try assumption.
  - apply safe_app. split; [exact Hs|]. intros h Hh'. congruence.
  - intros h Hle. apply not_in_app_one; [now apply Hf|].
    intros <-. discriminate.
  - intros Hcn. destruct (Hl Hcn) as (h & Hso & Hlv). exists h. split; [exact Hso|].
    apply not_in_app_one; [exact Hlv|]. intros <-. discriminate.
Qed.

Lemma good_next_reply : keeps good next_reply.
Proof.
  intros st H. unfold next_reply.
  destruct (script st) as [|[data|msg] rest]; exact H.
Qed.

Lemma good_set_disconnected : keeps good (modify (set_connected false)).
Proof.
  intros st (Hs & Hf & Hk & Hl & Hh). unfold good. simpl.
  repeat match goal with |- _ /\ _ => split end; try assumption; discriminate.
Qed.

Lemma marked_emit (b : bool) (h : handle) (e : event) :
  used_handle e = None \/ used_handle e = Some h -> closes e = None ->
  keeps (marked b h) (emit e).
Proof.
  intros Hu Hc st (((Hs & Hf & Hk & Hl & Hh) & Hso & Hlv & Hho) & Hb).
  assert (Hne : forall h', EvClose h' <> e) by (intros h' <-; discriminate).
  unfold marked, good_at, good, live in *. simpl.
  repeat match goal with |- _ /\ _ => split end; try assumption.
  - apply safe_app. split; [exact Hs|]. intros h' Hh'.
    destruct Hu as [Hu|Hu]; [congruence|].
    assert (h' = h) as -> by congruence. exact Hlv.
  - intros h' Hle. apply not_in_app_one; [now apply Hf | apply Hne].
  - intros Hcn. exists h. split; [exact Hso|].
    apply not_in_app_one; [exact Hlv | apply Hne].
  - apply not_in_app_one; [exact Hlv | apply Hne].
Qed.

Lemma marked_next_reply (b : bool) (h : handle) : keeps (marked b h) next_reply.
Proof.
  intros st H. unfold next_reply.
  destruct (script st) as [|[data|msg] rest]; exact H.
Qed.

Lemma marked_sock_connect (b : bool) (h : handle) (host : string) (port : pyvalue) :
  keeps (marked b h) (sock_connect h host port).
Proof.
  unfold sock_connect. apply keeps_bind; [apply keeps_lift | intros n].
  apply keeps_bind; [apply marked_emit; [now right | reflexivity] | intros _].
  apply keeps_bind; [apply marked_next_reply | intros _; apply keeps_ret].
Qed.

Lemma marked_sock_send (b : bool) (h : handle) (data : string) :
  keeps (marked b h) (sock_send h data).
Proof.
  unfold sock_send.
  apply keeps_bind; [apply marked_emit; [now right | reflexivity] | intros _].
  apply keeps_bind; [apply marked_next_reply | intros _; apply keeps_ret].
Qed.

Lemma marked_sock_recv (b : bool) (h : handle) : keeps (marked b h) (sock_recv h).
Proof.
  unfold sock_recv. apply keeps_bind; [|intros ?].
  - apply marked_emit; [now right | reflexivity].
  - apply marked_next_reply.
Qed.

Lemma marked_print (b : bool) (h : handle) (msg : string) :
  keeps (marked b h) (print msg).
Proof. apply marked_emit; [now left | reflexivity]. Qed.

Lemma marked_good (b : bool) (h : handle) (st : bridge) : marked b h st -> good st.
Proof. now intros [[H _] _]. Qed.

Lemma marked_set_connected (h : handle) (st : bridge) :
  marked false h st -> marked true h (set_connected true st).
Proof.
  intros (((Hs & Hf & Hk & Hl & Hh) & Hso & Hlv & Hho) & _).
  unfold marked, good_at, good, live in *. simpl.
  repeat match goal with |- _ /\ _ => split end; try assumption; try reflexivity.
  - intros _. now exists h.
  - now intros _.
Qed.

(** A socket just created and stored. *)
Lemma marked_new_socket (st : bridge) :
  good st -> host_of st <> None ->
  marked false (next_handle st)
    (set_socket (Some (next_handle st))
       (add_event (EvSocket (next_handle st))
          (set_env (S (next_handle st)) (script st) st))).
Proof.
  intros (Hs & Hf & Hk & Hl & Hh) Hho.
  assert (Hlv : ~ In (EvClose (next_handle st)) (log st ++ [EvSocket (next_handle st)])).
  { apply not_in_app_one; [now apply Hf | discriminate]. }
  unfold marked, good_at, good, live. simpl.
  repeat match goal with |- _ /\ _ => split end; try assumption; try reflexivity;
    try discriminate.
  - apply safe_app. split; [exact Hs|]. discriminate.
  - intros h Hle. apply not_in_app_one; [apply Hf; lia | discriminate].
  - intros h [= <-]. lia.
  - intros _. now exists (next_handle st).
Qed.

(** The handler of [connect] and [send_serial]: report, demote, raise
    again. *)
Lemma demote_triple (msg : string) (e : exn) :
  triple good
    (emit (EvPrintExn msg e) ;;; modify (set_connected false) ;;; @raise unit e)
    (fun _ st => good st /\ connected st = true)
    (fun _ st => good st /\ connected st = false).
Proof.
  intros st H. unfold bind, emit, modify, raise. simpl.
  split; [|reflexivity].
  apply good_set_disconnected. now apply (good_emit (EvPrintExn msg e)).
Qed.

(** *** The operations *)

Lemma connect_body_triple (h : handle) (host : string) (port : pyvalue) :
  triple (marked false h)
    (sock_connect h host port ;;;
     modify (set_connected true) ;;;
     print ("Connected to iTach at " ++ host ++ ":" ++ py_str rt port) ;;;
     sock_send h ("getversion" ++ cr) ;;;
     raw <- sock_recv h ;;
     response <- lift (decode_utf8 raw) ;;
     print ("iTach version: " ++ response))
    (fun _ => up) (fun _ => good).
Proof.
  apply triple_seq;
    [apply marked_sock_connect | intros; eapply marked_good; eassumption |].
  intros _.
  apply triple_bind with (R := fun _ => marked true h).
  { intros s Hs. simpl. now apply marked_set_connected. }
  intros _.
  assert (HE : forall (e : exn) s, marked true h s -> good s).
  { intros _ s Hs. eapply marked_good; eassumption. }
  apply triple_seq; [apply marked_print | exact HE | intros _].
  apply triple_seq; [apply marked_sock_send | exact HE | intros _].
  apply triple_seq; [apply marked_sock_recv | exact HE | intros raw].
  apply triple_seq; [apply keeps_lift | exact HE | intros response].
  apply triple_keeps; [apply marked_print | | exact HE].
  intros _ s [[Hg _] Hb]. split; [exact Hg | now apply Hb].
Qed.

(** [connect] once the host is known. *)
Lemma connect_configured (st : bridge) (c : Bose.connection) (host : string) :
  Bose.cfg_connection (config st) = Some c -> Bose.conn_host c = Some host ->
  connect rt st
  = try_except
      (h <- new_socket ;;
       modify (set_socket (Some h)) ;;;
       sock_connect h host (Bose.dict_get (Bose.conn_port c) (VInt 4999)) ;;;
       modify (set_connected true) ;;;
       print ("Connected to iTach at " ++ host ++ ":"
              ++ py_str rt (Bose.dict_get (Bose.conn_port c) (VInt 4999))) ;;;
       sock_send h ("getversion" ++ cr) ;;;
       raw <- sock_recv h ;;
       response <- lift (decode_utf8 raw) ;;
       print ("iTach version: " ++ response))
      (fun e =>
         emit (EvPrintExn "iTach connection failed: " e) ;;;
         modify (set_connected false) ;;;
         raise e) st.
Proof.
  intros Hc Hh. unfold connect, config_connection.
  unfold bind at 1, bind at 1, get at 1, lift at 1. rewrite Hc. cbn [Bose.dict_item].
  unfold bind at 1, lift at 1. rewrite Hh. cbn [Bose.dict_item].
  unfold bind at 1, bind at 1, get at 1, lift at 1. rewrite Hc. reflexivity.
Qed.

(** [connect] without a host in the configuration. *)
Lemma connect_unconfigured (st : bridge) :
  host_of st = None ->
  connect rt st = (Raise (KeyError "connection"), st)
  \/ connect rt st = (Raise (KeyError "host"), st).
Proof.
  unfold host_of. intros H.
  destruct (Bose.cfg_connection (config st)) as [c|] eqn:Hc; [right | left];
    unfold connect, config_connection, bind, get, lift; rewrite Hc;
    cbn [Bose.dict_item]; [rewrite H|]; reflexivity.
Qed.

Lemma connect_triple :
  triple good (connect rt) (fun _ => up) (fun _ => down).
Proof.
  intros st H.
  destruct (host_of st) as [host|] eqn:Hho.
  - unfold host_of in Hho.
    destruct (Bose.cfg_connection (config st)) as [c|] eqn:Hc; [|discriminate].
    rewrite (connect_configured st c host Hc Hho).
    assert (Hh : host_of st <> None).
    { unfold host_of. rewrite Hc, Hho. discriminate. }
    revert st H Hh Hc. 
    match goal with
    | |- forall st, _ -> _ -> _ -> match try_except ?b ?hd st with _ => _ end =>
        intros st H Hh _;
        assert (Ht : triple (fun s => good s /\ host_of s <> None)
                       (try_except b hd) (fun _ => up) (fun _ => down));
        [|now apply (Ht st)]
    end.
    clear st H Hh.
    apply triple_try with (R := fun _ => good); [|intros e; apply demote_triple].
    intros st [Hg Hh]. unfold bind at 1, new_socket at 1, bind at 1, modify at 1.
    exact (connect_body_triple (next_handle st) host _ _ (marked_new_socket st Hg Hh)).
  - assert (Hd : down st).
    { split; [exact H|]. destruct H as (_ & _ & _ & _ & Hh).
      destruct (connected st); [now destruct Hh | reflexivity]. }
    destruct (connect_unconfigured st Hho) as [-> | ->]; exact Hd.
Qed.

Lemma connect_if_needed_triple :
  triple good (connect_if_needed rt) (fun _ => up) (fun _ => down).
Proof.
  unfold connect_if_needed. apply triple_get. intros s.
  destruct (connected s) eqn:Hc; simpl.
  - intros st [H ->]. simpl. now split.
  - eapply triple_weaken; [apply connect_triple | | |]; try tauto.
Qed.

(** The body of a send: from a connected bridge, on its stored socket. *)
Lemma up_marked (st : bridge) :
  up st -> exists h, socket st = Some h /\ marked true h st.
Proof.
  intros [Hg Hc]. pose proof Hg as (_ & _ & _ & Hl & Hh).
  destruct (Hl Hc) as (h & Hso & Hlv). exists h. split; [exact Hso|].
  split; [|now intros _]. split; [exact Hg|]. split; [exact Hso|].
  split; [exact Hlv | now apply Hh].
Qed.

Lemma marked_up (h : handle) (st : bridge) : marked true h st -> up st.
Proof. intros [[Hg _] Hb]. split; [exact Hg | now apply Hb]. Qed.

Lemma exchange_triple (encode : result string) :
  triple up
    (h <- the_socket ;;
     payload <- lift encode ;;
     sock_send h payload ;;;
     raw <- sock_recv h ;;
     lift (decode_utf8 raw))
    (fun _ => up) (fun _ => up).
Proof.
  unfold the_socket. intros st Hup.
  destruct (up_marked st Hup) as (h & Hso & Hm).
  unfold bind at 1, bind at 1, get at 1. rewrite Hso. unfold ret at 1.
  revert st Hm Hup Hso. 
  match goal with
  | |- forall st, _ -> _ -> _ -> match ?m st with _ => _ end =>
      intros st Hm _ _;
      assert (Ht : triple (marked true h) m (fun _ => up) (fun _ => up));
      [|now apply (Ht st)]
  end.
  assert (HE : forall (e : exn) s, marked true h s -> up s).
  { intros _ s. apply marked_up. }
  apply triple_seq; [apply keeps_lift | exact HE | intros payload].
  apply triple_seq; [apply marked_sock_send | exact HE | intros _].
  apply triple_seq; [apply marked_sock_recv | exact HE | intros raw].
  apply triple_keeps; [apply keeps_lift | | exact HE].
  intros _ s. apply marked_up.
Qed.

Lemma send_serial_triple (data : pyvalue) :
  triple good (send_serial rt data) (fun _ => up) (fun _ => down).
Proof.
  unfold send_serial.
  apply triple_bind with (R := fun _ => up); [apply connect_if_needed_triple|].
  intros _. apply triple_try with (R := fun _ => good).
  - eapply triple_weaken; [apply (exchange_triple (str_encode data)) | | |];
      try tauto. now intros _ st [H _].
  - intros e st H. unfold bind, emit, modify, raise. simpl.
    split; [|reflexivity].
    apply good_set_disconnected.
    now apply (good_emit (EvPrintExn "iTach send error: " e)).
Qed.

Lemma send_ir_body_triple (data : pyvalue) :
  triple up
    (try_except
       (let command := "sendir," ++ py_str rt data ++ cr in
        h <- the_socket ;;
        sock_send h command ;;;
        raw <- sock_recv h ;;
        lift (decode_utf8 raw))
       (fun e => emit (EvPrintExn "iTach IR error: " e) ;;; raise e))
    (fun _ => up) (fun _ => up).
Proof.
  apply triple_try with (R := fun _ => up).
  - pose proof (exchange_triple (Ok ("sendir," ++ py_str rt data ++ cr))) as H.
    intros st Hst. specialize (H st Hst). exact H.
  - intros e st [Hg Hc]. unfold bind, emit, modify, raise. simpl.
    split; [|exact Hc].
    now apply (good_emit (EvPrintExn "iTach IR error: " e)).
Qed.

Lemma send_ir_triple (data : pyvalue) :
  triple good (send_ir rt data) (fun _ => up) (fun _ => good).
Proof.
  unfold send_ir.
  apply triple_bind with (R := fun _ => up).
  - eapply triple_weaken; [apply connect_if_needed_triple | | |]; try tauto.
    now intros _ st [H _].
  - intros _. eapply triple_weaken; [apply send_ir_body_triple | | |]; try tauto.
    now intros _ st [H _].
Qed.

Lemma disconnect_triple :
  triple good disconnect (fun _ => down) (fun _ => down).
Proof.
  intros st H. unfold disconnect, bind at 1, get at 1.
  destruct (socket st) as [h|] eqn:Hso.
  - unfold bind, emit, modify. simpl.
    destruct H as (Hs & Hf & Hk & Hl & Hh).
    split; [|reflexivity]. unfold good, live. simpl.
    repeat match goal with |- _ /\ _ => split end; try assumption; try discriminate.
    + apply safe_app. split; [exact Hs|]. discriminate.
    + intros h' Hle. apply not_in_app_one; [now apply Hf|].
      intros [= ->]. specialize (Hk h Hso). lia.
  - simpl. split; [exact H|]. destruct H as (_ & _ & _ & Hl & _).
    destruct (connected st); [|reflexivity].
    destruct (Hl eq_refl) as (h & Hh & _). congruence.
Qed.

Lemma triple_good {A : Type} (m : M A) (Q : A -> bridge -> Prop)
    (E : exn -> bridge -> Prop) :
  triple good m Q E -> (forall a st, Q a st -> good st) ->
  (forall e st, E e st -> good st) -> keeps good m.
Proof.
  intros Hm HQ HE st H. specialize (Hm st H).
  destruct (m st) as [[a|e] st']; simpl; eauto.
Qed.

Lemma up_good (st : bridge) : up st -> good st.
Proof. now intros [H _]. Qed.

Lemma down_good (st : bridge) : down st -> good st.
Proof. now intros [H _]. Qed.

Lemma good_connect : keeps good (connect rt).
Proof.
  apply (triple_good _ _ _ connect_triple); intros _ st; [apply up_good | apply down_good].
Qed.

Lemma good_disconnect : keeps good disconnect.
Proof.
  apply (triple_good _ _ _ disconnect_triple); intros _ st; apply down_good.
Qed.

Lemma good_send_serial (data : pyvalue) : keeps good (send_serial rt data).
Proof.
  apply (triple_good _ _ _ (send_serial_triple data)); intros _ st;
    [apply up_good | apply down_good].
Qed.

Lemma good_send_ir (data : pyvalue) : keeps good (send_ir rt data).
Proof.
  apply (triple_good _ _ _ (send_ir_triple data)); intros _ st; [apply up_good | tauto].
Qed.

Lemma good_handle_command (command zone_name : string) (value : pyvalue) :
  keeps good (handle_command rt command zone_name value).
Proof.
  unfold handle_command.
  destruct (command =? "send_serial").
  { apply keeps_bind; [apply good_send_serial | intros ?; apply keeps_ret]. }
  destruct (command =? "send_ir").
  { apply keeps_bind; [apply good_send_ir | intros ?; apply keeps_ret]. }
  apply keeps_ret.
Qed.

Lemma good_handle_mqtt_message (topic payload : string) :
  keeps good (handle_mqtt_message rt topic payload).
Proof.
  unfold handle_mqtt_message.
  destruct ((4 <=? List.length (str_split "/" topic))%nat && _); [|apply keeps_ret].
  destruct (nth_error (str_split "/" topic) 2) as [command|]; [|now intros st H].
  destruct (command =? "serial"); [|apply keeps_ret].
  apply keeps_bind; [apply good_send_serial | intros ?; apply keeps_ret].
Qed.

Lemma good_init (cfg : Bose.configuration) (replies : list reply) :
  good (init cfg replies).
Proof.
  unfold good, init, live, safe. simpl.
  repeat match goal with |- _ /\ _ => split end; try discriminate; try exact I.
  now intros h _.
Qed.

Lemma reachable_good (st : bridge) : reachable rt st -> good st.
Proof.
  induction 1.
  - apply good_init.
  - now apply good_connect.
  - now apply good_disconnect.
  - now apply good_send_serial.
  - now apply good_send_ir.
  - now apply good_handle_command.
  - now apply good_handle_mqtt_message.
Qed.


(** X15.  The iTach link never works on a socket it has closed: in the log of
    every state a bridge object can reach, each [connect], [send] and
    [recv] is on a socket that no earlier event closed.  And a bridge
    marked connected has a host configured and stores a socket that is
    still open. *)
Theorem link_never_uses_closed_socket (st : bridge) :
  reachable rt st ->
  (forall before e after h,
      log st = (before ++ e :: after)%list -> used_handle e = Some h ->
      ~ In (EvClose h) before)
  /\ (connected st = true ->
      exists h, socket st = Some h /\ ~ In (EvClose h) (log st)
                /\ host_of st <> None).
Proof.
  intros Hr. pose proof (reachable_good st Hr) as Hg. split.
  - intros before e after h Hl Hu. destruct Hg as (Hs & _).
    now destruct (safe_from_spec [] (log st) before after e h Hs Hl Hu).
  - intros Hc. destruct (up_marked st (conj Hg Hc)) as (h & Hso & (_ & _ & Hlv & Hh) & _).
    now exists h.
Qed.

(** X18.  The flag [connected] tells how the last call ended: after
    [connect()] and after [send_serial(data)] it is set exactly when the
    call returned, and it is clear after [disconnect()]. *)
Theorem connected_flag_tracks_outcome (st : bridge) :
  reachable rt st ->
  (connected (snd (connect rt st)) = true <-> fst (connect rt st) = Ok tt)
  /\ (forall data,
        connected (snd (send_serial rt data st)) = true
        <-> exists response, fst (send_serial rt data st) = Ok response)
  /\ connected (snd (disconnect st)) = false.
Proof.
  intros Hr. pose proof (reachable_good st Hr) as Hg.
  split; [|split].
  - pose proof (connect_triple st Hg) as H.
    destruct (connect rt st) as [[[]|e] st']; simpl; destruct H as [_ H];
      rewrite H; split; try discriminate; reflexivity.
  - intros data. pose proof (send_serial_triple data st Hg) as H.
    destruct (send_serial rt data st) as [[r|e] st']; simpl; destruct H as [_ H];
      rewrite H.
    + split; [now exists r | reflexivity].
    + split; [discriminate | now intros [r Hr']].
  - pose proof (disconnect_triple st Hg) as H.
    destruct (disconnect st) as [[[]|e] st']; simpl; now destruct H.
Qed.

(** [send_ir] on a connected bridge. *)
Lemma send_ir_marked (h : handle) (data : pyvalue) :
  triple (marked true h) (send_ir rt data)
    (fun _ => marked true h) (fun _ => marked true h).
Proof.
  intros st Hm. pose proof Hm as ((_ & Hso & _) & Hb). specialize (Hb eq_refl).
  unfold send_ir, connect_if_needed.
  unfold bind at 1, bind at 1, get at 1. rewrite Hb. cbn [negb]. unfold ret at 1.
  unfold try_except, the_socket.
  unfold bind at 1, bind at 1, get at 1. rewrite Hso. unfold ret at 1.
  assert (Ht : triple (marked true h)
                 (sock_send h ("sendir," ++ py_str rt data ++ cr) ;;;
                  raw <- sock_recv h ;; lift (decode_utf8 raw))
                 (fun _ => marked true h) (fun _ => marked true h)).
  { apply triple_seq; [apply marked_sock_send | tauto | intros _].
    apply triple_seq; [apply marked_sock_recv | tauto | intros raw].
    apply triple_keeps; [apply keeps_lift | tauto | tauto]. }
  specialize (Ht st Hm).
  destruct ((sock_send h ("sendir," ++ py_str rt data ++ cr) ;;;
             raw <- sock_recv h ;; lift (decode_utf8 raw)) st) as [[r|e] st'];
    [exact Ht|].
  unfold bind, emit, modify, raise. simpl.
  apply (marked_emit true h (EvPrintExn "iTach IR error: " e)); [now left | reflexivity | exact Ht].
Qed.

Lemma send_ir_fails (st : bridge) (h : handle) (data : pyvalue)
    (msg : string) (rest : list reply) :
  connected st = true -> socket st = Some h -> script st = Failed msg :: rest ->
  fst (send_ir rt data st) = Raise (OSError msg).
Proof.
  intros Hc Hso Hsc. destruct st as [cfg so cn nh sc lg]. simpl in *. subst.
  reflexivity.
Qed.

Lemma send_serial_fails (st : bridge) (h : handle) (s : string)
    (msg : string) (rest : list reply) :
  connected st = true -> socket st = Some h -> script st = Failed msg :: rest ->
  fst (send_serial rt (VStr s) st) = Raise (OSError msg)
  /\ connected (snd (send_serial rt (VStr s) st)) = false.
Proof.
  intros Hc Hso Hsc. destruct st as [cfg so cn nh sc lg]. simpl in *. subst.
  split; reflexivity.
Qed.

(** X17.  A failed IR send does not demote the link.  On a connected bridge
    [send_ir] leaves the flag [connected] set and the stored socket in
    place however it ends; when the peer fails the send, [send_ir] raises
    the error and the bridge still counts as connected, where
    [send_serial] raises the same error and clears the flag. *)
Theorem ir_failure_keeps_connected (st : bridge) (data : pyvalue) :
  reachable rt st -> connected st = true ->
  connected (snd (send_ir rt data st)) = true
  /\ socket (snd (send_ir rt data st)) = socket st
  /\ (forall msg rest,
        script st = Failed msg :: rest ->
        fst (send_ir rt data st) = Raise (OSError msg)
        /\ forall s,
             fst (send_serial rt (VStr s) st) = Raise (OSError msg)
             /\ connected (snd (send_serial rt (VStr s) st)) = false).
Proof.
  intros Hr Hc. pose proof (reachable_good st Hr) as Hg.
  destruct (up_marked st (conj Hg Hc)) as (h & Hso & Hm).
  pose proof (send_ir_marked h data st Hm) as H.
  assert (Hm' : marked true h (snd (send_ir rt data st))).
  { destruct (send_ir rt data st) as [[r|e] st']; exact H. }
  destruct Hm' as ((_ & Hso' & _) & Hb).
  split; [now apply Hb|]. split; [congruence|].
  intros msg rest Hsc. split.
  - now apply send_ir_fails with (h := h) (rest := rest).
  - intros s. now apply send_serial_fails with (h := h) (rest := rest).
Qed.

(** X16.  [send_serial] reconnects by itself.  On a bridge that is not
    connected (a fresh one, or one after [disconnect()] or a failure),
    with a host and a usable port configured and a peer that answers, a
    send opens a new socket, connects it, exchanges [getversion], and
    only then sends the data on the new socket; the answer is returned
    and the bridge is connected. *)
Theorem send_serial_reconnects (st : bridge) (c : Bose.connection)
    (host data r1 r2 version r3 response : string) (port : Z)
    (rest : list reply) :
  connected st = false ->
  Bose.cfg_connection (config st) = Some c -> Bose.conn_host c = Some host ->
  port_number (Bose.dict_get (Bose.conn_port c) (VInt 4999)) = Ok port ->
  script st = Done r1 :: Done r2 :: Done version :: Done r3 :: Done response :: rest ->
  utf8_valid version = true -> utf8_valid response = true ->
  let h := next_handle st in
  exists st',
    send_serial rt (VStr data) st = (Ok response, st')
    /\ connected st' = true /\ socket st' = Some h /\ script st' = rest
    /\ log st'
       = (log st
          ++ [EvSocket h; EvConnect h host port;
              EvPrint ("Connected to iTach at " ++ host ++ ":"
                       ++ py_str rt (Bose.dict_get (Bose.conn_port c) (VInt 4999)));
              EvSend h ("getversion" ++ cr); EvRecv h;
              EvPrint ("iTach version: " ++ version);
              EvSend h data; EvRecv h])%list.
Proof.
  intros Hcn Hc Hh Hp Hsc Hv Hr h.
  assert (E : connect rt st
              = (Ok tt,
                 add_event (EvPrint ("iTach version: " ++ version))
                   (set_env (S (next_handle st)) (Done r3 :: Done response :: rest)
                      (add_event (EvRecv h)
                         (set_env (S (next_handle st))
                            (Done version :: Done r3 :: Done response :: rest)
                            (add_event (EvSend h ("getversion" ++ cr))
                               (add_event
                                  (EvPrint ("Connected to iTach at " ++ host ++ ":"
                                     ++ py_str rt (Bose.dict_get (Bose.conn_port c) (VInt 4999))))
                                  (set_connected true
                                     (set_env (S (next_handle st))
                                        (Done r2 :: Done version :: Done r3 :: Done response :: rest)
                                        (add_event (EvConnect h host port)
                                           (set_socket (Some h)
                                              (add_event (EvSocket h)
                                                 (set_env (S (next_handle st)) (script st) st))))))))))))).
  { rewrite (connect_configured st c host Hc Hh).
    unfold try_except, bind, new_socket, modify, sock_connect, sock_send, sock_recv,
      emit, print, modify, lift, ret, next_reply, decode_utf8.
    rewrite Hp. cbn [script set_socket add_event set_env set_connected next_handle].
    rewrite Hsc.
    cbv [bind emit modify ret lift print sock_send sock_recv next_reply decode_utf8
         raise script set_env add_event set_connected set_socket next_handle log
         config socket connected].
    rewrite Hv. reflexivity. }
  eexists. split.
  - unfold send_serial, connect_if_needed.
    unfold bind at 1, bind at 1, get at 1. rewrite Hcn. cbn [negb]. rewrite E.
    cbv [try_except the_socket bind get lift ret str_encode sock_send sock_recv
         emit modify next_reply decode_utf8 raise script set_env add_event
         set_connected set_socket next_handle log config socket connected].
    rewrite Hr. reflexivity.
  - cbn [connected socket script log set_socket add_event set_env set_connected].
    repeat split. repeat rewrite <- app_assoc. reflexivity.
Qed.

Lemma str_split_no_sep (sep : ascii) (s : string) :
  str_contains (String sep "") s = false -> str_split sep s = [s].
Proof.
  induction s as [|c s IH]; intros H; [reflexivity|].
  rewrite str_contains_char_cons in H. apply orb_false_iff in H as [Hc Hs].
  simpl. rewrite Hc, (IH Hs). reflexivity.
Qed.

Lemma str_split_topic (id rest : string) :
  str_contains "/" id = false ->
  str_split "/" ("bridges/" ++ id ++ "/" ++ rest)
  = "bridges" :: id :: str_split "/" rest.
Proof.
  intros H.
  change ("bridges/" ++ id ++ "/" ++ rest)
    with ("bridges" ++ String "/" (id ++ String "/" rest)).
  rewrite str_split_app, str_split_app, (str_split_no_sep "/" id H).
  reflexivity.
Qed.

(** X19.  Which topics [handle_mqtt_message] acts on.  A topic
    [bridges/<id>/serial/<more>] (with an id free of slashes) relays the
    payload through [send_serial]; the topic [bridges/<id>/command], the
    one under which the Bose integration publishes a relayed command, has
    three parts where four are asked for and is ignored, as is
    [bridges/<id>/serial] itself. *)
Theorem mqtt_relay_topics (st : bridge) (id payload : string) :
  str_contains "/" id = false ->
  (forall more,
      handle_mqtt_message rt ("bridges/" ++ id ++ "/serial/" ++ more) payload st
      = (send_serial rt (VStr payload) ;;; ret tt) st)
  /\ handle_mqtt_message rt ("bridges/" ++ id ++ "/command") payload st = (Ok tt, st)
  /\ handle_mqtt_message rt ("bridges/" ++ id ++ "/serial") payload st = (Ok tt, st)
  /\ (forall (bst : Bose.instance) (cmd : string) (c : Bose.connection),
        Bose.connection_type bst = "bridge" ->
        Bose.hasattr (Bose.serial_conn bst) || Bose.hasattr (Bose.writer bst) = true ->
        Bose.mqtt_client bst = true ->
        Bose.cfg_connection (Bose.config bst) = Some c ->
        Bose.conn_bridge_id c = Some id ->
        exists topic,
          Bose.send_command rt cmd bst
          = (Ok tt, Bose.add_event
                      (Bose.EvMqttPublish topic (str_replace "<CR>" cr cmd)) bst)
          /\ handle_mqtt_message rt topic (str_replace "<CR>" cr cmd) st = (Ok tt, st)).
Proof.
  intros H.
  assert (Hcmd : forall p, handle_mqtt_message rt ("bridges/" ++ id ++ "/command") p st
                           = (Ok tt, st)).
  { intros p. unfold handle_mqtt_message.
    change ("bridges/" ++ id ++ "/command") with ("bridges/" ++ id ++ "/" ++ "command").
    rewrite (str_split_topic id "command" H). reflexivity. }
  repeat match goal with |- _ /\ _ => split end.
  - intros more. unfold handle_mqtt_message.
    change ("bridges/" ++ id ++ "/serial/" ++ more)
      with ("bridges/" ++ id ++ "/" ++ ("serial" ++ String "/" more)).
    rewrite (str_split_topic id _ H), str_split_app.
    change (str_split "/" "serial") with ["serial"].
    destruct (str_split "/" more) as [|x l] eqn:Hm;
      [now apply str_split_nonempty in Hm|].
    reflexivity.
  - apply Hcmd.
  - unfold handle_mqtt_message.
    change ("bridges/" ++ id ++ "/serial") with ("bridges/" ++ id ++ "/" ++ "serial").
    rewrite (str_split_topic id "serial" H). reflexivity.
  - intros bst cmd c Ht Ha Hm Hc Hb. exists ("bridges/" ++ id ++ "/command").
    split; [|apply Hcmd].
    now rewrite (send_command_bridge rt cmd bst c id Ht Ha Hm Hc Hb).
Qed.

Lemma sent_app (a b : list event) : sent (a ++ b) = (sent a ++ sent b)%list.
Proof.
  induction a as [|e a IH]; [reflexivity|].
  destruct e; simpl; now rewrite IH.
Qed.

(** X20.  What the two sends accept.  [send_ir] frames any value: on a
    connected bridge it sends [sendir,], the text of the value and a
    carriage return, once.  [send_serial] needs a string: with any other
    value nothing is sent, the AttributeError of [data.encode()] is raised
    and the bridge is marked disconnected; [handle_command] passes the
    value of [send_serial] on as it is. *)
Theorem send_values (st : bridge) (h : handle) (data : pyvalue) :
  connected st = true -> socket st = Some h ->
  sent (log (snd (send_ir rt data st)))
  = (sent (log st) ++ [("sendir," ++ py_str rt data ++ cr)%string])%list
  /\ ((forall s, data <> VStr s) ->
      send_serial rt data st
      = (Raise AttributeError,
         set_connected false
           (add_event (EvPrintExn "iTach send error: " AttributeError) st))
      /\ forall zone_name,
           handle_command rt "send_serial" zone_name data st
           = (Raise AttributeError,
              set_connected false
                (add_event (EvPrintExn "iTach send error: " AttributeError) st))).
Proof.
  intros Hc Hso. split.
  - destruct st as [cfg so cn nh sc lg]. simpl in *. subst.
    unfold send_ir, connect_if_needed, try_except, the_socket, bind, get, ret,
      sock_send, sock_recv, emit, modify, lift, raise, next_reply. simpl.
    destruct sc as [|[d|m] [|[d'|m'] rest]]; simpl;
      try destruct (decode_utf8 _); simpl;
      repeat rewrite sent_app; simpl; now rewrite ?app_nil_r.
  - intros Hn.
    assert (He : str_encode data = Raise AttributeError).
    { destruct data; try reflexivity. now destruct (Hn s). }
    assert (E : send_serial rt data st
                = (Raise AttributeError,
                   set_connected false
                     (add_event (EvPrintExn "iTach send error: " AttributeError) st))).
    { unfold send_serial, connect_if_needed.
      unfold bind at 1, bind at 1, get at 1. rewrite Hc. cbn [negb]. unfold ret at 1.
      unfold try_except, the_socket.
      unfold bind at 1, bind at 1, get at 1. rewrite Hso. unfold ret at 1.
      unfold bind at 1, lift at 1. rewrite He. reflexivity. }
    split; [exact E|]. intros zone_name. unfold handle_command.
    cbn [String.eqb Ascii.eqb Bool.eqb]. unfold bind. now rewrite E.
Qed.

End LinkInvariant.

Lemma link_never_uses_closed_socket_witness :
  exists h,
    ITachLink.socket Scenarios.relinked = Some h
    /\ ~ In (ITachLink.EvClose h) (ITachLink.log Scenarios.relinked)
    /\ ITachLink.host_of Scenarios.relinked <> None.
Proof.
  destruct (link_never_uses_closed_socket Samples.sample_runtime Scenarios.relinked)
    as [_ H].
  - apply ITachLink.reach_send_serial. apply ITachLink.reach_disconnect.
    apply ITachLink.reach_connect. apply ITachLink.reach_init.
  - apply H. reflexivity.
Defined.

Lemma connected_flag_tracks_outcome_witness :
  ITachLink.connected
    (snd (ITachLink.connect Samples.sample_runtime
            (Scenarios.fresh_link [ITachLink.Failed "refused"]))) = true
  <-> fst (ITachLink.connect Samples.sample_runtime
             (Scenarios.fresh_link [ITachLink.Failed "refused"])) = Ok tt.
Proof.
  destruct (connected_flag_tracks_outcome Samples.sample_runtime
              (Scenarios.fresh_link [ITachLink.Failed "refused"])) as (H & _).
  - apply ITachLink.reach_init.
  - exact H.
Defined.

Lemma ir_failure_keeps_connected_witness :
  let st := Scenarios.linked
              [ITachLink.Done ""; ITachLink.Done ""; ITachLink.Done "710-1001-05";
               ITachLink.Failed "broken pipe"] in
  fst (ITachLink.send_ir Samples.sample_runtime (PyNum.VStr "1:1,1,38000") st)
  = Raise (OSError "broken pipe")
  /\ ITachLink.connected
       (snd (ITachLink.send_ir Samples.sample_runtime (PyNum.VStr "1:1,1,38000") st))
     = true.
Proof.
  cbv zeta.
  destruct (ir_failure_keeps_connected Samples.sample_runtime
              (Scenarios.linked
                 [ITachLink.Done ""; ITachLink.Done ""; ITachLink.Done "710-1001-05";
                  ITachLink.Failed "broken pipe"])
              (PyNum.VStr "1:1,1,38000")) as (H1 & _ & H3).
  - apply ITachLink.reach_connect. apply ITachLink.reach_init.
  - reflexivity.
  - split; [|exact H1].
    exact (proj1 (H3 "broken pipe" [] eq_refl)).
Defined.

Lemma send_serial_reconnects_witness :
  exists st',
    ITachLink.send_serial Samples.sample_runtime (PyNum.VStr "PWR")
      (Scenarios.fresh_link Scenarios.answering)
    = (Ok "ok", st')
    /\ ITachLink.connected st' = true
    /\ ITachLink.socket st' = Some 0.
Proof.
  pose proof (send_serial_reconnects Samples.sample_runtime
                (Scenarios.fresh_link Scenarios.answering)
                Scenarios.itach_connection "192.168.1.70" "PWR"
                "" "" "710-1001-05" "" "ok" 4999%Z []
                eq_refl eq_refl eq_refl eq_refl eq_refl eq_refl eq_refl) as H.
  cbv zeta in H. destruct H as (st' & H1 & H2 & H3 & _).
  exists st'. split; [exact H1|]. split; [exact H2 | exact H3].
Defined.

Lemma mqtt_relay_topics_witness :
  ITachLink.handle_mqtt_message Samples.sample_runtime "bridges/itach1/command"
    "SA" (Scenarios.linked [])
  = (Ok tt, Scenarios.linked []).
Proof.
  destruct (mqtt_relay_topics Samples.sample_runtime (Scenarios.linked [])
              "itach1" "SA" eq_refl) as (_ & H & _).
  exact H.
Defined.

Lemma send_values_witness :
  ITachLink.send_serial Samples.sample_runtime (PyNum.VInt 5) (Scenarios.linked [])
  = (Raise AttributeError,
     ITachLink.set_connected false
       (ITachLink.add_event
          (ITachLink.EvPrintExn "iTach send error: " AttributeError)
          (Scenarios.linked []))).
Proof.
  destruct (send_values Samples.sample_runtime (Scenarios.linked []) 0
              (PyNum.VInt 5) eq_refl eq_refl) as [_ H].
  destruct H as [H _]; [intros s; discriminate | exact H].
Defined.

(** ** What an iTach session reports *)

Section SessionProvenance.
Import PyStr Udp.

Lemma scan_parts_labelled (ip_addr : string) (parts : list string)
    (d d' : ITach.device_info) :
  ITach.constant_fields ip_addr d -> ITach.labelled d ->
  ITach.scan_parts parts d = Ok d' ->
  ITach.constant_fields ip_addr d' /\ ITach.labelled d'.
Proof.
  revert d. induction parts as [|part parts IH]; intros d Hc Hl; simpl.
  - now intros [= <-].
  - destruct (str_contains "UUID=" part).
    + destruct (ITach.second_field part) as [v|e]; [|discriminate].
      apply IH.
      * exact Hc.
      * exact Hl.
    + destruct (str_contains "Model=" part); [|now apply IH].
      destruct (ITach.second_field part) as [v|e]; [|discriminate].
      apply IH.
      * exact Hc.
      * right. reflexivity.
Qed.

Lemma read_response_ip (data ip_addr : string) (d : ITach.device_info) :
  ITach.read_response data ip_addr = Ok (Some d) ->
  ITach.constant_fields ip_addr d /\ ITach.labelled d.
Proof.
  unfold ITach.read_response.
  destruct (decode_utf8 data) as [response|e]; [|discriminate].
  destruct (str_contains "AMXB" response); [|discriminate].
  destruct (ITach.scan_parts _ _) as [d'|e] eqn:E; [|discriminate].
  intros [= <-]. eapply scan_parts_labelled; [| |exact E].
  - now repeat split.
  - left. now split.
Qed.

Lemma backed_cons (timeout : Z) (t : tick) (turns : list tick)
    (d : ITach.device_info) :
  ITach.backed timeout turns d -> ITach.backed timeout (t :: turns) d.
Proof.
  intros (t0 & payload & p & Hin & H). exists t0, payload, p.
  split; [now right | exact H].
Qed.

Lemma caused_cons (timeout : Z) (t : tick) (turns : list tick) (e : exn) :
  ITach.caused timeout turns e -> ITach.caused timeout (t :: turns) e.
Proof.
  intros (t0 & Hin & H). exists t0. split; [now right | exact H].
Qed.

Lemma itach_listen_backed (timeout : Z) (turns : list tick)
    (devices found : list ITach.device_info) :
  ITach.listen timeout turns devices = Returned found ->
  exists more,
    found = (devices ++ more)%list
    /\ Forall (ITach.backed timeout turns) more
    /\ List.length more <= List.length turns.
Proof.
  revert devices. induction turns as [|t turns IH]; intros devices; simpl;
    [discriminate|].
  destruct (elapsed t <? timeout)%Z eqn:Ht.
  2:{ intros [= <-]. exists []. rewrite app_nil_r. repeat split; [constructor | simpl; lia]. }
  apply Z.ltb_lt in Ht.
  assert (Hrec : forall ds,
             ITach.listen timeout turns ds = Returned found ->
             exists more, found = (ds ++ more)%list
                          /\ Forall (ITach.backed timeout (t :: turns)) more
                          /\ List.length more <= List.length turns).
  { intros ds H. destruct (IH ds H) as (more & E & Hb & Hlen).
    exists more. repeat split; try assumption.
    eapply Forall_impl; [|exact Hb]. intros d. apply backed_cons. }
  destruct (received t) as [|payload ip_addr p|msg] eqn:Hr.
  - intros H. destruct (Hrec devices H) as (more & E & Hb & Hlen).
    exists more. repeat split; try assumption. lia.
  - destruct (ITach.read_response (recvfrom_data payload) ip_addr) as [[d|]|e] eqn:Hd.
    + intros H. destruct (Hrec _ H) as (more & E & Hb & Hlen).
      exists (d :: more). split; [now rewrite E, <- app_assoc|].
      split; [|simpl; lia].
      constructor; [|exact Hb].
      destruct (read_response_ip _ _ _ Hd) as [(Hip & _) _].
      exists t, payload, p. rewrite Hip.
      repeat split; try assumption; now left.
    + intros H. destruct (Hrec devices H) as (more & E & Hb & Hlen).
      exists more. repeat split; try assumption. lia.
    + discriminate.
  - discriminate.
Qed.

Lemma itach_listen_caused (timeout : Z) (turns : list tick)
    (devices : list ITach.device_info) (e : exn) :
  ITach.listen timeout turns devices = Raised e -> ITach.caused timeout turns e.
Proof.
  revert devices. induction turns as [|t turns IH]; intros devices; simpl;
    [discriminate|].
  destruct (elapsed t <? timeout)%Z eqn:Ht; [|discriminate].
  apply Z.ltb_lt in Ht.
  destruct (received t) as [|payload ip_addr p|msg] eqn:Hr.
  - intros H. apply caused_cons. now apply IH with (devices := devices).
  - destruct (ITach.read_response (recvfrom_data payload) ip_addr) as [[d|]|e'] eqn:Hd.
    + intros H. apply caused_cons. eapply IH. exact H.
    + intros H. apply caused_cons. eapply IH. exact H.
    + intros [= <-]. exists t. split; [now left|]. split; [exact Ht|].
      right. now exists payload, ip_addr, p.
  - intros [= <-]. exists t. split; [now left|]. split; [exact Ht|].
    left. now exists msg.
Qed.

(** X21.  What an iTach session reports has a cause in what it met.  Each
    entry returned is the reading of a datagram received before the
    deadline, from the address the entry carries, and there are at most
    as many entries as turns of the loop; a session that raises does so
    because its socket could not be made ready, the beacon could not be
    sent, a receive failed, or a datagram received before the deadline
    could not be read. *)
Theorem itach_session_provenance (timeout : Z) (net : network) :
  (forall found,
      ITach.discover_devices timeout net = Returned found ->
      setup_error net = None
      /\ sendto_error net 9131%Z = None
      /\ Forall (ITach.backed timeout (arrivals net)) found
      /\ List.length found <= List.length (arrivals net))
  /\ (forall e,
        ITach.discover_devices timeout net = Raised e ->
        setup_error net = Some e
        \/ (setup_error net = None
            /\ exists msg, sendto_error net 9131%Z = Some msg /\ e = OSError msg)
        \/ (setup_error net = None /\ sendto_error net 9131%Z = None
            /\ ITach.caused timeout (arrivals net) e)).
Proof.
  unfold ITach.discover_devices. split.
  - intros found. destruct (setup_error net) as [e0|]; [discriminate|].
    destruct (sendto_error net 9131%Z) as [msg|]; [discriminate|].
    intros H. destruct (itach_listen_backed _ _ _ _ H) as (more & -> & Hb & Hlen).
    now repeat split.
  - intros e. destruct (setup_error net) as [e0|].
    + intros [= <-]. now left.
    + destruct (sendto_error net 9131%Z) as [msg|].
      * intros [= <-]. right. left. split; [reflexivity|]. now exists msg.
      * intros H. right. right. repeat split. now apply itach_listen_caused in H.
Qed.

(** X22.  Every entry an iTach session builds carries the sender's address,
    port 4999 and the three constant fields, and its name goes with its
    model: [iTach <model> at <ip>] once a model segment was read, and
    [iTach at <ip>] with the model Unknown before that. *)
Theorem itach_entry_is_labelled (data ip_addr : string) (d : ITach.device_info) :
  ITach.read_response data ip_addr = Ok (Some d) ->
  ITach.ip d = ip_addr /\ ITach.port d = 4999%Z
  /\ ITach.integration d = "global_cache_itach"
  /\ ITach.type d = "globalcache" /\ ITach.category d = "bridge"
  /\ ((ITach.model d = "Unknown" /\ ITach.name d = "iTach at " ++ ip_addr)
      \/ ITach.name d = "iTach " ++ ITach.model d ++ " at " ++ ip_addr).
Proof.
  intros H. destruct (read_response_ip data ip_addr d H) as [Hc Hl].
  pose proof Hc as (Hip & Hp & Hi & Ht & Hcat).
  repeat match goal with |- _ /\ _ => split end; try assumption.
  unfold ITach.labelled in Hl. now rewrite Hip in Hl.
Qed.

End SessionProvenance.

Lemma itach_session_provenance_witness :
  let net := Samples.one_reply 5 Samples.itach_reply "10.0.0.7" in
  exists d,
    ITach.discover_devices 5 net = Udp.Returned [d]
    /\ Forall (ITach.backed 5 (Udp.arrivals net)) [d].
Proof.
  cbv zeta. eexists. split; [reflexivity|].
  apply (proj1 (itach_session_provenance 5
                  (Samples.one_reply 5 Samples.itach_reply "10.0.0.7"))).
  reflexivity.
Defined.

Lemma itach_entry_is_labelled_witness :
  exists d,
    ITach.read_response Samples.itach_reply "10.0.0.7" = Ok (Some d)
    /\ ITach.name d = "iTach EX1 at 10.0.0.7".
Proof.
  eexists. split; [reflexivity|].
  destruct (itach_entry_is_labelled Samples.itach_reply "10.0.0.7" _ eq_refl)
    as (_ & _ & _ & _ & _ & [[H _]|H]).
  - discriminate H.
  - exact H.
Defined.
